(** * Expense lifecycle and financial reporting of the club back end

    A shallow embedding of the expense controller (create, update, approve,
    reject, reimburse, delete, manual creation), of the year-closing step of
    the archive controller and of the aggregation pipelines of the report
    controller, followed by the properties proved about them.

    Conventions of the embedding:
    - a collection is the list of its documents, in insertion order;
    - a request handler is a function from the database and the request to
      the new database and the HTTP response; the clock ([new Date()]) and
      the identifier the driver gives a new document are explicit inputs;
    - mail, audit and socket notifications do not touch the expense
      collection and swallow their own failures, so they are left out; what
      is kept of them is the reading of the populated member and event of
      an expense to build the mail, which throws when a reference was not
      resolved;
    - a number is an IEEE 754 binary64 value, as in JavaScript: amounts are
      [float]s, and the sums the handlers compute are floating-point sums;
    - a string is the list of the bytes of its UTF-8 form;
    - the order in which the store emits the groups of a [$group] stage and
      the way its [$sum] accumulator adds up the values of a group are not
      fixed by the repository: they are parameters of the pipelines;
    - a [Date] is kept as its calendar fields; the time zone is not modelled;
    - the [createdAt]/[updatedAt] stamps that the [timestamps] option lets
      the ODM maintain are not part of the modelled document. *)

From Stdlib Require Import List ZArith Bool String Ascii Lia.
From Stdlib Require Import Permutation Sorted DecimalString.
From Stdlib Require Import Floats.
Import ListNotations.

Local Open Scope string_scope.
Local Open Scope list_scope.
Local Open Scope Z_scope.

(** ** Numbers

    A JavaScript number is an IEEE 754 binary64 value: a [float], with the
    kernel's addition and comparisons. *)

(** The number nearest to [m * 10 ^ e], ties to even ([m] not negative). *)
Definition roundDecimal (negative : bool) (m e : Z) : float :=
  match m with
  | Zpos _ =>
      SF2Prim
        (if 0 <=? e
         then binary_normalize prec emax (cond_Zopp negative (m * 10 ^ e)) 0
                false
         else
           let '(q, e', l) :=
             SFdiv_core_binary prec emax m 0 (10 ^ (- e)) 0 in
           binary_round_aux prec emax negative q e' l)
  | _ => if negative then neg_zero else zero
  end.

Definition float_of_Z (z : Z) : float :=
  roundDecimal (z <? 0) (Z.abs z) 0.

(** *** Reading a number: [Number(string)] and [parseFloat(string)] *)

Definition digitOf (base : Z) (c : ascii) : option Z :=
  let n := Z.of_nat (nat_of_ascii c) in
  let d :=
    if (48 <=? n) && (n <=? 57) then n - 48
    else if (97 <=? n) && (n <=? 102) then n - 87
    else if (65 <=? n) && (n <=? 70) then n - 55
    else 16 in
  if d <? base then Some d else None.

(** The longest run of digits at the head, as the number it denotes and the
    count of its digits. *)
Fixpoint takeDigits (base : Z) (acc : Z) (count : Z) (cs : list ascii)
  : Z * Z * list ascii :=
  match cs with
  | c :: rest =>
      match digitOf base c with
      | Some d => takeDigits base (acc * base + d) (count + 1) rest
      | None => (acc, count, cs)
      end
  | [] => (acc, count, cs)
  end.

(** White space and line terminators (StrWhiteSpaceChar), by their UTF-8
    bytes: the length of the one at the head, 0 when there is none. *)
Definition whiteSpaceAt (cs : list ascii) : nat :=
  match map nat_of_ascii (firstn 3 cs) with
  | 9 :: _ | 10 :: _ | 11 :: _ | 12 :: _ | 13 :: _ | 32 :: _ => 1
  | 194 :: 160 :: _ => 2                          (* U+00A0 *)
  | 225 :: 154 :: 128 :: _ => 3                   (* U+1680 *)
  | 226 :: 128 :: b :: _ =>
      if ((128 <=? b) && (b <=? 138))%nat         (* U+2000 .. U+200A *)
         || (b =? 168)%nat || (b =? 169)%nat      (* U+2028, U+2029 *)
         || (b =? 175)%nat                        (* U+202F *)
      then 3 else 0
  | 226 :: 129 :: 159 :: _ => 3                   (* U+205F *)
  | 227 :: 128 :: 128 :: _ => 3                   (* U+3000 *)
  | 239 :: 187 :: 191 :: _ => 3                   (* U+FEFF *)
  | _ => 0
  end%nat.

Fixpoint trimStartFuel (fuel : nat) (cs : list ascii) : list ascii :=
  match fuel with
  | O => cs
  | S fuel' =>
      match whiteSpaceAt cs with
      | O => cs
      | n => trimStartFuel fuel' (skipn n cs)
      end
  end.

Definition trimStart (cs : list ascii) : list ascii :=
  trimStartFuel (List.length cs) cs.

(** The white space at the end: the same characters, read backwards. *)
Fixpoint trimEndFuel (fuel : nat) (rs : list ascii) : list ascii :=
  match fuel with
  | O => rs
  | S fuel' =>
      let one := whiteSpaceAt (rev (firstn 1 rs)) in
      let two := whiteSpaceAt (rev (firstn 2 rs)) in
      let three := whiteSpaceAt (rev (firstn 3 rs)) in
      if (one =? 1)%nat then trimEndFuel fuel' (skipn 1 rs)
      else if (two =? 2)%nat then trimEndFuel fuel' (skipn 2 rs)
      else if (three =? 3)%nat then trimEndFuel fuel' (skipn 3 rs)
      else rs
  end.

Definition trimEnd (cs : list ascii) : list ascii :=
  rev (trimEndFuel (List.length cs) (rev cs)).

Fixpoint startsWith (prefix cs : list ascii) : option (list ascii) :=
  match prefix, cs with
  | [], _ => Some cs
  | p :: prefix', c :: cs' =>
      if Ascii.eqb p c then startsWith prefix' cs' else None
  | _ :: _, [] => None
  end.

(** An exponent part at the head, if there is a whole one. *)
Definition exponentPart (cs : list ascii) : Z * list ascii :=
  match cs with
  | c :: rest =>
      if Ascii.eqb c "e" || Ascii.eqb c "E" then
        let '(negative, rest') :=
          match rest with
          | s :: r =>
              if Ascii.eqb s "-" then (true, r)
              else if Ascii.eqb s "+" then (false, r)
              else (false, rest)
          | [] => (false, rest)
          end in
        let '(x, count, rest'') := takeDigits 10 0 0 rest' in
        if count =? 0 then (0, cs)
        else (if negative then - x else x, rest'')
      else (0, cs)
  | [] => (0, cs)
  end.

(** The longest StrDecimalLiteral at the head: its value and what follows
    it; [None] when there is none. *)
Definition decimalLiteral (cs : list ascii) : option (float * list ascii) :=
  let '(negative, body) :=
    match cs with
    | s :: r =>
        if Ascii.eqb s "-" then (true, r)
        else if Ascii.eqb s "+" then (false, r)
        else (false, cs)
    | [] => (false, cs)
    end in
  match startsWith (list_ascii_of_string "Infinity") body with
  | Some rest => Some (if negative then neg_infinity else infinity, rest)
  | None =>
      let '(whole, nWhole, r1) := takeDigits 10 0 0 body in
      let '(m, nFraction, r2) :=
        match r1 with
        | dot :: r =>
            if Ascii.eqb dot "."
            then let '(m, n, r') := takeDigits 10 whole 0 r in
                 if (nWhole =? 0) && (n =? 0) then (whole, 0, r1)
                 else (m, n, r')
            else (whole, 0, r1)
        | [] => (whole, 0, r1)
        end in
      if (nWhole =? 0) && (nFraction =? 0) then None
      else
        let '(x, rest) := exponentPart r2 in
        Some (roundDecimal negative m (x - nFraction), rest)
  end.

(** [0x], [0o] and [0b] literals, which take no sign. *)
Definition nonDecimalLiteral (cs : list ascii) : option (option float) :=
  match cs with
  | z :: b :: digits =>
      let base :=
        if Ascii.eqb b "x" || Ascii.eqb b "X" then 16
        else if Ascii.eqb b "o" || Ascii.eqb b "O" then 8
        else if Ascii.eqb b "b" || Ascii.eqb b "B" then 2
        else 0 in
      if Ascii.eqb z "0" && negb (base =? 0) then
        let '(m, count, rest) := takeDigits base 0 0 digits in
        Some (match rest with
              | [] => if count =? 0 then None else Some (float_of_Z m)
              | _ => None
              end)
      else None
  | _ => None
  end.

(** [Number(s)] *)
Definition Number_of_string (s : string) : float :=
  let cs := trimEnd (trimStart (list_ascii_of_string s)) in
  match cs with
  | [] => zero
  | _ =>
      match nonDecimalLiteral cs with
      | Some (Some x) => x
      | Some None => nan
      | None =>
          match decimalLiteral cs with
          | Some (x, []) => x
          | _ => nan
          end
      end
  end.

(** [parseFloat(s)] *)
Definition parseFloat_of_string (s : string) : float :=
  match decimalLiteral (trimStart (list_ascii_of_string s)) with
  | Some (x, _) => x
  | None => nan
  end.

(** *** Writing a number: [String(x)] (Number::toString, radix 10) *)

Fixpoint digitsOf (fuel : nat) (z : Z) (acc : list ascii) : list ascii :=
  match fuel with
  | O => acc
  | S fuel' =>
      let acc' := ascii_of_nat (Z.to_nat (48 + z mod 10)) :: acc in
      if z <? 10 then acc' else digitsOf fuel' (z / 10) acc'
  end.

(** The decimal digits of a number that is not negative. *)
Definition decimalOf (z : Z) : list ascii :=
  digitsOf (S (Z.to_nat (Z.log2 z))) z [].

(** [v < 10 ^ n] for the positive rational [v = num / den]. *)
Definition belowPower (num den n : Z) : bool :=
  if 0 <=? n then num <? 10 ^ n * den else num * 10 ^ (- n) <? den.

(** The digits [s] (k of them) and the position [n] of the shortest decimal
    that reads back as [x], the nearest to [x] among the shortest ones. *)
Definition shortestDecimal (x : float) : Z * Z * Z :=
  match Prim2SF x with
  | S754_finite _ m e =>
      let num := if 0 <=? e then Zpos m * 2 ^ e else Zpos m in
      let den := if 0 <=? e then 1 else 2 ^ (- e) in
      let n0 :=
        match find (belowPower num den)
                (map (fun i => Z.of_nat i - 330) (seq 0 650)) with
        | Some n => n
        | None => 0
        end in
      let candidate k :=
        (* floor and ceiling of v / 10 ^ (n0 - k) *)
        let scale := n0 - k in
        let lo :=
          if 0 <=? scale then num / (den * 10 ^ scale)
          else (num * 10 ^ (- scale)) / den in
        let reads s := PrimFloat.eqb (roundDecimal false s scale) (abs x) in
        (* twice the distance from v, in units of 10 ^ scale / den *)
        let nearerLow :=
          if 0 <=? scale
          then Z.compare (2 * num) ((2 * lo + 1) * (den * 10 ^ scale))
          else Z.compare (2 * num * 10 ^ (- scale)) ((2 * lo + 1) * den) in
        let low := if reads lo then Some lo else None in
        let high := if reads (lo + 1) then Some (lo + 1) else None in
        match low, high with
        | Some a, Some b =>
            match nearerLow with
            | Lt => Some a
            | Gt => Some b
            | Eq => Some (if Z.even a then a else b)
            end
        | Some a, None => Some a
        | None, Some b => Some b
        | None, None => None
        end in
      match
        find (fun k => match candidate k with
                       | Some _ => true
                       | None => false
                       end)
          (map Z.of_nat (seq 1 17))
      with
      | Some k =>
          match candidate k with
          | Some s =>
              if s =? 10 ^ k then (10 ^ (k - 1), k, n0 + 1) else (s, k, n0)
          | None => (0, 1, 0)
          end
      | None => (0, 1, 0)
      end
  | _ => (0, 1, 0)
  end.

Definition zeros (n : Z) : list ascii := repeat "0"%char (Z.to_nat n).

(** [String(x)] *)
Definition Number_toString (x : float) : string :=
  if is_nan x then "NaN"
  else if is_zero x then "0"
  else if is_infinity x then (if get_sign x then "-Infinity" else "Infinity")
  else
    let '(s, k, n) := shortestDecimal x in
    let digits := decimalOf s in
    let text :=
      if (k <=? n) && (n <=? 21) then digits ++ zeros (n - k)
      else if (0 <? n) && (n <=? 21)
      then firstn (Z.to_nat n) digits ++ "."%char :: skipn (Z.to_nat n) digits
      else if (-6 <? n) && (n <=? 0)
      then "0"%char :: "."%char :: zeros (- n) ++ digits
      else
        let exponent :=
          "e"%char :: (if 0 <=? n - 1 then "+"%char else "-"%char)
          :: decimalOf (Z.abs (n - 1)) in
        match digits with
        | d :: [] => d :: exponent
        | d :: more => d :: "."%char :: more ++ exponent
        | [] => exponent
        end in
    string_of_list_ascii
      (if get_sign x then "-"%char :: text else text).

(** [s.length]: the UTF-16 code units of a string held as UTF-8 bytes. *)
Definition jsLength (s : string) : nat :=
  List.length
    (flat_map (fun c =>
                 let b := nat_of_ascii c in
                 if ((128 <=? b) && (b <? 192))%nat then []
                 else if (240 <=? b)%nat then [c; c]
                 else [c])
       (list_ascii_of_string s)).

(** [!x] is true of 0, -0 and NaN. *)
Definition truthyNumber (x : float) : bool := negb (is_zero x || is_nan x).

(** [x || 0] *)
Definition orZero (x : float) : float := if truthyNumber x then x else zero.

(** The order of [$sort] on numbers: NaN comes below every number. *)
Definition numberLe (a b : float) : bool :=
  is_nan a || (negb (is_nan b) && PrimFloat.leb a b).

(** The same order on the numbers as the specification of the floating-point
    operations sees them. *)
Definition sfNaN (x : spec_float) : bool := negb (SFeqb x x).

Definition sfLe (x y : spec_float) : bool :=
  sfNaN x || (negb (sfNaN y) && SFleb x y).

(** ** Identifiers and dates *)

Definition ObjectId := string.

Definition isHexDigit (c : ascii) : bool :=
  let n := nat_of_ascii c in
  ((48 <=? n) && (n <=? 57))%nat
  || ((97 <=? n) && (n <=? 102))%nat
  || ((65 <=? n) && (n <=? 70))%nat.

(** [mongoose.Types.ObjectId.isValid] on a string taken from a request: the
    24 hexadecimal digits form. *)
Definition isValidObjectId (s : string) : bool :=
  (String.length s =? 24)%nat && forallb isHexDigit (list_ascii_of_string s).

Definition lowerHex (c : ascii) : ascii :=
  let n := nat_of_ascii c in
  if ((65 <=? n) && (n <=? 70))%nat then ascii_of_nat (n + 32) else c.

(** The cast of a request string to an ObjectId; identifiers are kept in
    their lower-case text form. *)
Definition castObjectId (s : string) : option ObjectId :=
  if isValidObjectId s
  then Some (string_of_list_ascii (map lowerHex (list_ascii_of_string s)))
  else None.

Record Date := mkDate
  { fullYear : Z;      (* calendar year *)
    monthOfYear : Z;   (* 1 .. 12 *)
    dayOfMonth : Z;
    timeOfDay : Z      (* milliseconds since midnight *) }.

Definition getFullYear (d : Date) : Z := fullYear d.
Definition getMonth (d : Date) : Z := monthOfYear d - 1.

Definition string_of_Z (z : Z) : string := NilZero.string_of_int (Z.to_int z).

(** utils/helpers.js, [getFinancialYear]: the Rotaract year starts on July 1. *)
Definition getFinancialYear (date : Date) : string :=
  let year := getFullYear date in
  let month := getMonth date in
  if 6 <=? month
  then (string_of_Z year ++ "-" ++ string_of_Z (year + 1))%string
  else (string_of_Z (year - 1) ++ "-" ++ string_of_Z year)%string.

(** ** Enumerations of the expense schema *)

Inductive Status := pending | approved | rejected | reimbursed | paid.

Definition Status_name (s : Status) : string :=
  match s with
  | pending => "pending"
  | approved => "approved"
  | rejected => "rejected"
  | reimbursed => "reimbursed"
  | paid => "paid"
  end.

Definition Status_enum : list Status :=
  [pending; approved; rejected; reimbursed; paid].

Definition Status_eqb (a b : Status) : bool :=
  match a, b with
  | pending, pending | approved, approved | rejected, rejected
  | reimbursed, reimbursed | paid, paid => true
  | _, _ => false
  end.

Inductive Category :=
  | donation | personal_contribution | travel_expense | accommodation
  | event_material | food_refreshments | miscellaneous.

Definition Category_name (c : Category) : string :=
  match c with
  | donation => "donation"
  | personal_contribution => "personal_contribution"
  | travel_expense => "travel_expense"
  | accommodation => "accommodation"
  | event_material => "event_material"
  | food_refreshments => "food_refreshments"
  | miscellaneous => "miscellaneous"
  end.

Definition Category_enum : list Category :=
  [donation; personal_contribution; travel_expense; accommodation;
   event_material; food_refreshments; miscellaneous].

Definition Category_eqb (a b : Category) : bool :=
  (Category_name a =? Category_name b)%string.

Inductive PaymentMode := upi | cash | bank_transfer | cheque.

Definition PaymentMode_name (p : PaymentMode) : string :=
  match p with
  | upi => "upi"
  | cash => "cash"
  | bank_transfer => "bank_transfer"
  | cheque => "cheque"
  end.

Definition PaymentMode_enum : list PaymentMode :=
  [upi; cash; bank_transfer; cheque].

(** The [enum] validator of a String path: the value is kept when it is one
    of the listed names. *)
Definition enum_of_string {A : Type} (name : A -> string) (all : list A)
  (s : string) : option A :=
  find (fun a => (name a =? s)%string) all.

Definition Status_of_string := enum_of_string Status_name Status_enum.
Definition Category_of_string := enum_of_string Category_name Category_enum.
Definition PaymentMode_of_string :=
  enum_of_string PaymentMode_name PaymentMode_enum.

(** ** The expense document (models/Expense.model.js) *)

Record Expense := mkExpense
  { _id : ObjectId;
    member : ObjectId;
    event : ObjectId;
    category : Category;
    amount : float;
    date : Date;
    paymentMode : PaymentMode;
    description : option string;
    notes : option string;
    billUrl : option string;
    billPublicId : option string;
    billOriginalName : option string;
    status : Status;
    approvedBy : option ObjectId;
    approvedAt : option Date;
    rejectedBy : option ObjectId;
    rejectedAt : option Date;
    rejectionReason : option string;
    reimbursedBy : option ObjectId;
    reimbursedAt : option Date;
    reimbursementReference : option string;
    rotaractYear : string;
    isArchived : bool }.

(** Assignment to one path of a document, [expense.path = v]. *)
Definition set_member (v : ObjectId) (e : Expense) : Expense :=
  mkExpense (_id e) v (event e) (category e) (amount e) (date e)
    (paymentMode e) (description e) (notes e) (billUrl e) (billPublicId e)
    (billOriginalName e) (status e) (approvedBy e) (approvedAt e)
    (rejectedBy e) (rejectedAt e) (rejectionReason e) (reimbursedBy e)
    (reimbursedAt e) (reimbursementReference e) (rotaractYear e)
    (isArchived e).

Definition set_event (v : ObjectId) (e : Expense) : Expense :=
  mkExpense (_id e) (member e) v (category e) (amount e) (date e)
    (paymentMode e) (description e) (notes e) (billUrl e) (billPublicId e)
    (billOriginalName e) (status e) (approvedBy e) (approvedAt e)
    (rejectedBy e) (rejectedAt e) (rejectionReason e) (reimbursedBy e)
    (reimbursedAt e) (reimbursementReference e) (rotaractYear e)
    (isArchived e).

Definition set_category (v : Category) (e : Expense) : Expense :=
  mkExpense (_id e) (member e) (event e) v (amount e) (date e)
    (paymentMode e) (description e) (notes e) (billUrl e) (billPublicId e)
    (billOriginalName e) (status e) (approvedBy e) (approvedAt e)
    (rejectedBy e) (rejectedAt e) (rejectionReason e) (reimbursedBy e)
    (reimbursedAt e) (reimbursementReference e) (rotaractYear e)
    (isArchived e).

Definition set_amount (v : float) (e : Expense) : Expense :=
  mkExpense (_id e) (member e) (event e) (category e) v (date e)
    (paymentMode e) (description e) (notes e) (billUrl e) (billPublicId e)
    (billOriginalName e) (status e) (approvedBy e) (approvedAt e)
    (rejectedBy e) (rejectedAt e) (rejectionReason e) (reimbursedBy e)
    (reimbursedAt e) (reimbursementReference e) (rotaractYear e)
    (isArchived e).

Definition set_date (v : Date) (e : Expense) : Expense :=
  mkExpense (_id e) (member e) (event e) (category e) (amount e) v
    (paymentMode e) (description e) (notes e) (billUrl e) (billPublicId e)
    (billOriginalName e) (status e) (approvedBy e) (approvedAt e)
    (rejectedBy e) (rejectedAt e) (rejectionReason e) (reimbursedBy e)
    (reimbursedAt e) (reimbursementReference e) (rotaractYear e)
    (isArchived e).

Definition set_paymentMode (v : PaymentMode) (e : Expense) : Expense :=
  mkExpense (_id e) (member e) (event e) (category e) (amount e) (date e) v
    (description e) (notes e) (billUrl e) (billPublicId e)
    (billOriginalName e) (status e) (approvedBy e) (approvedAt e)
    (rejectedBy e) (rejectedAt e) (rejectionReason e) (reimbursedBy e)
    (reimbursedAt e) (reimbursementReference e) (rotaractYear e)
    (isArchived e).

Definition set_description (v : option string) (e : Expense) : Expense :=
  mkExpense (_id e) (member e) (event e) (category e) (amount e) (date e)
    (paymentMode e) v (notes e) (billUrl e) (billPublicId e)
    (billOriginalName e) (status e) (approvedBy e) (approvedAt e)
    (rejectedBy e) (rejectedAt e) (rejectionReason e) (reimbursedBy e)
    (reimbursedAt e) (reimbursementReference e) (rotaractYear e)
    (isArchived e).

Definition set_notes (v : option string) (e : Expense) : Expense :=
  mkExpense (_id e) (member e) (event e) (category e) (amount e) (date e)
    (paymentMode e) (description e) v (billUrl e) (billPublicId e)
    (billOriginalName e) (status e) (approvedBy e) (approvedAt e)
    (rejectedBy e) (rejectedAt e) (rejectionReason e) (reimbursedBy e)
    (reimbursedAt e) (reimbursementReference e) (rotaractYear e)
    (isArchived e).

Definition set_billUrl (v : option string) (e : Expense) : Expense :=
  mkExpense (_id e) (member e) (event e) (category e) (amount e) (date e)
    (paymentMode e) (description e) (notes e) v (billPublicId e)
    (billOriginalName e) (status e) (approvedBy e) (approvedAt e)
    (rejectedBy e) (rejectedAt e) (rejectionReason e) (reimbursedBy e)
    (reimbursedAt e) (reimbursementReference e) (rotaractYear e)
    (isArchived e).

Definition set_billPublicId (v : option string) (e : Expense) : Expense :=
  mkExpense (_id e) (member e) (event e) (category e) (amount e) (date e)
    (paymentMode e) (description e) (notes e) (billUrl e) v
    (billOriginalName e) (status e) (approvedBy e) (approvedAt e)
    (rejectedBy e) (rejectedAt e) (rejectionReason e) (reimbursedBy e)
    (reimbursedAt e) (reimbursementReference e) (rotaractYear e)
    (isArchived e).

Definition set_billOriginalName (v : option string) (e : Expense) : Expense :=
  mkExpense (_id e) (member e) (event e) (category e) (amount e) (date e)
    (paymentMode e) (description e) (notes e) (billUrl e) (billPublicId e) v
    (status e) (approvedBy e) (approvedAt e) (rejectedBy e) (rejectedAt e)
    (rejectionReason e) (reimbursedBy e) (reimbursedAt e)
    (reimbursementReference e) (rotaractYear e) (isArchived e).

Definition set_status (v : Status) (e : Expense) : Expense :=
  mkExpense (_id e) (member e) (event e) (category e) (amount e) (date e)
    (paymentMode e) (description e) (notes e) (billUrl e) (billPublicId e)
    (billOriginalName e) v (approvedBy e) (approvedAt e) (rejectedBy e)
    (rejectedAt e) (rejectionReason e) (reimbursedBy e) (reimbursedAt e)
    (reimbursementReference e) (rotaractYear e) (isArchived e).

Definition set_approvedBy (v : option ObjectId) (e : Expense) : Expense :=
  mkExpense (_id e) (member e) (event e) (category e) (amount e) (date e)
    (paymentMode e) (description e) (notes e) (billUrl e) (billPublicId e)
    (billOriginalName e) (status e) v (approvedAt e) (rejectedBy e)
    (rejectedAt e) (rejectionReason e) (reimbursedBy e) (reimbursedAt e)
    (reimbursementReference e) (rotaractYear e) (isArchived e).

Definition set_approvedAt (v : option Date) (e : Expense) : Expense :=
  mkExpense (_id e) (member e) (event e) (category e) (amount e) (date e)
    (paymentMode e) (description e) (notes e) (billUrl e) (billPublicId e)
    (billOriginalName e) (status e) (approvedBy e) v (rejectedBy e)
    (rejectedAt e) (rejectionReason e) (reimbursedBy e) (reimbursedAt e)
    (reimbursementReference e) (rotaractYear e) (isArchived e).

Definition set_rejectedBy (v : option ObjectId) (e : Expense) : Expense :=
  mkExpense (_id e) (member e) (event e) (category e) (amount e) (date e)
    (paymentMode e) (description e) (notes e) (billUrl e) (billPublicId e)
    (billOriginalName e) (status e) (approvedBy e) (approvedAt e) v
    (rejectedAt e) (rejectionReason e) (reimbursedBy e) (reimbursedAt e)
    (reimbursementReference e) (rotaractYear e) (isArchived e).

Definition set_rejectedAt (v : option Date) (e : Expense) : Expense :=
  mkExpense (_id e) (member e) (event e) (category e) (amount e) (date e)
    (paymentMode e) (description e) (notes e) (billUrl e) (billPublicId e)
    (billOriginalName e) (status e) (approvedBy e) (approvedAt e)
    (rejectedBy e) v (rejectionReason e) (reimbursedBy e) (reimbursedAt e)
    (reimbursementReference e) (rotaractYear e) (isArchived e).

Definition set_rejectionReason (v : option string) (e : Expense) : Expense :=
  mkExpense (_id e) (member e) (event e) (category e) (amount e) (date e)
    (paymentMode e) (description e) (notes e) (billUrl e) (billPublicId e)
    (billOriginalName e) (status e) (approvedBy e) (approvedAt e)
    (rejectedBy e) (rejectedAt e) v (reimbursedBy e) (reimbursedAt e)
    (reimbursementReference e) (rotaractYear e) (isArchived e).

Definition set_reimbursedBy (v : option ObjectId) (e : Expense) : Expense :=
  mkExpense (_id e) (member e) (event e) (category e) (amount e) (date e)
    (paymentMode e) (description e) (notes e) (billUrl e) (billPublicId e)
    (billOriginalName e) (status e) (approvedBy e) (approvedAt e)
    (rejectedBy e) (rejectedAt e) (rejectionReason e) v (reimbursedAt e)
    (reimbursementReference e) (rotaractYear e) (isArchived e).

Definition set_reimbursedAt (v : option Date) (e : Expense) : Expense :=
  mkExpense (_id e) (member e) (event e) (category e) (amount e) (date e)
    (paymentMode e) (description e) (notes e) (billUrl e) (billPublicId e)
    (billOriginalName e) (status e) (approvedBy e) (approvedAt e)
    (rejectedBy e) (rejectedAt e) (rejectionReason e) (reimbursedBy e) v
    (reimbursementReference e) (rotaractYear e) (isArchived e).

Definition set_reimbursementReference (v : option string) (e : Expense) : Expense :=
  mkExpense (_id e) (member e) (event e) (category e) (amount e) (date e)
    (paymentMode e) (description e) (notes e) (billUrl e) (billPublicId e)
    (billOriginalName e) (status e) (approvedBy e) (approvedAt e)
    (rejectedBy e) (rejectedAt e) (rejectionReason e) (reimbursedBy e)
    (reimbursedAt e) v (rotaractYear e) (isArchived e).

Definition set_rotaractYear (v : string) (e : Expense) : Expense :=
  mkExpense (_id e) (member e) (event e) (category e) (amount e) (date e)
    (paymentMode e) (description e) (notes e) (billUrl e) (billPublicId e)
    (billOriginalName e) (status e) (approvedBy e) (approvedAt e)
    (rejectedBy e) (rejectedAt e) (rejectionReason e) (reimbursedBy e)
    (reimbursedAt e) (reimbursementReference e) v (isArchived e).

Definition set_isArchived (v : bool) (e : Expense) : Expense :=
  mkExpense (_id e) (member e) (event e) (category e) (amount e) (date e)
    (paymentMode e) (description e) (notes e) (billUrl e) (billPublicId e)
    (billOriginalName e) (status e) (approvedBy e) (approvedAt e)
    (rejectedBy e) (rejectedAt e) (rejectionReason e) (reimbursedBy e)
    (reimbursedAt e) (reimbursementReference e) (rotaractYear e) v.


(** The fields of a user and of an event that the expense code reads. *)
Module User.
Record t := mk
  { _id : ObjectId;
    firstName : string;
    lastName : string;
    email : string }.
End User.

Module Event.
Record t := mk
  { _id : ObjectId;
    name : string;
    estimatedBudget : Z }.
End Event.

(** The database: the collections the expense code reads or writes. Of the
    archive collection only the labels of the years whose archive has status
    "archived" are kept. *)
Record Db := mkDb
  { expenses : list Expense;
    events : list Event.t;
    users : list User.t;
    archivedYears : list string }.

Definition with_expenses (db : Db) (l : list Expense) : Db :=
  mkDb l (events db) (users db) (archivedYears db).

(** ** Responses *)

Record Response := mkResponse
  { statusCode : Z;
    success : bool;
    message : string;
    data : option Expense }.

Definition fail (code : Z) (msg : string) : Response :=
  mkResponse code false msg None.

Definition ok (code : Z) (msg : string) (e : Expense) : Response :=
  mkResponse code true msg (Some e).

(** ** Collection operations *)

Inductive Found (A : Type) :=
  | CastError            (* the identifier is not an ObjectId: the query throws *)
  | Missing              (* the query resolves to null *)
  | Doc (a : A).
Arguments CastError {A}.
Arguments Missing {A}.
Arguments Doc {A} a.

Definition findById (coll : list Expense) (id : string) : Found Expense :=
  match castObjectId id with
  | None => CastError
  | Some oid =>
      match find (fun e => (_id e =? oid)%string) coll with
      | Some e => Doc e
      | None => Missing
      end
  end.

(** [updateOne({_id: id}, {$set: ...})]: the first document with this
    identifier is rewritten; [None] when there is none. *)
Fixpoint updateOne (id : ObjectId) (f : Expense -> Expense)
  (coll : list Expense) : option (list Expense) :=
  match coll with
  | [] => None
  | e :: rest =>
      if (_id e =? id)%string then Some (f e :: rest)
      else option_map (cons e) (updateOne id f rest)
  end.

(** ** The three transitions *)

(** The paths a transition handler assigns on the document it read; [save]
    writes exactly these. *)
Inductive Modified :=
  | Approved (by_ : ObjectId) (at_ : Date)
  | Rejected (by_ : ObjectId) (at_ : Date) (reason : string)
  | Reimbursed (by_ : ObjectId) (at_ : Date) (reference : option string).

Definition setApproved (by_ : ObjectId) (at_ : Date) (e : Expense) : Expense :=
  set_approvedAt (Some at_) (set_approvedBy (Some by_) (set_status approved e)).

Definition setRejected (by_ : ObjectId) (at_ : Date) (reason : string)
  (e : Expense) : Expense :=
  set_rejectionReason (Some reason)
    (set_rejectedAt (Some at_) (set_rejectedBy (Some by_)
       (set_status rejected e))).

Definition setReimbursed (by_ : ObjectId) (at_ : Date)
  (reference : option string) (e : Expense) : Expense :=
  set_reimbursementReference reference
    (set_reimbursedAt (Some at_) (set_reimbursedBy (Some by_)
       (set_status reimbursed e))).

Definition applyModified (m : Modified) (e : Expense) : Expense :=
  match m with
  | Approved u t => setApproved u t e
  | Rejected u t r => setRejected u t r e
  | Reimbursed u t r => setReimbursed u t r e
  end.

(** [maxlength] of a string path that may be absent. *)
Definition withinLength (n : nat) (v : option string) : bool :=
  match v with
  | Some s => (jsLength s <=? n)%nat
  | None => true
  end.

(** The validators of the schema that a stored document can fail, as
    [save] runs them on the document it holds: [min] of the amount,
    [maxlength] of the description and of the notes, [required] of the year
    label (an empty string is not accepted). *)
Definition validateSync (e : Expense) : bool :=
  (1 <=? amount e)%float
  && withinLength 500 (description e)
  && withinLength 1000 (notes e)
  && negb (rotaractYear e =? EmptyString)%string.

(** [.populate("member", ...).populate("event", ...)] on the document read:
    whether both references were resolved, that is, whether
    [expense.member.firstName] and [expense.event.name] can be read. *)
Definition populated (db : Db) (e : Expense) : bool :=
  match find (fun u => (User._id u =? member e)%string) (users db),
        find (fun d => (Event._id d =? event e)%string) (events db) with
  | Some _, Some _ => true
  | _, _ => false
  end.

(** A handler runs up to its [await expense.save()]: either it has already
    answered, or its write is on its way with the document it holds;
    [resolved] tells whether the references the handler reads after the save
    were resolved when the document was read. *)
Inductive Await :=
  | Replied (r : Response)
  | Saving (doc : Expense) (m : Modified) (resolved : bool).

(** [await expense.save()] and the rest of the handler: the document is
    validated, the modified paths are written to the stored document with
    its identifier, and the answer is built; reading a field of a reference
    that was not resolved throws after the write, and the handler answers
    500. *)
Definition save (okMessage errMessage : string) (db : Db) (a : Await)
  : Db * Response :=
  match a with
  | Replied r => (db, r)
  | Saving doc m resolved =>
      if negb (validateSync doc) then (db, fail 500 errMessage)
      else
        match updateOne (_id doc) (applyModified m) (expenses db) with
        | Some coll =>
            (with_expenses db coll,
             if resolved then ok 200 okMessage doc else fail 500 errMessage)
        | None => (db, fail 500 errMessage)
        end
  end.

Definition approve_read (db : Db) (user : ObjectId) (now : Date) (id : string)
  : Await :=
  match findById (expenses db) id with
  | CastError => Replied (fail 500 "Failed to approve expense")
  | Missing => Replied (fail 404 "Expense not found")
  | Doc expense =>
      if negb (Status_eqb (status expense) pending)
      then Replied (fail 400 ("Cannot approve expense with status: "
                              ++ Status_name (status expense))%string)
      else Saving (setApproved user now expense) (Approved user now)
             (populated db expense)
  end.

Definition approveExpense (db : Db) (user : ObjectId) (now : Date)
  (id : string) : Db * Response :=
  save "Expense approved successfully" "Failed to approve expense" db
    (approve_read db user now id).

(** [!reason] of JavaScript on an absent or a string value. *)
Definition falsy (v : option string) : bool :=
  match v with
  | None => true
  | Some s => (s =? EmptyString)%string
  end.

Definition reject_read (db : Db) (user : ObjectId) (now : Date) (id : string)
  (reason : option string) : Await :=
  if falsy reason then Replied (fail 400 "Rejection reason is required")
  else
    let text := match reason with Some s => s | None => EmptyString end in
    match findById (expenses db) id with
    | CastError => Replied (fail 500 "Failed to reject expense")
    | Missing => Replied (fail 404 "Expense not found")
    | Doc expense =>
        if negb (Status_eqb (status expense) pending)
        then Replied (fail 400 ("Cannot reject expense with status: "
                                ++ Status_name (status expense))%string)
        else Saving (setRejected user now text expense)
                    (Rejected user now text) (populated db expense)
    end.

Definition rejectExpense (db : Db) (user : ObjectId) (now : Date)
  (id : string) (reason : option string) : Db * Response :=
  save "Expense rejected" "Failed to reject expense" db
    (reject_read db user now id reason).

Definition reimburse_read (db : Db) (user : ObjectId) (now : Date)
  (id : string) (reference : option string) : Await :=
  match findById (expenses db) id with
  | CastError => Replied (fail 500 "Failed to reimburse expense")
  | Missing => Replied (fail 404 "Expense not found")
  | Doc expense =>
      if negb (Status_eqb (status expense) approved)
      then Replied
             (fail 400 "Only approved expenses can be marked as reimbursed")
      else Saving (setReimbursed user now reference expense)
                  (Reimbursed user now reference) true
  end.

Definition reimburseExpense (db : Db) (user : ObjectId) (now : Date)
  (id : string) (reference : option string) : Db * Response :=
  save "Expense marked as reimbursed" "Failed to reimburse expense" db
    (reimburse_read db user now id reference).

(** ** Creation, update, deletion *)

(** A value of a request body: a string, a number or a boolean.  What the
    [Date] constructor makes of a string or of a number depends on the
    engine and on the time zone of the server, which are not modelled: a
    value sent under the key [date] that the schema's Date cast accepts is
    represented by the date it is read as, [VDate]; a value it refuses, by
    itself.  [VDate] is used under the key [date] only. *)
Inductive Value :=
  | VString (s : string)
  | VNumber (x : float)
  | VBool (b : bool)
  | VDate (d : Date).

(** Schema casts and validators ([runValidators: true]). *)
Definition castString (maxlength : option nat) (v : Value) : option string :=
  let text :=
    match v with
    | VString s => Some s
    | VNumber x => Some (Number_toString x)
    | VBool b => Some (if b then "true" else "false")
    | VDate _ => None
    end in
  match text, maxlength with
  | Some s, Some n => if (jsLength s <=? n)%nat then Some s else None
  | _, _ => text
  end.

Definition castEnum {A : Type} (of_string : string -> option A) (v : Value)
  : option A :=
  match v with
  | VString s => of_string s
  | _ => None
  end.

(** The Number cast of the schema ([Number(v)] on a string or a boolean, NaN
    refused, the empty string read as no value) followed by [required] and
    [min: 1]. *)
Definition castAmount (v : Value) : option float :=
  let n :=
    match v with
    | VNumber x => Some x
    | VString s =>
        if (s =? EmptyString)%string then None else Some (Number_of_string s)
    | VBool b => Some (if b then one else zero)
    | VDate _ => None
    end in
  match n with
  | Some x =>
      if is_nan x then None
      else if (1 <=? x)%float then Some x else None   (* min: 1 *)
  | None => None
  end.

Definition castDate (v : Value) : option Date :=
  match v with
  | VDate d => Some d
  | _ => None
  end.

Definition castId (v : Value) : option ObjectId :=
  match v with
  | VString s => castObjectId s
  | _ => None
  end.

Definition castBoolean (v : Value) : option bool :=
  match v with
  | VBool b => Some b
  | VString s =>
      if existsb (String.eqb s) ["true"; "1"; "yes"] then Some true
      else if existsb (String.eqb s) ["false"; "0"; "no"] then Some false
      else None
  | VNumber x =>
      if (x =? 1)%float then Some true
      else if (x =? 0)%float then Some false else None
  | VDate _ => None
  end.

(** [$set] of one path by [findByIdAndUpdate]: every path of the schema can
    be written this way; [None] is a cast or validation error. A key that is
    not a path of the schema is dropped (strict mode), and [_id] is
    immutable. *)
Definition setPath (key : string) (v : Value) (e : Expense) : option Expense :=
  let on {A} (c : option A) (set : A -> Expense -> Expense) :=
    option_map (fun a => set a e) c in
  let opt {A} (c : option A) (set : option A -> Expense -> Expense) :=
    option_map (fun a => set (Some a) e) c in
  if (key =? "_id")%string then None
  else if (key =? "member")%string then on (castId v) set_member
  else if (key =? "event")%string then on (castId v) set_event
  else if (key =? "category")%string
    then on (castEnum Category_of_string v) set_category
  else if (key =? "amount")%string then on (castAmount v) set_amount
  else if (key =? "date")%string then on (castDate v) set_date
  else if (key =? "paymentMode")%string
    then on (castEnum PaymentMode_of_string v) set_paymentMode
  else if (key =? "description")%string
    then opt (castString (Some 500%nat) v) set_description
  else if (key =? "notes")%string
    then opt (castString (Some 1000%nat) v) set_notes
  else if (key =? "billUrl")%string then opt (castString None v) set_billUrl
  else if (key =? "billPublicId")%string
    then opt (castString None v) set_billPublicId
  else if (key =? "billOriginalName")%string
    then opt (castString None v) set_billOriginalName
  else if (key =? "status")%string
    then on (castEnum Status_of_string v) set_status
  else if (key =? "approvedBy")%string then opt (castId v) set_approvedBy
  else if (key =? "approvedAt")%string then opt (castDate v) set_approvedAt
  else if (key =? "rejectedBy")%string then opt (castId v) set_rejectedBy
  else if (key =? "rejectedAt")%string then opt (castDate v) set_rejectedAt
  else if (key =? "rejectionReason")%string
    then opt (castString None v) set_rejectionReason
  else if (key =? "reimbursedBy")%string then opt (castId v) set_reimbursedBy
  else if (key =? "reimbursedAt")%string then opt (castDate v) set_reimbursedAt
  else if (key =? "reimbursementReference")%string
    then opt (castString None v) set_reimbursementReference
  else if (key =? "rotaractYear")%string
    then on (castString None v) set_rotaractYear
  else if (key =? "isArchived")%string then on (castBoolean v) set_isArchived
  else Some e.

Fixpoint setPaths (updates : list (string * Value)) (e : Expense)
  : option Expense :=
  match updates with
  | [] => Some e
  | (key, v) :: rest =>
      match setPath key v e with
      | Some e' => setPaths rest e'
      | None => None
      end
  end.

(** [findByIdAndUpdate(id, updates, { new: true, runValidators: true })]:
    [None] when a cast or a validator throws, otherwise the new collection
    and the updated document ([null] when there is no such document). *)
Fixpoint findByIdAndUpdate (id : ObjectId) (updates : list (string * Value))
  (coll : list Expense) : option (list Expense * option Expense) :=
  match coll with
  | [] => Some ([], None)
  | e :: rest =>
      if (_id e =? id)%string then
        match setPaths updates e with
        | Some e' => Some (e' :: rest, Some e')
        | None => None
        end
      else
        match findByIdAndUpdate id updates rest with
        | Some (rest', r) => Some (e :: rest', r)
        | None => None
        end
  end.

Record UploadedFile := mkFile { filename : string; originalname : string }.

Definition allowedUpdates : list string :=
  ["category"; "amount"; "date"; "paymentMode"; "description"; "notes"].

Definition includes (l : list string) (key : string) : bool :=
  existsb (fun k => (k =? key)%string) l.

Definition updateExpense (db : Db) (id : string) (body : list (string * Value))
  (file : option UploadedFile) : Db * Response :=
  match findById (expenses db) id with
  | CastError => (db, fail 500 "Failed to update expense")
  | Missing => (db, fail 404 "Expense not found")
  | Doc expense =>
      let updates := filter (fun kv => includes allowedUpdates (fst kv)) body in
      let updates :=
        match file with
        | Some f =>
            updates
            ++ [("billUrl", VString ("/uploads/bills/" ++ filename f)%string);
                ("billOriginalName", VString (originalname f))]
        | None => updates
        end in
      match findByIdAndUpdate (_id expense) updates (expenses db) with
      | Some (coll, updatedExpense) =>
          (with_expenses db coll,
           mkResponse 200 true "Expense updated successfully" updatedExpense)
      | None => (db, fail 500 "Failed to update expense")
      end
  end.

Fixpoint deleteOne (id : ObjectId) (coll : list Expense) : list Expense :=
  match coll with
  | [] => []
  | e :: rest =>
      if (_id e =? id)%string then rest else e :: deleteOne id rest
  end.

Definition deleteExpense (db : Db) (id : string) : Db * Response :=
  match findById (expenses db) id with
  | CastError => (db, fail 500 "Failed to delete expense")
  | Missing => (db, fail 404 "Expense not found")
  | Doc expense =>
      (with_expenses db (deleteOne (_id expense) (expenses db)),
       mkResponse 200 true "Expense deleted successfully" None)
  end.

(** Reading [req.body.key], and the truthiness of what is read. *)
Definition get (body : list (string * Value)) (key : string) : option Value :=
  option_map snd (find (fun kv => (fst kv =? key)%string) body).

Definition truthy (v : option Value) : bool :=
  match v with
  | None => false
  | Some (VString s) => negb (s =? EmptyString)%string
  | Some (VNumber x) => truthyNumber x
  | Some (VBool b) => b
  | Some (VDate _) => true
  end.

(** [v || d] *)
Definition orElse (v : option Value) (d : Value) : Value :=
  match v with
  | Some x => if truthy v then x else d
  | None => d
  end.

(** [parseFloat(v)]: the argument is turned into a string, and the longest
    decimal literal at its head is read; an absent value reads as
    "undefined". *)
Definition parseFloat (v : option Value) : float :=
  match v with
  | Some (VString s) => parseFloat_of_string s
  | Some (VNumber x) => parseFloat_of_string (Number_toString x)
  | Some (VBool _) | Some (VDate _) | None => nan
  end.

Definition bind {A B : Type} (o : option A) (k : A -> option B) : option B :=
  match o with
  | Some a => k a
  | None => None
  end.

Notation "x <- o ;; k" := (bind o (fun x => k))
  (at level 61, o at next level, right associativity).

Definition required {A : Type} (cast : Value -> option A) (v : option Value)
  : option A :=
  bind v cast.

Definition optional {A : Type} (cast : Value -> option A) (v : option Value)
  : option (option A) :=
  match v with
  | None => Some None
  | Some x => option_map Some (cast x)
  end.

Definition withDefault {A : Type} (cast : Value -> option A) (d : A)
  (v : option Value) : option A :=
  match v with
  | None => Some d
  | Some x => cast x
  end.

(** [Expense.create({...})]: the casts, validators and defaults of the
    schema; [None] when the document is refused. *)
Definition Expense_create (id : ObjectId) (now : Date)
  (member event category amount date paymentMode description notes status
   billUrl billOriginalName : option Value)
  (approvedBy : option ObjectId) (approvedAt : option Date)
  (rotaractYear : string) : option Expense :=
  member <- required castId member ;;
  event <- required castId event ;;
  category <- required (castEnum Category_of_string) category ;;
  amount <- required castAmount amount ;;
  date <- withDefault castDate now date ;;
  paymentMode <- required (castEnum PaymentMode_of_string) paymentMode ;;
  description <- optional (castString (Some 500%nat)) description ;;
  notes <- optional (castString (Some 1000%nat)) notes ;;
  status <- withDefault (castEnum Status_of_string) pending status ;;
  billUrl <- optional (castString None) billUrl ;;
  billOriginalName <- optional (castString None) billOriginalName ;;
  if (rotaractYear =? EmptyString)%string then None
  else
    Some (mkExpense id member event category amount date paymentMode
            description notes billUrl None billOriginalName status
            approvedBy approvedAt None None None None None None
            rotaractYear false).

Definition billUrlOf (file : option UploadedFile) : option Value :=
  option_map (fun f => VString ("/uploads/bills/" ++ filename f)%string) file.

Definition billNameOf (file : option UploadedFile) : option Value :=
  option_map (fun f => VString (originalname f)) file.

Definition Event_findById (coll : list Event.t) (v : option Value)
  : Found Event.t :=
  match v with
  | None => Missing                     (* [findById(undefined)] is null *)
  | Some x =>
      match castId x with
      | None => CastError
      | Some oid =>
          match find (fun d => (Event._id d =? oid)%string) coll with
          | Some d => Doc d
          | None => Missing
          end
      end
  end.

Definition User_findById (coll : list User.t) (v : option Value)
  : Found User.t :=
  match v with
  | None => Missing                     (* [findById(undefined)] is null *)
  | Some x =>
      match castId x with
      | None => CastError
      | Some oid =>
          match find (fun d => (User._id d =? oid)%string) coll with
          | Some d => Doc d
          | None => Missing
          end
      end
  end.

(** POST /api/expenses. [user] is [req.user._id], [newId] the identifier of
    the new document, [now] the clock. *)
Definition createExpense (db : Db) (user : ObjectId) (newId : ObjectId)
  (now : Date) (body : list (string * Value)) (file : option UploadedFile)
  : Db * Response :=
  match Event_findById (events db) (get body "event") with
  | CastError => (db, fail 500 "Failed to submit expense")
  | Missing => (db, fail 404 "Event not found")
  | Doc eventDoc =>
      match Expense_create newId now
              (Some (VString user)) (get body "event") (get body "category")
              (get body "amount") (get body "date") (get body "paymentMode")
              (get body "description") (get body "notes") None
              (billUrlOf file) (billNameOf file)
              None None (getFinancialYear now) with
      | Some expense =>
          (with_expenses db (expenses db ++ [expense]),
           ok 201 "Expense submitted successfully" expense)
      | None => (db, fail 500 "Failed to submit expense")
      end
  end.

(** [mongoose.Types.ObjectId.isValid(v)]: whether an ObjectId can be made
    of [v]: of a string of 24 hexadecimal digits, and of any number (which
    is taken as a time stamp). *)
Definition isValid (v : option Value) : bool :=
  match v with
  | Some (VString s) => isValidObjectId s
  | Some (VNumber _) => true
  | _ => false
  end.

(** POST /api/expenses/manual *)
Definition addManualExpense (db : Db) (user : ObjectId) (newId : ObjectId)
  (now : Date) (body : list (string * Value)) (file : option UploadedFile)
  : Db * Response :=
  let member := get body "member" in
  let event := get body "event" in
  let category := get body "category" in
  let amount := parseFloat (get body "amount") in
  let date := get body "date" in
  let paymentMode := get body "paymentMode" in
  let description := orElse (get body "description") (VString EmptyString) in
  let notes := orElse (get body "notes") (VString EmptyString) in
  let status := orElse (get body "status") (VString "approved") in
  if negb (truthy member) || negb (truthy event) || negb (truthy category)
     || negb (truthyNumber amount) || negb (truthy date)
     || negb (truthy paymentMode)
  then (db, fail 400 "Missing required fields: member, event, category, amount, date, and paymentMode are required")
  else if negb (isValid member)
  then (db, fail 400 "Invalid member ID format")
  else if negb (isValid event)
  then (db, fail 400 "Invalid event ID format")
  else
    match User_findById (users db) member, Event_findById (events db) event
    with
    | CastError, _ | _, CastError =>
        (db, fail 500 "Failed to add manual expense")
    | Missing, _ => (db, fail 404 "Member not found")
    | _, Missing => (db, fail 404 "Event not found")
    | Doc memberDoc, Doc eventDoc =>
        match Expense_create newId now
                member event category (Some (VNumber amount)) date
                paymentMode (Some description) (Some notes) (Some status)
                (billUrlOf file) (billNameOf file)
                (Some user) (Some now) (getFinancialYear now) with
        | Some expense =>
            (with_expenses db (expenses db ++ [expense]),
             ok 201 "Manual expense added successfully" expense)
        | None => (db, fail 500 "Failed to add manual expense")
        end
    end.

(** ** Closing a year (archive controller) *)

(** [Expense.updateMany({ rotaractYear: year }, { isArchived: true })] *)
Definition archiveExpenses (year : string) (coll : list Expense)
  : list Expense :=
  map (fun e => if (rotaractYear e =? year)%string
                then set_isArchived true e else e) coll.

(** POST /api/archive/close-year, as far as the expense collection and the
    archive status of the year are concerned. *)
Definition closeYear (db : Db) (now : Date) : Db * Response :=
  let currentYear := getFinancialYear now in
  if includes (archivedYears db) currentYear
  then (db, fail 400 "This year has already been archived")
  else
    (mkDb (archiveExpenses currentYear (expenses db)) (events db) (users db)
       (currentYear :: archivedYears db),
     mkResponse 200 true
       ("Year " ++ currentYear ++ " has been closed and archived")%string
       None).

(** ** Requests to the transition handlers, and their interleaving *)

Inductive Request :=
  | ApproveReq (user : ObjectId) (now : Date) (id : string)
  | RejectReq (user : ObjectId) (now : Date) (id : string)
      (reason : option string)
  | ReimburseReq (user : ObjectId) (now : Date) (id : string)
      (reference : option string).

Definition read (db : Db) (q : Request) : Await :=
  match q with
  | ApproveReq user now id => approve_read db user now id
  | RejectReq user now id reason => reject_read db user now id reason
  | ReimburseReq user now id reference =>
      reimburse_read db user now id reference
  end.

Definition handle (db : Db) (q : Request) : Db * Response :=
  match q with
  | ApproveReq user now id => approveExpense db user now id
  | RejectReq user now id reason => rejectExpense db user now id reason
  | ReimburseReq user now id reference =>
      reimburseExpense db user now id reference
  end.

Definition okMessage (q : Request) : string :=
  match q with
  | ApproveReq _ _ _ => "Expense approved successfully"
  | RejectReq _ _ _ _ => "Expense rejected"
  | ReimburseReq _ _ _ _ => "Expense marked as reimbursed"
  end.

Definition errMessage (q : Request) : string :=
  match q with
  | ApproveReq _ _ _ => "Failed to approve expense"
  | RejectReq _ _ _ _ => "Failed to reject expense"
  | ReimburseReq _ _ _ _ => "Failed to reimburse expense"
  end.




(** ** Aggregation pipelines (report controller) *)

Module Rollup.
Record t (K : Type) := mk
  { _id : K;
    total : float;
    count : Z }.
Arguments mk {K} _ _ _.
Arguments _id {K} _.
Arguments total {K} _.
Arguments count {K} _.
End Rollup.

Module MonthKey.
Record t := mk
  { month : Z;
    year : Z }.
Definition eqb (a b : t) : bool :=
  (month a =? month b) && (year a =? year b).
End MonthKey.

(** [$group]: the documents are split by key, in the order in which the keys
    first occur; the accumulators are then computed on each bucket. *)
Fixpoint addToBucket {K : Type} (eqb : K -> K -> bool) (k : K) (e : Expense)
  (acc : list (K * list Expense)) : list (K * list Expense) :=
  match acc with
  | [] => [(k, [e])]
  | (k', es) :: rest =>
      if eqb k' k then (k', es ++ [e]) :: rest
      else (k', es) :: addToBucket eqb k e rest
  end.

Definition buckets {K : Type} (eqb : K -> K -> bool) (key : Expense -> K)
  (docs : list Expense) : list (K * list Expense) :=
  fold_left (fun acc e => addToBucket eqb (key e) e acc) docs [].

(** [{ $sum: "$amount" }] and [{ $sum: 1 }] on a bucket; [sum] is the
    accumulator of the store, applied to the values in document order. *)
Definition rollup {K : Type} (sum : list float -> float)
  (b : K * list Expense) : Rollup.t K :=
  Rollup.mk (fst b) (sum (map amount (snd b)))
    (Z.of_nat (List.length (snd b))).

(** The accumulator that adds the values one after the other. *)
Definition plainSum (values : list float) : float :=
  fold_left PrimFloat.add values zero.

(** [$sort]: a stable insertion sort; [before x y] says that [x] may stand
    before [y]. *)
Fixpoint insertSorted {A : Type} (before : A -> A -> bool) (x : A)
  (l : list A) : list A :=
  match l with
  | [] => [x]
  | y :: rest =>
      if before x y then x :: y :: rest
      else y :: insertSorted before x rest
  end.

Definition sortBy {A : Type} (before : A -> A -> bool) (l : list A) : list A :=
  fold_right (insertSorted before) [] l.

(** [{ $sort: { total: -1 } }] *)
Definition totalDesc {K : Type} (a b : Rollup.t K) : bool :=
  numberLe (Rollup.total b) (Rollup.total a).

(** [{ $sort: { "_id.year": 1, "_id.month": 1 } }] *)
Definition chronological (a b : Rollup.t MonthKey.t) : bool :=
  let ka := Rollup._id a in
  let kb := Rollup._id b in
  (MonthKey.year ka <? MonthKey.year kb)
  || ((MonthKey.year ka =? MonthKey.year kb)
      && (MonthKey.month ka <=? MonthKey.month kb)).

(** [$lookup] into a collection by [_id] followed by [$unwind]: one output
    per matching document, none when there is no match. *)
Definition lookupUnwind {G D : Type} (idOf : G -> ObjectId)
  (docId : D -> ObjectId) (coll : list D) (groups : list G) : list (G * D) :=
  flat_map
    (fun g =>
       map (fun d => (g, d))
         (filter (fun d => (docId d =? idOf g)%string) coll))
    groups.

Definition contributing (s : Status) : bool :=
  existsb (Status_eqb s) [approved; reimbursed; paid].

Module Totals.
Record t := mk
  { totalExpenses : float;
    totalApproved : float;
    totalPending : float;
    totalRejected : float;
    totalReimbursed : float }.
End Totals.

Module Summary.
Record t := mk
  { rotaractYear : string;
    totals : Totals.t;
    expensesByCategory : list (Rollup.t Category);
    expensesByStatus : list (Rollup.t Status);
    expensesByMonth : list (Rollup.t MonthKey.t);
    expensesByEvent : list (Rollup.t ObjectId * Event.t);
    topContributors : list (Rollup.t ObjectId * User.t) }.
End Summary.

Module Leader.
Record group := mkGroup
  { g_id : ObjectId;
    g_totalContribution : float;
    g_expenseCount : Z;
    g_eventsContributed : list ObjectId }.
Record t := mk
  { rank : Z;
    _id : ObjectId;
    totalContribution : float;
    expenseCount : Z;
    eventsCount : Z;
    member : User.t }.
End Leader.

(** [{ $addToSet: "$event" }] *)
Fixpoint addToSet (x : ObjectId) (s : list ObjectId) : list ObjectId :=
  match s with
  | [] => [x]
  | y :: rest => if (y =? x)%string then s else y :: addToSet x rest
  end.

Definition leaderGroup (sum : list float -> float)
  (b : ObjectId * list Expense) : Leader.group :=
  Leader.mkGroup (fst b) (sum (map amount (snd b)))
    (Z.of_nat (List.length (snd b)))
    (fold_left (fun s e => addToSet (event e) s) (snd b) []).

Definition leaderDesc (a b : Leader.group) : bool :=
  numberLe (Leader.g_totalContribution b) (Leader.g_totalContribution a).

(** [array.map((item, index) => ...)] *)
Fixpoint mapi {A B : Type} (f : A -> Z -> B) (index : Z) (l : list A)
  : list B :=
  match l with
  | [] => []
  | x :: rest => f x index :: mapi f (index + 1) rest
  end.

(** [rotaractYear || getFinancialYear()] on a query parameter *)
Definition yearOf (rotaractYear : option string) (now : Date) : string :=
  match rotaractYear with
  | Some y => if (y =? EmptyString)%string then getFinancialYear now else y
  | None => getFinancialYear now
  end.

Section Pipelines.

(** The order in which [$group] emits its groups is not specified by the
    store; [arrange] is the order the store chooses.  [accumulate] is its
    [$sum] accumulator on the numbers of a group, taken in document order. *)
Variable arrange : forall A : Type, list A -> list A.
Variable accumulate : list float -> float.

Definition matchYear (year : string) (docs : list Expense) : list Expense :=
  filter (fun e => (rotaractYear e =? year)%string) docs.

Definition byCategory (year : string) (docs : list Expense)
  : list (Rollup.t Category) :=
  sortBy totalDesc
    (arrange _ (map (rollup accumulate) (buckets Category_eqb category
                              (matchYear year docs)))).

Definition byStatus (year : string) (docs : list Expense)
  : list (Rollup.t Status) :=
  arrange _ (map (rollup accumulate)
               (buckets Status_eqb status (matchYear year docs))).

Definition monthKey (e : Expense) : MonthKey.t :=
  MonthKey.mk (monthOfYear (date e)) (fullYear (date e)).

Definition byMonth (year : string) (docs : list Expense)
  : list (Rollup.t MonthKey.t) :=
  sortBy chronological
    (arrange _ (map (rollup accumulate) (buckets MonthKey.eqb monthKey
                              (matchYear year docs)))).

Definition byEvent (year : string) (db : Db)
  : list (Rollup.t ObjectId * Event.t) :=
  lookupUnwind Rollup._id Event._id (events db)
    (firstn 10
       (sortBy totalDesc
          (arrange _ (map (rollup accumulate) (buckets String.eqb event
                                    (matchYear year (expenses db))))))).

Definition matchContributing (year : string) (docs : list Expense)
  : list Expense :=
  filter (fun e => (rotaractYear e =? year)%string && contributing (status e))
    docs.

Definition topContributors (year : string) (db : Db)
  : list (Rollup.t ObjectId * User.t) :=
  lookupUnwind Rollup._id User._id (users db)
    (firstn 10
       (sortBy totalDesc
          (arrange _ (map (rollup accumulate) (buckets String.eqb member
                                    (matchContributing year
                                       (expenses db))))))).

(** [expensesByStatus.find((s) => s._id === name)?.total || 0] *)
Definition totalOf (s : Status) (expensesByStatus : list (Rollup.t Status))
  : float :=
  match find (fun g => Status_eqb (Rollup._id g) s) expensesByStatus with
  | Some g => orZero (Rollup.total g)
  | None => zero
  end.

(** GET /api/reports/financial-summary *)
Definition getFinancialSummary (db : Db) (now : Date)
  (rotaractYear : option string) : Summary.t :=
  let year := yearOf rotaractYear now in
  let expensesByStatus := byStatus year (expenses db) in
  let totals :=
    Totals.mk
      (fold_left (fun sum item => (sum + Rollup.total item)%float)
         expensesByStatus zero)
      (totalOf approved expensesByStatus)
      (totalOf pending expensesByStatus)
      (totalOf rejected expensesByStatus)
      (totalOf reimbursed expensesByStatus) in
  Summary.mk year totals
    (byCategory year (expenses db))
    expensesByStatus
    (byMonth year (expenses db))
    (byEvent year db)
    (topContributors year db).

(** GET /api/reports/leaderboard *)
Definition getLeaderboard (db : Db) (now : Date)
  (rotaractYear : option string) : list Leader.t :=
  let year := yearOf rotaractYear now in
  let leaderboard :=
    lookupUnwind Leader.g_id User._id (users db)
      (firstn 20
         (sortBy leaderDesc
            (arrange _ (map (leaderGroup accumulate)
                          (buckets String.eqb member
                             (matchContributing year (expenses db))))))) in
  mapi (fun item index =>
          let g := fst item in
          Leader.mk (index + 1) (Leader.g_id g)
            (Leader.g_totalContribution g) (Leader.g_expenseCount g)
            (Z.of_nat (List.length (Leader.g_eventsContributed g)))
            (snd item))
    0 leaderboard.

End Pipelines.


(** ** What the statements below speak about *)

Definition target (q : Request) : string :=
  match q with
  | ApproveReq _ _ id => id
  | RejectReq _ _ id _ => id
  | ReimburseReq _ _ id _ => id
  end.

(** The status a transition requires and the status it installs. *)
Definition requiredStatus (q : Request) : Status :=
  match q with
  | ApproveReq _ _ _ => pending
  | RejectReq _ _ _ _ => pending
  | ReimburseReq _ _ _ _ => approved
  end.

Definition installedStatus (q : Request) : Status :=
  match q with
  | ApproveReq _ _ _ => approved
  | RejectReq _ _ _ _ => rejected
  | ReimburseReq _ _ _ _ => reimbursed
  end.

(** The references a handler reads after its save: the member and the event
    for approve and reject, none for reimburse. *)
Definition referencesResolved (db : Db) (q : Request) (e : Expense) : bool :=
  match q with
  | ReimburseReq _ _ _ _ => true
  | _ => populated db e
  end.


(** A reject request must come with a reason; the others need none. *)
Definition reasonGiven (q : Request) : bool :=
  match q with
  | RejectReq _ _ _ reason => negb (falsy reason)
  | _ => true
  end.


Definition endsWith (s suffix : string) : bool :=
  let n := String.length s in
  let k := String.length suffix in
  (k <=? n)%nat && (substring (n - k) k s =? suffix)%string.

(** The answer names the status [s]: its message ends with the name. *)
Definition carriesStatus (r : Response) (s : Status) : bool :=
  endsWith (message r) (Status_name s).

(** A list is ordered by [before] when every element may stand before all
    the later ones. *)
Definition ordered {A : Type} (before : A -> A -> bool) (x y : A) : Prop :=
  before x y = true.

Fixpoint orderedb {A : Type} (before : A -> A -> bool) (l : list A) : bool :=
  match l with
  | [] => true
  | x :: rest => forallb (before x) rest && orderedb before rest
  end.

(** The order the report contract asks for: total descending, ties by the
    name of the group key ascending. *)
Definition totalDescThenKey {K : Type} (name : K -> string)
  (a b : Rollup.t K) : bool :=
  (Rollup.total b <? Rollup.total a)%float
  || ((Rollup.total a =? Rollup.total b)%float
      && String.leb (name (Rollup._id a)) (name (Rollup._id b))).

Definition sumZ (l : list Z) : Z := fold_right Z.add 0 l.

(** The store emitting the groups in the order of first occurrence, and in
    the opposite order. *)
Definition firstSeen : forall A : Type, list A -> list A := fun _ l => l.
Definition lastSeen : forall A : Type, list A -> list A := fun _ l => rev l.

(** [groups] is the rollup of [records] by [key]: one group for each key
    that occurs among the records, and no other; its total is what the
    accumulator makes of the amounts of the records with that key, taken in
    the order of the records, and its count is their number. *)
Definition isRollupOf {K : Type} (sum : list float -> float)
  (eqb : K -> K -> bool) (key : Expense -> K) (records : list Expense)
  (groups : list (Rollup.t K)) : Prop :=
  NoDup (map Rollup._id groups)
  /\ (forall k, In k (map Rollup._id groups)
                <-> exists e, In e records /\ key e = k)
  /\ (forall g, In g groups ->
        let same := filter (fun e => eqb (key e) (Rollup._id g)) records in
        Rollup.total g = sum (map amount same)
        /\ Rollup.count g = Z.of_nat (List.length same)).

(** A field of the group of status [s] in a status rollup, [d] when the
    rollup has no such group. *)
Definition ofStatus {A : Type} (f : Rollup.t Status -> A) (d : A)
  (s : Status) (groups : list (Rollup.t Status)) : A :=
  match find (fun g => Status_eqb (Rollup._id g) s) groups with
  | Some g => f g
  | None => d
  end.

(** What the accumulator makes of the amounts of the records with status
    [s], taken in their order; 0 when there is no such record. *)
Definition amountIn (sum : list float -> float) (s : Status)
  (records : list Expense) : float :=
  match filter (fun e => Status_eqb (status e) s) records with
  | [] => zero
  | es => sum (map amount es)
  end.

(** The key of a group is the identifier of a document of the collection. *)
Definition refersTo {G D : Type} (idOf : G -> ObjectId)
  (docId : D -> ObjectId) (coll : list D) (g : G) : bool :=
  existsb (fun d => (docId d =? idOf g)%string) coll.

(** The member-grouped rollup of the contributing expenses of a year. *)
Definition memberRollups (sum : list float -> float) (year : string)
  (docs : list Expense) : list (Rollup.t ObjectId) :=
  map (rollup sum) (buckets String.eqb member (matchContributing year docs)).

(** The rollup part of a leaderboard entry. *)
Definition entryRollup (l : Leader.t) : Rollup.t ObjectId :=
  Rollup.mk (Leader._id l) (Leader.totalContribution l)
    (Leader.expenseCount l).

Definition byTotalDesc {K : Type} (a b : Rollup.t K) : Prop :=
  numberLe (Rollup.total b) (Rollup.total a) = true.

Definition byYearMonth (a b : Rollup.t MonthKey.t) : Prop :=
  MonthKey.year (Rollup._id a) < MonthKey.year (Rollup._id b)
  \/ (MonthKey.year (Rollup._id a) = MonthKey.year (Rollup._id b)
      /\ MonthKey.month (Rollup._id a) <= MonthKey.month (Rollup._id b)).

(** [ranking] lists the rollups [all] by total, largest first. *)
Definition isRanking {K : Type} (ranking all : list (Rollup.t K)) : Prop :=
  Permutation ranking all /\ StronglySorted byTotalDesc ranking.

(** Every operation of the back end that writes to the expense collection. *)
Inductive Op :=
  | OpCreate (user newId : ObjectId) (now : Date)
      (body : list (string * Value)) (file : option UploadedFile)
  | OpManual (user newId : ObjectId) (now : Date)
      (body : list (string * Value)) (file : option UploadedFile)
  | OpUpdate (id : string) (body : list (string * Value))
      (file : option UploadedFile)
  | OpTransition (q : Request)
  | OpDelete (id : string)
  | OpCloseYear (now : Date).

Definition perform (db : Db) (op : Op) : Db * Response :=
  match op with
  | OpCreate user newId now body file =>
      createExpense db user newId now body file
  | OpManual user newId now body file =>
      addManualExpense db user newId now body file
  | OpUpdate id body file => updateExpense db id body file
  | OpTransition q => handle db q
  | OpDelete id => deleteExpense db id
  | OpCloseYear now => closeYear db now
  end.

(** The paths of an expense that [updateExpense] is not meant to touch. *)
Definition fixedPart (e : Expense) :=
  (_id e, member e, event e, billPublicId e, status e,
   (approvedBy e, approvedAt e),
   (rejectedBy e, rejectedAt e, rejectionReason e),
   (reimbursedBy e, reimbursedAt e, reimbursementReference e),
   rotaractYear e, isArchived e).

(** The paths [updateExpense] hands to the store. *)
Definition editable : list string :=
  allowedUpdates ++ ["billUrl"; "billOriginalName"].

(** Two documents that differ at most in the archived flag. *)
Definition sameButArchived (e e' : Expense) : Prop :=
  e' = set_isArchived (isArchived e') e.

(** Where a document found in the collection after an operation comes
    from: it was there and is untouched, or it was there and the operation
    rewrote it, or the operation created it. *)
Inductive Origin (db : Db) (op : Op) (e' : Expense) : Prop :=
  | Kept :
      In e' (expenses db) -> Origin db op e'
  | Edited (e : Expense) (id : string) (body : list (string * Value))
      (file : option UploadedFile) :
      In e (expenses db) -> op = OpUpdate id body file ->
      fixedPart e' = fixedPart e -> Origin db op e'
  | Archived (e : Expense) (now : Date) :
      In e (expenses db) -> op = OpCloseYear now ->
      rotaractYear e = getFinancialYear now ->
      e' = set_isArchived true e -> Origin db op e'
  | Moved (e : Expense) (q : Request) (m : Modified) :
      In e (expenses db) -> op = OpTransition q ->
      e' = applyModified m e -> Origin db op e'
  | Submitted (user newId : ObjectId) (now : Date)
      (body : list (string * Value)) (file : option UploadedFile) :
      op = OpCreate user newId now body file ->
      _id e' = newId -> status e' = pending ->
      rotaractYear e' = getFinancialYear now -> Origin db op e'
  | Entered (user newId : ObjectId) (now : Date)
      (body : list (string * Value)) (file : option UploadedFile) :
      op = OpManual user newId now body file ->
      _id e' = newId ->
      castEnum Status_of_string
        (orElse (get body "status") (VString "approved"))
      = Some (status e') ->
      rotaractYear e' = getFinancialYear now -> Origin db op e'.

(** ** Sample data *)

Definition noon : Date := mkDate 2025 8 15 43200000.
Definition later : Date := mkDate 2025 8 16 3600000.

Definition expenseA : ObjectId := "aaaaaaaaaaaaaaaaaaaaaaa1".
Definition expenseB : ObjectId := "aaaaaaaaaaaaaaaaaaaaaaa2".
Definition expenseC : ObjectId := "aaaaaaaaaaaaaaaaaaaaaaa3".
Definition alice : ObjectId := "bbbbbbbbbbbbbbbbbbbbbbb1".
Definition bob : ObjectId := "bbbbbbbbbbbbbbbbbbbbbbb2".
Definition gala : ObjectId := "eeeeeeeeeeeeeeeeeeeeeee1".

Definition sampleExpense (id member : ObjectId) (c : Category) (a : float)
  (s : Status) : Expense :=
  mkExpense id member gala c a noon upi None None None None None s
    None None None None None None None None "2025-2026" false.

Definition sampleDb (docs : list Expense) : Db :=
  mkDb docs [Event.mk gala "Gala" 10000]
    [User.mk alice "Alice" "A" "alice@club.org";
     User.mk bob "Bob" "B" "bob@club.org"] [].

Definition oneExpense (s : Status) : Db :=
  sampleDb [sampleExpense expenseA alice travel_expense 1500 s].

(** The body of a manual entry, with or without a status. *)
Definition manualBody (status : list (string * Value))
  : list (string * Value) :=
  [("member", VString bob); ("event", VString gala);
   ("category", VString "food_refreshments"); ("amount", VString "800");
   ("date", VDate noon); ("paymentMode", VString "cash")] ++ status.

(** ** Helpers (utils/helpers.js) *)

From Stdlib Require QArith Qround DecimalZ DecimalPos.

(** The calendar year in which the Rotaract year of a date starts. *)
Definition rotaractYearStart (d : Date) : Z :=
  if 7 <=? monthOfYear d then fullYear d else fullYear d - 1.

Module Paging.
Record t := mk
  { skip : option Z;
    limit : option Z;
    page : option Z }.
End Paging.

(** [Math.max(a, b)] and [Math.min(a, b)] when [b] may be NaN ([None]). *)
Definition mathMax (a : Z) (b : option Z) : option Z := option_map (Z.max a) b.
Definition mathMin (a : Z) (b : option Z) : option Z := option_map (Z.min a) b.

Section Paginate.

(** [Number.parseInt] on a query string; [None] is NaN. *)
Variable parseInt : string -> option Z.

(** [paginate(page = 1, limit = 10)]: an absent argument takes its default. *)
Definition paginate (page limit : option string) : Paging.t :=
  let page := match page with Some s => parseInt s | None => Some 1 end in
  let limit := match limit with Some s => parseInt s | None => Some 10 end in
  let pageNum := mathMax 1 page in
  let limitNum := mathMin 100 (mathMax 1 limit) in
  let skip :=
    match pageNum, limitNum with
    | Some p, Some l => Some ((p - 1) * l)
    | _, _ => None
    end in
  Paging.mk skip limitNum pageNum.

End Paginate.

Module Pagination.
Record t := mk
  { total : Z;
    page : Z;
    limit : Z;
    totalPages : Z;
    hasNextPage : bool;
    hasPrevPage : bool }.
End Pagination.

(** [paginationResponse(total, page, limit)]; the quotient of
    [Math.ceil(total / limit)] is taken exactly. *)
Definition paginationResponse (total page limit : Z) : Pagination.t :=
  Pagination.mk total page limit
    (Qround.Qceiling
       (QArith_base.Qdiv (QArith_base.inject_Z total)
          (QArith_base.inject_Z limit)))
    (page * limit <? total)
    (1 <? page).

(** [.skip(s).limit(n)] on the list of the matching documents. *)
Definition skipLimit {A : Type} (s n : Z) (matched : list A) : list A :=
  firstn (Z.to_nat n) (skipn (Z.to_nat s) matched).

(** The page of a listing handler ([getAllExpenses], [getMyExpenses]): the
    slice of the sorted matches and the pagination block, [total] being
    [countDocuments] of the same query. *)
Definition listPage {A : Type} (matched : list A) (page limit : Z)
  : list A * Pagination.t :=
  (skipLimit ((page - 1) * limit) limit matched,
   paginationResponse (Z.of_nat (List.length matched)) page limit).

(** [sanitizeFilename]: the characters outside [a-zA-Z0-9.-] become "_",
    runs of two or more "_" become one, and the result is lower-cased. *)
Definition isFilenameChar (c : ascii) : bool :=
  let n := nat_of_ascii c in
  ((48 <=? n) && (n <=? 57))%nat       (* 0-9 *)
  || ((65 <=? n) && (n <=? 90))%nat    (* A-Z *)
  || ((97 <=? n) && (n <=? 122))%nat   (* a-z *)
  || (n =? 46)%nat || (n =? 45)%nat.   (* . - *)

Definition underscore : ascii := "_"%char.

Definition replaceOther (l : list ascii) : list ascii :=
  map (fun c => if isFilenameChar c then c else underscore) l.

Fixpoint collapseUnderscores (l : list ascii) : list ascii :=
  match l with
  | [] => []
  | c :: rest =>
      match rest with
      | c' :: _ =>
          if (c =? underscore)%char && (c' =? underscore)%char
          then collapseUnderscores rest
          else c :: collapseUnderscores rest
      | [] => [c]
      end
  end.

Definition toLowerCase (c : ascii) : ascii :=
  let n := nat_of_ascii c in
  if ((65 <=? n) && (n <=? 90))%nat then ascii_of_nat (n + 32) else c.

Definition sanitizeFilename (filename : string) : string :=
  string_of_list_ascii
    (map toLowerCase
       (collapseUnderscores (replaceOther (list_ascii_of_string filename)))).

(** What a sanitized file name is made of. *)
Definition isSanitizedChar (c : ascii) : bool :=
  let n := nat_of_ascii c in
  ((48 <=? n) && (n <=? 57))%nat || ((97 <=? n) && (n <=? 122))%nat
  || (n =? 46)%nat || (n =? 45)%nat || (n =? 95)%nat.

Fixpoint noDoubleUnderscore (l : list ascii) : bool :=
  match l with
  | [] => true
  | c :: rest =>
      match rest with
      | c' :: _ =>
          negb ((c =? underscore)%char && (c' =? underscore)%char)
          && noDoubleUnderscore rest
      | [] => true
      end
  end.

(** A case analysis over the 256 characters. *)
Ltac each_ascii c :=
  destruct c as [[] [] [] [] [] [] [] []]; vm_compute;
  repeat split; try reflexivity; try discriminate; try (intros; discriminate).

(** ** Reading one expense, deleting members and events *)

(** GET /api/expenses/:id. [user] and [isAdmin] are [req.user._id] and
    [req.user.isAdmin]; the member is populated before the check, so for a
    caller who is not an admin a dangling member reference makes the check
    throw. *)
Definition getExpenseById (db : Db) (user : ObjectId) (isAdmin : bool)
  (id : string) : Response :=
  match findById (expenses db) id with
  | CastError => fail 500 "Failed to get expense"
  | Missing => fail 404 "Expense not found"
  | Doc expense =>
      if negb isAdmin then
        match find (fun u => (User._id u =? member expense)%string)
                (users db) with
        | None => fail 500 "Failed to get expense"
        | Some populated =>
            if negb (User._id populated =? user)%string
            then fail 403 "Not authorized to view this expense"
            else mkResponse 200 true EmptyString (Some expense)
        end
      else mkResponse 200 true EmptyString (Some expense)
  end.

(** GET /api/members/expenses/:id (member controller):
    [Expense.findOne({ _id, member: req.user._id })]. *)
Definition getExpense (db : Db) (user : ObjectId) (id : string) : Response :=
  match castObjectId id with
  | None => fail 500 "Failed to get expense"
  | Some oid =>
      match find (fun e => (_id e =? oid)%string && (member e =? user)%string)
              (expenses db) with
      | Some expense => mkResponse 200 true EmptyString (Some expense)
      | None => fail 404 "Expense not found"
      end
  end.

(** [countDocuments] of a filter. *)
Definition countDocuments {A : Type} (f : A -> bool) (coll : list A) : Z :=
  Z.of_nat (List.length (filter f coll)).

Fixpoint removeFirst {A : Type} (f : A -> bool) (coll : list A) : list A :=
  match coll with
  | [] => []
  | x :: rest => if f x then rest else x :: removeFirst f rest
  end.

(** DELETE /api/admin/members/:id (admin controller) *)
Definition deleteMember (db : Db) (id : string) : Db * Response :=
  match User_findById (users db) (Some (VString id)) with
  | CastError => (db, fail 500 "Failed to delete member")
  | Missing => (db, fail 404 "Member not found")
  | Doc member_ =>
      let expenseCount :=
        countDocuments (fun e => (member e =? User._id member_)%string)
          (expenses db) in
      if 0 <? expenseCount
      then (db, fail 400 ("Cannot delete member with "
                          ++ string_of_Z expenseCount
                          ++ " associated expenses. Consider marking as inactive instead.")%string)
      else
        (mkDb (expenses db) (events db)
           (removeFirst (fun u => (User._id u =? User._id member_)%string)
              (users db))
           (archivedYears db),
         mkResponse 200 true "Member deleted successfully" None)
  end.

(** DELETE /api/events/:id (event controller) *)
Definition deleteEvent (db : Db) (id : string) : Db * Response :=
  match Event_findById (events db) (Some (VString id)) with
  | CastError => (db, fail 500 "Failed to delete event")
  | Missing => (db, fail 404 "Event not found")
  | Doc event_ =>
      let expenseCount :=
        countDocuments (fun e => (event e =? Event._id event_)%string)
          (expenses db) in
      if 0 <? expenseCount
      then (db, fail 400 ("Cannot delete event with "
                          ++ string_of_Z expenseCount
                          ++ " associated expenses")%string)
      else
        (mkDb (expenses db)
           (removeFirst (fun d => (Event._id d =? Event._id event_)%string)
              (events db))
           (users db) (archivedYears db),
         mkResponse 200 true "Event deleted successfully" None)
  end.



(** Every expense refers to an existing member and an existing event. *)
Definition referencesExist (db : Db) : Prop :=
  forall e, In e (expenses db) ->
            In (member e) (map User._id (users db))
            /\ In (event e) (map Event._id (events db)).


(** The identifier given to a new document is not in use. *)
Definition freshId (db : Db) (op : Op) : Prop :=
  match op with
  | OpCreate _ newId _ _ _ | OpManual _ newId _ _ _ =>
      ~ In newId (map _id (expenses db))
  | _ => True
  end.

(** The paths of an approval, a rejection and a reimbursement are set
    together. *)
Definition stampsPaired (e : Expense) : Prop :=
  (approvedBy e = None <-> approvedAt e = None)
  /\ (rejectedBy e = None <-> rejectedAt e = None)
  /\ (rejectedBy e = None <-> rejectionReason e = None)
  /\ (reimbursedBy e = None <-> reimbursedAt e = None)
  /\ (reimbursedBy e = None -> reimbursementReference e = None).

(** The [Modified] paths a request assigns. *)
Definition assigned (q : Request) : Modified :=
  match q with
  | ApproveReq user now _ => Approved user now
  | RejectReq user now _ reason =>
      Rejected user now (match reason with Some s => s | None => EmptyString end)
  | ReimburseReq user now _ reference => Reimbursed user now reference
  end.

(** ** Further reports *)

(** [{ $sum: { $cond: [cond, "$amount", 0] } }] *)
Definition sumIf (sum : list float -> float) (cond : Expense -> bool)
  (es : list Expense) : float :=
  sum (map (fun e => if cond e then amount e else zero) es).

Module MemberRow.
Record t := mk
  { _id : ObjectId;
    totalAmount : float;
    expenseCount : Z;
    approvedAmount : float;
    pendingAmount : float;
    rejectedAmount : float }.
End MemberRow.

Definition memberRow (sum : list float -> float)
  (b : ObjectId * list Expense) : MemberRow.t :=
  MemberRow.mk (fst b) (sum (map amount (snd b)))
    (Z.of_nat (List.length (snd b)))
    (sumIf sum (fun e => contributing (status e)) (snd b))
    (sumIf sum (fun e => Status_eqb (status e) pending) (snd b))
    (sumIf sum (fun e => Status_eqb (status e) rejected) (snd b)).

(** [{ $sort: { totalAmount: -1 } }] *)
Definition rowDesc (a b : MemberRow.t) : bool :=
  numberLe (MemberRow.totalAmount b) (MemberRow.totalAmount a).

(** The four figures of the admin dashboard that come from the expenses. *)
Module Spending.
Record t := mk
  { totalSpending : float;
    totalContributions : float;
    pendingReimbursements : float;
    pendingCount : Z }.
End Spending.

(** The body of [expensesSummary.forEach] in the admin dashboard. *)
Definition addToSpending (summary : Spending.t) (item : Rollup.t Status)
  : Spending.t :=
  let totalSpending :=
    (Spending.totalSpending summary + Rollup.total item)%float in
  let isPending := Status_eqb (Rollup._id item) pending in
  let pendingReimbursements :=
    if isPending then Rollup.total item
    else Spending.pendingReimbursements summary in
  let pendingCount :=
    if isPending then Rollup.count item else Spending.pendingCount summary in
  let totalContributions :=
    if contributing (Rollup._id item)
    then (Spending.totalContributions summary + Rollup.total item)%float
    else Spending.totalContributions summary in
  Spending.mk totalSpending totalContributions pendingReimbursements
    pendingCount.

(** The summary of the member dashboard. *)
Module Mine.
Record t := mk
  { totalContribution : float;
    pendingReimbursements : float;
    approvedExpenses : float;
    rejectedExpenses : float;
    paidExpenses : float }.
End Mine.

(** The body of [expensesSummary.forEach] in the member dashboard. *)
Definition addToMine (summary : Mine.t) (item : Rollup.t Status) : Mine.t :=
  let id := Rollup._id item in
  let total := Rollup.total item in
  let s :=
    if Status_eqb id pending then
      Mine.mk (Mine.totalContribution summary) total
        (Mine.approvedExpenses summary) (Mine.rejectedExpenses summary)
        (Mine.paidExpenses summary)
    else if Status_eqb id approved then
      Mine.mk (Mine.totalContribution summary)
        (Mine.pendingReimbursements summary) total
        (Mine.rejectedExpenses summary) (Mine.paidExpenses summary)
    else if Status_eqb id rejected then
      Mine.mk (Mine.totalContribution summary)
        (Mine.pendingReimbursements summary) (Mine.approvedExpenses summary)
        total (Mine.paidExpenses summary)
    else if Status_eqb id paid || Status_eqb id reimbursed then
      Mine.mk (Mine.totalContribution summary)
        (Mine.pendingReimbursements summary) (Mine.approvedExpenses summary)
        (Mine.rejectedExpenses summary) total
    else summary in
  Mine.mk (Mine.totalContribution s + total)%float
    (Mine.pendingReimbursements s)
    (Mine.approvedExpenses s) (Mine.rejectedExpenses s) (Mine.paidExpenses s).

(** The expense figures the archive of a closed year keeps. *)
Module YearSummary.
Record t := mk
  { totalExpenses : float;
    totalContributions : float;
    totalReimbursements : float }.
End YearSummary.

(** The aggregate of [closeYear]: one group with [_id: null] when the year
    has expenses, and the zero summary when it has none. *)
Definition yearSummary (sum : list float -> float) (currentYear : string)
  (docs : list Expense) : YearSummary.t :=
  let expensesSummary :=
    match matchYear currentYear docs with
    | [] => []
    | es =>
        [YearSummary.mk (sum (map amount es))
           (sumIf sum (fun e => contributing (status e)) es)
           (sumIf sum (fun e => Status_eqb (status e) reimbursed) es)]
    end in
  match expensesSummary with
  | summary :: _ => summary
  | [] => YearSummary.mk zero zero zero
  end.

Section FurtherPipelines.

Variable arrange : forall A : Type, list A -> list A.
Variable accumulate : list float -> float.

(** GET /api/reports/member-wise *)
Definition getMemberWiseReport (db : Db) (now : Date)
  (rotaractYear : option string) : list (MemberRow.t * User.t) :=
  let year := yearOf rotaractYear now in
  lookupUnwind MemberRow._id User._id (users db)
    (sortBy rowDesc
       (arrange _ (map (memberRow accumulate)
                     (buckets String.eqb member
                        (matchYear year (expenses db)))))).

(** GET /api/admin/dashboard: the status rollup of the current year and the
    summary folded from it. *)
Definition adminDashboard (db : Db) (now : Date) : Spending.t :=
  let currentYear := getFinancialYear now in
  let expensesSummary :=
    byStatus arrange accumulate currentYear (expenses db) in
  fold_left addToSpending expensesSummary (Spending.mk zero zero zero 0).

(** GET /api/members/dashboard: the status rollup of the caller's expenses
    of the current year and the summary folded from it. *)
Definition memberSummary (db : Db) (userId : ObjectId) (now : Date)
  : list (Rollup.t Status) :=
  let currentYear := getFinancialYear now in
  arrange _
    (map (rollup accumulate)
       (buckets Status_eqb status
          (filter (fun e => (member e =? userId)%string
                            && (rotaractYear e =? currentYear)%string)
             (expenses db)))).

Definition memberDashboard (db : Db) (userId : ObjectId) (now : Date)
  : Mine.t :=
  fold_left addToMine (memberSummary db userId now)
    (Mine.mk zero zero zero zero zero).

(** GET /api/events/:id: the category rollup of the event's expenses and
    [actualSpending], its fold. *)
Definition eventSummary (db : Db) (eventId : ObjectId)
  : list (Rollup.t Category) :=
  arrange _
    (map (rollup accumulate)
       (buckets Category_eqb category
          (filter (fun e => (event e =? eventId)%string) (expenses db)))).

Definition eventSpending (db : Db) (eventId : ObjectId) : float :=
  fold_left (fun sum item => (sum + Rollup.total item)%float)
    (eventSummary db eventId) zero.

End FurtherPipelines.

(** * Properties *)

(** ** Collection lemmas *)

Lemma findById_inv (coll : list Expense) (id : string) (e : Expense) :
  findById coll id = Doc e ->
  exists oid, castObjectId id = Some oid
              /\ find (fun x => (_id x =? oid)%string) coll = Some e
              /\ _id e = oid.
Proof.
  unfold findById. destruct (castObjectId id) as [oid|]; [|discriminate].
  destruct (find _ coll) as [x|] eqn:Hf; [|discriminate].
  intros H. injection H as ->. exists oid. split; [reflexivity|].
  split; [exact Hf|].
  apply find_some in Hf. destruct Hf as [_ Hid]. simpl in Hid.
  now apply String.eqb_eq.
Qed.

Lemma applyModified_id (m : Modified) (e : Expense) :
  _id (applyModified m e) = _id e.
Proof. destruct m; reflexivity. Qed.

Lemma updateOne_found (oid : ObjectId) (f : Expense -> Expense)
  (coll : list Expense) (e : Expense) :
  (forall x, _id (f x) = _id x) ->
  find (fun x => (_id x =? oid)%string) coll = Some e ->
  exists coll', updateOne oid f coll = Some coll'
                /\ find (fun x => (_id x =? oid)%string) coll' = Some (f e).
Proof.
  intros Hid. induction coll as [|x rest IH]; simpl; [discriminate|].
  destruct (_id x =? oid)%string eqn:Hx.
  - intros H. injection H as ->. eexists. split; [reflexivity|].
    simpl. now rewrite Hid, Hx.
  - intros H. destruct (IH H) as (coll' & Hu & Hf). rewrite Hu. simpl.
    eexists. split; [reflexivity|]. simpl. now rewrite Hx.
Qed.

Lemma validateSync_applyModified (m : Modified) (e : Expense) :
  validateSync (applyModified m e) = validateSync e.
Proof. destruct m; reflexivity. Qed.

(** The write of [save]: the paths the handler assigned are set on the
    stored document with the identifier of the document it holds, whatever
    the stored document has become since it was read. *)
Lemma save_stale (okm errm : string) (db : Db) (id : string)
  (e0 doc : Expense) (m : Modified) (resolved : bool) :
  findById (expenses db) id = Doc e0 ->
  _id doc = _id e0 ->
  validateSync doc = true ->
  exists coll',
    save okm errm db (Saving doc m resolved)
    = (with_expenses db coll',
       if resolved then ok 200 okm doc else fail 500 errm)
    /\ findById coll' id = Doc (applyModified m e0).
Proof.
  intros Hf Hd Hv. apply findById_inv in Hf.
  destruct Hf as (oid & Hc & Hf & Hid).
  destruct (updateOne_found oid (applyModified m) _ _ (applyModified_id m) Hf)
    as (coll' & Hu & Hf').
  exists coll'. unfold save. rewrite Hv, Hd, Hid, Hu. simpl.
  split; [reflexivity|]. unfold findById. now rewrite Hc, Hf'.
Qed.

(** The write of a transition that passed its check: the stored document
    becomes the document the handler holds. *)
Lemma save_found (okm errm : string) (db : Db) (id : string) (e : Expense)
  (m : Modified) (resolved : bool) :
  findById (expenses db) id = Doc e ->
  validateSync e = true ->
  exists coll',
    save okm errm db (Saving (applyModified m e) m resolved)
    = (with_expenses db coll',
       if resolved then ok 200 okm (applyModified m e) else fail 500 errm)
    /\ findById coll' id = Doc (applyModified m e).
Proof.
  intros Hf Hv. apply (save_stale okm errm db id e _ m resolved Hf).
  - apply applyModified_id.
  - now rewrite validateSync_applyModified.
Qed.

(** A document that fails the validators is not written. *)
Lemma save_invalid (okm errm : string) (db : Db) (doc : Expense)
  (m : Modified) (resolved : bool) :
  validateSync doc = false ->
  save okm errm db (Saving doc m resolved) = (db, fail 500 errm).
Proof. intros Hv. unfold save. now rewrite Hv. Qed.

Lemma Status_eqb_eq (a b : Status) : Status_eqb a b = true <-> a = b.
Proof. destruct a, b; simpl; split; congruence. Qed.

(** What the read of a transition hands to its write. *)
Lemma read_found (db : Db) (q : Request) (e : Expense) :
  findById (expenses db) (target q) = Doc e ->
  read db q
  = if Status_eqb (status e) (requiredStatus q) && reasonGiven q
    then Saving (applyModified (assigned q) e) (assigned q)
           (referencesResolved db q e)
    else Replied (snd (handle db q)).
Proof.
  intros Hf. destruct q as [u t id|u t id reason|u t id ref]; simpl in *.
  - unfold approveExpense, approve_read. rewrite Hf.
    destruct (Status_eqb (status e) pending); reflexivity.
  - unfold rejectExpense, reject_read.
    destruct (falsy reason); simpl;
      [now rewrite Bool.andb_false_r|].
    rewrite Hf. destruct (Status_eqb (status e) pending); reflexivity.
  - unfold reimburseExpense, reimburse_read. rewrite Hf.
    destruct (Status_eqb (status e) approved); reflexivity.
Qed.

Lemma handle_read (db : Db) (q : Request) :
  handle db q = save (okMessage q) (errMessage q) db (read db q).
Proof. destruct q; reflexivity. Qed.

Lemma read_saving (db : Db) (q : Request) (doc : Expense) (m : Modified)
  (resolved : bool) :
  read db q = Saving doc m resolved ->
  exists e,
    findById (expenses db) (target q) = Doc e
    /\ status e = requiredStatus q /\ reasonGiven q = true
    /\ m = assigned q /\ doc = applyModified m e
    /\ resolved = referencesResolved db q e.
Proof.
  destruct q as [u t id|u t id reason|u t id ref]; simpl.
  - unfold approve_read.
    destruct (findById (expenses db) id) as [| |e]; try discriminate.
    destruct (Status_eqb (status e) pending) eqn:Hs; [|discriminate].
    simpl. intros H. injection H as <- <- <-. exists e.
    apply Status_eqb_eq in Hs. auto 7.
  - unfold reject_read. destruct (falsy reason); [discriminate|].
    destruct (findById (expenses db) id) as [| |e]; try discriminate.
    destruct (Status_eqb (status e) pending) eqn:Hs; [|discriminate].
    simpl. intros H. injection H as <- <- <-. exists e.
    apply Status_eqb_eq in Hs. auto 7.
  - unfold reimburse_read.
    destruct (findById (expenses db) id) as [| |e]; try discriminate.
    destruct (Status_eqb (status e) approved) eqn:Hs; [|discriminate].
    simpl. intros H. injection H as <- <- <-. exists e.
    apply Status_eqb_eq in Hs. auto 7.
Qed.


(** A refusal of the read leaves the database as it is. *)
Lemma replied_fails (db : Db) (q : Request) (r : Response) :
  read db q = Replied r -> success r = false.
Proof.
  destruct q as [u t id|u t id reason|u t id ref]; simpl.
  - unfold approve_read.
    destruct (findById (expenses db) id) as [| |e];
      try (intros H; injection H as <-; reflexivity).
    destruct (negb (Status_eqb (status e) pending));
      [intros H; injection H as <-; reflexivity | discriminate].
  - unfold reject_read.
    destruct (falsy reason); [intros H; injection H as <-; reflexivity|].
    destruct (findById (expenses db) id) as [| |e];
      try (intros H; injection H as <-; reflexivity).
    destruct (negb (Status_eqb (status e) pending));
      [intros H; injection H as <-; reflexivity | discriminate].
  - unfold reimburse_read.
    destruct (findById (expenses db) id) as [| |e];
      try (intros H; injection H as <-; reflexivity).
    destruct (negb (Status_eqb (status e) approved));
      [intros H; injection H as <-; reflexivity | discriminate].
Qed.

(** What a transition does to an expense that exists: the check of the
    reason and of the status read, the validation, the write, and the
    answer. *)
Lemma handle_found (db : Db) (q : Request) (e : Expense) :
  findById (expenses db) (target q) = Doc e ->
  (exists coll',
      Status_eqb (status e) (requiredStatus q) = true
      /\ reasonGiven q = true
      /\ validateSync e = true
      /\ handle db q
         = (with_expenses db coll',
            if referencesResolved db q e
            then ok 200 (okMessage q) (applyModified (assigned q) e)
            else fail 500 (errMessage q))
      /\ findById coll' (target q) = Doc (applyModified (assigned q) e))
  \/ (exists r,
         (Status_eqb (status e) (requiredStatus q) = false
          \/ reasonGiven q = false \/ validateSync e = false)
         /\ handle db q = (db, r) /\ success r = false).
Proof.
  intros Hf. rewrite handle_read. pose proof (read_found db q e Hf) as Hr.
  destruct (Status_eqb (status e) (requiredStatus q)) eqn:Hs;
    [destruct (reasonGiven q) eqn:Hg|]; simpl in Hr.
  - rewrite Hr. destruct (validateSync e) eqn:Hv.
    + left.
      destruct (save_found (okMessage q) (errMessage q) db (target q) e
                  (assigned q) (referencesResolved db q e) Hf Hv)
        as (coll' & Hsave & Hfind).
      exists coll'. auto.
    + right. exists (fail 500 (errMessage q)). split; [auto|].
      split; [|reflexivity]. apply save_invalid.
      now rewrite validateSync_applyModified.
  - right. rewrite Hr. simpl. eexists. split; [auto|].
    split; [reflexivity|]. apply (replied_fails db q). rewrite Hr at 1.
    reflexivity.
  - right. rewrite Hr. simpl. eexists. split; [auto|].
    split; [reflexivity|]. apply (replied_fails db q). rewrite Hr at 1.
    reflexivity.
Qed.

(** ** The approval state machine *)



(** As the specification words it, the property fails at the reimburse
    transition: asked to reimburse an expense that is still [pending], the
    handler answers 400 with a fixed message that does not name the status
    [pending] (and is the same whatever the status is); likewise a reject
    without a reason on an
    [approved] expense is answered with the missing-reason message, not
    with the status. *)
Lemma refused_reimburse_does_not_name_status :
  let q := ReimburseReq alice noon expenseA (Some "UTR123"%string) in
  Status_eqb pending (requiredStatus q) = false
  /\ snd (handle (oneExpense pending) q)
     = fail 400 "Only approved expenses can be marked as reimbursed"
  /\ carriesStatus (snd (handle (oneExpense pending) q)) pending = false
  /\ snd (handle (oneExpense rejected) q) = snd (handle (oneExpense pending) q)
  /\ carriesStatus
       (snd (handle (oneExpense approved)
               (RejectReq alice noon expenseA (Some EmptyString))))
       approved = false.
Proof. vm_compute. repeat split. Qed.

(** C3 (amended). A transition request on a stored expense whose status is
    not the one the transition requires leaves the database as it is and is
    answered 400: approve, and reject with a reason, with a message that
    ends with the current status; reject without a reason with the
    missing-reason message; reimburse with a fixed message. *)
Theorem refused_transition_changes_nothing (db : Db) (q : Request)
  (e : Expense) :
  findById (expenses db) (target q) = Doc e ->
  status e <> requiredStatus q ->
  fst (handle db q) = db
  /\ statusCode (snd (handle db q)) = 400
  /\ success (snd (handle db q)) = false
  /\ match q with
     | ApproveReq _ _ _ =>
         message (snd (handle db q))
         = ("Cannot approve expense with status: "
            ++ Status_name (status e))%string
     | RejectReq _ _ _ reason =>
         message (snd (handle db q))
         = if falsy reason then "Rejection reason is required"%string
           else ("Cannot reject expense with status: "
                 ++ Status_name (status e))%string
     | ReimburseReq _ _ _ _ =>
         message (snd (handle db q))
         = "Only approved expenses can be marked as reimbursed"%string
     end.
Proof.
  intros Hf Hs.
  assert (Hb : Status_eqb (status e) (requiredStatus q) = false).
  { destruct (Status_eqb (status e) (requiredStatus q)) eqn:E; [|reflexivity].
    apply Status_eqb_eq in E. contradiction. }
  destruct q as [u t id|u t id reason|u t id ref]; simpl in *.
  - unfold approveExpense, approve_read. rewrite Hf, Hb. simpl. auto.
  - unfold rejectExpense, reject_read. destruct (falsy reason); simpl; auto.
    rewrite Hf, Hb. simpl. auto.
  - unfold reimburseExpense, reimburse_read. rewrite Hf, Hb. simpl. auto.
Qed.

Lemma refused_transition_changes_nothing_witness :
  fst (handle (oneExpense reimbursed)
         (RejectReq alice noon expenseA (Some "too late"%string)))
  = oneExpense reimbursed
  /\ message (snd (handle (oneExpense reimbursed)
                     (RejectReq alice noon expenseA (Some "too late"%string))))
     = "Cannot reject expense with status: reimbursed"%string.
Proof.
  pose proof (refused_transition_changes_nothing (oneExpense reimbursed)
                (RejectReq alice noon expenseA (Some "too late"%string))
                (sampleExpense expenseA alice travel_expense 1500 reimbursed)
                eq_refl ltac:(discriminate)) as (H1 & _ & _ & H4).
  split; [exact H1 | exact H4].
Defined.

(** C4. A reject request whose reason is missing or empty is answered 400
    "Rejection reason is required" and the database is left as it is,
    whatever the identifier and whatever the status of the expense. *)
Theorem reject_without_reason (db : Db) (user : ObjectId) (now : Date)
  (id : string) (reason : option string) :
  reason = None \/ reason = Some EmptyString ->
  rejectExpense db user now id reason
  = (db, fail 400 "Rejection reason is required").
Proof.
  intros [-> | ->]; reflexivity.
Qed.

Lemma reject_without_reason_witness :
  rejectExpense (oneExpense pending) alice noon expenseA (Some EmptyString)
  = (oneExpense pending, fail 400 "Rejection reason is required").
Proof.
  apply (reject_without_reason (oneExpense pending) alice noon expenseA
           (Some EmptyString)).
  right. reflexivity.
Defined.

(** ** Concurrent approvals *)







(** ** The year label and the archived flag *)

Lemma includes_In (l : list string) (key : string) :
  includes l key = true <-> In key l.
Proof.
  unfold includes. rewrite existsb_exists. split.
  - intros (k & Hin & Hk). apply String.eqb_eq in Hk. now subst.
  - intros Hin. exists key. split; [exact Hin | apply String.eqb_refl].
Qed.

Lemma setPath_editable (key : string) (v : Value) (e e' : Expense) :
  In key editable ->
  setPath key v e = Some e' ->
  fixedPart e' = fixedPart e.
Proof.
  intros Hin Hset. simpl in Hin.
  repeat (destruct Hin as [<- | Hin]);
    try contradiction;
    cbn in Hset;
    match type of Hset with
    | option_map _ ?c = _ => destruct c; [|discriminate]
    end;
    simpl in Hset; injection Hset as <-; reflexivity.
Qed.

Lemma setPaths_editable (updates : list (string * Value)) (e e' : Expense) :
  Forall (fun kv => In (fst kv) editable) updates ->
  setPaths updates e = Some e' ->
  fixedPart e' = fixedPart e.
Proof.
  revert e. induction updates as [|[key v] rest IH]; simpl; intros e Hall H.
  - now injection H as <-.
  - inversion Hall as [|? ? Hk Hrest]; subst.
    destruct (setPath key v e) as [e1|] eqn:H1; [|discriminate].
    rewrite (IH e1 Hrest H). exact (setPath_editable key v e e1 Hk H1).
Qed.

Lemma findByIdAndUpdate_frame (id : ObjectId) (updates : list (string * Value))
  (coll coll' : list Expense) (r : option Expense) :
  Forall (fun kv => In (fst kv) editable) updates ->
  findByIdAndUpdate id updates coll = Some (coll', r) ->
  Forall2 (fun e e' => fixedPart e' = fixedPart e) coll coll'.
Proof.
  intros Hall. revert coll' r.
  induction coll as [|x rest IH]; simpl; intros coll' r H.
  - injection H as <- <-. constructor.
  - destruct (_id x =? id)%string.
    + destruct (setPaths updates x) as [x'|] eqn:Hx; [|discriminate].
      injection H as <- <-. constructor.
      * eapply setPaths_editable; eauto.
      * clear. induction rest; constructor; auto.
    + destruct (findByIdAndUpdate id updates rest) as [[rest' r']|];
        [|discriminate].
      injection H as <- <-. constructor; [reflexivity|]. eapply IH; eauto.
Qed.

Lemma Forall2_refl {A : Type} (R : A -> A -> Prop) (l : list A) :
  (forall x, R x x) -> Forall2 R l l.
Proof. intros HR. induction l; constructor; auto. Qed.

Lemma updateExpense_frame (db : Db) (id : string)
  (body : list (string * Value)) (file : option UploadedFile) :
  Forall2 (fun e e' => fixedPart e' = fixedPart e)
    (expenses db) (expenses (fst (updateExpense db id body file))).
Proof.
  unfold updateExpense.
  destruct (findById (expenses db) id) as [| |expense];
    try (apply Forall2_refl; reflexivity).
  match goal with
  | |- context [findByIdAndUpdate ?i ?u ?c] =>
      assert (Hall : Forall (fun kv => In (fst kv) editable) u);
      [|destruct (findByIdAndUpdate i u c) as [[coll' r]|] eqn:Hu]
  end.
  - assert (Hfilter : Forall (fun kv : string * Value => In (fst kv) editable)
                        (filter (fun kv => includes allowedUpdates (fst kv))
                           body)).
    { apply Forall_forall. intros kv Hin. apply filter_In in Hin.
      destruct Hin as [_ Hk]. apply includes_In in Hk.
      unfold editable. apply in_or_app. now left. }
    destruct file as [f|]; [|exact Hfilter].
    apply Forall_app. split; [exact Hfilter|].
    constructor; [apply includes_In; reflexivity|].
    constructor; [apply includes_In; reflexivity | constructor].
  - simpl. eapply findByIdAndUpdate_frame; eauto.
  - apply Forall2_refl; reflexivity.
Qed.

Lemma archiveExpenses_frame (year : string) (coll : list Expense) :
  Forall2 (fun e e' => sameButArchived e e'
                       /\ (rotaractYear e <> year -> e' = e))
    coll (archiveExpenses year coll).
Proof.
  unfold archiveExpenses. induction coll as [|e rest IH]; simpl; constructor;
    [|exact IH].
  destruct (rotaractYear e =? year)%string eqn:Hy.
  - split; [reflexivity|]. apply String.eqb_eq in Hy. congruence.
  - split; [|reflexivity]. unfold sameButArchived. now destruct e.
Qed.

Lemma updateOne_frame (id : ObjectId) (m : Modified)
  (coll coll' : list Expense) :
  updateOne id (applyModified m) coll = Some coll' ->
  Forall2 (fun e e' => e' = e \/ e' = applyModified m e) coll coll'.
Proof.
  revert coll'. induction coll as [|x rest IH]; simpl; intros coll' H;
    [discriminate|].
  destruct (_id x =? id)%string.
  - injection H as <-. constructor; [now right|].
    apply Forall2_refl. now left.
  - destruct (updateOne id (applyModified m) rest) as [rest'|];
      [|discriminate].
    injection H as <-. constructor; [now left | now apply IH].
Qed.

Lemma save_frame (okm errm : string) (db : Db) (a : Await) :
  Forall2 (fun e e' => e' = e \/ exists m, e' = applyModified m e)
    (expenses db) (expenses (fst (save okm errm db a))).
Proof.
  destruct a as [r|doc m resolved]; simpl.
  - apply Forall2_refl. now left.
  - destruct (validateSync doc); simpl; [|apply Forall2_refl; now left].
    destruct (updateOne (_id doc) (applyModified m) (expenses db))
      as [coll'|] eqn:Hu; simpl.
    + apply updateOne_frame in Hu.
      eapply Forall2_impl; [|exact Hu]. intros a b [H|H]; eauto.
    + apply Forall2_refl. now left.
Qed.

Lemma handle_frame (db : Db) (q : Request) :
  Forall2 (fun e e' => e' = e \/ exists m, e' = applyModified m e)
    (expenses db) (expenses (fst (handle db q))).
Proof. destruct q; apply save_frame. Qed.

Lemma applyModified_year (m : Modified) (e : Expense) :
  rotaractYear (applyModified m e) = rotaractYear e
  /\ _id (applyModified m e) = _id e.
Proof. destruct m; split; reflexivity. Qed.

Lemma Forall2_In_r {A : Type} (R : A -> A -> Prop) (l l' : list A) (y : A) :
  Forall2 R l l' -> In y l' -> exists x, In x l /\ R x y.
Proof.
  induction 1 as [|a b l l' Hab _ IH]; simpl; [contradiction|].
  intros [<- | Hin].
  - exists a. auto.
  - destruct (IH Hin) as (x & Hx & HR). exists x. auto.
Qed.

Lemma deleteOne_In (id : ObjectId) (coll : list Expense) (e : Expense) :
  In e (deleteOne id coll) -> In e coll.
Proof.
  induction coll as [|x rest IH]; simpl; [auto|].
  destruct (_id x =? id)%string; simpl; intuition.
Qed.

(** What [Expense.create] puts in the paths the caller does not take from
    the request body. *)
Lemma Expense_create_inv (id : ObjectId) (now : Date)
  (m ev c a d pm de n st bu bo : option Value)
  (ab : option ObjectId) (aa : option Date) (ry : string) (e : Expense) :
  Expense_create id now m ev c a d pm de n st bu bo ab aa ry = Some e ->
  _id e = id /\ approvedBy e = ab /\ approvedAt e = aa
  /\ rotaractYear e = ry /\ isArchived e = false
  /\ withDefault (castEnum Status_of_string) pending st = Some (status e).
Proof.
  unfold Expense_create, bind.
  repeat match goal with
         | |- context [match ?x with Some _ => _ | None => None end] =>
             destruct x; [|discriminate]
         end.
  destruct (ry =? EmptyString)%string; [discriminate|].
  intros H. injection H as <-. simpl. repeat split.
Qed.

(** Every document of the collection after an operation has one of the
    origins above. *)
Lemma perform_origin (db : Db) (op : Op) (e' : Expense) :
  In e' (expenses (fst (perform db op))) -> Origin db op e'.
Proof.
  destruct op as [user newId now body file|user newId now body file
                 |id body file|q|id|now]; cbn [perform].
  - unfold createExpense.
    destruct (Event_findById _ _); simpl; try apply Kept.
    destruct (Expense_create _ _ _ _ _ _ _ _ _ _ _ _ _ _ _ _) as [x|] eqn:Hc;
      simpl; [|apply Kept].
    intros Hin. apply in_app_or in Hin. destruct Hin as [Hin|[<-|[]]].
    + now apply Kept.
    + apply Expense_create_inv in Hc.
      destruct Hc as (Hi & _ & _ & Hy & _ & Hs). simpl in Hs.
      injection Hs as Hs.
      eapply Submitted; eauto.
  - unfold addManualExpense.
    repeat match goal with
           | |- context [if ?b then _ else _] => destruct b; simpl;
                                                 try apply Kept
           end.
    destruct (User_findById _ _); try destruct (Event_findById _ _); simpl;
      try apply Kept.
    destruct (Expense_create _ _ _ _ _ _ _ _ _ _ _ _ _ _ _ _) as [x|] eqn:Hc;
      simpl; [|apply Kept].
    intros Hin. apply in_app_or in Hin. destruct Hin as [Hin|[<-|[]]].
    + now apply Kept.
    + apply Expense_create_inv in Hc.
      destruct Hc as (Hi & _ & _ & Hy & _ & Hs). simpl in Hs.
      eapply Entered; eauto.
  - intros Hin.
    destruct (Forall2_In_r _ _ _ _ (updateExpense_frame db id body file) Hin)
      as (e & He & Hfix).
    eapply Edited; eauto.
  - intros Hin.
    destruct (Forall2_In_r _ _ _ _ (handle_frame db q) Hin)
      as (e & He & [-> | (m & ->)]).
    + now apply Kept.
    + eapply Moved; eauto.
  - unfold deleteExpense. destruct (findById _ _); simpl; try apply Kept.
    intros Hin. apply Kept. eapply deleteOne_In; eauto.
  - unfold closeYear. destruct (includes _ _); simpl; [apply Kept|].
    unfold archiveExpenses. intros Hin. apply in_map_iff in Hin.
    destruct Hin as (e & <- & He).
    destruct (rotaractYear e =? getFinancialYear now)%string eqn:Hy.
    + apply String.eqb_eq in Hy. eapply Archived; eauto.
    + now apply Kept.
Qed.

Lemma fixedPart_inv (e e' : Expense) :
  fixedPart e' = fixedPart e ->
  _id e' = _id e /\ status e' = status e
  /\ rotaractYear e' = rotaractYear e /\ isArchived e' = isArchived e.
Proof. unfold fixedPart. intros H. inversion H. auto. Qed.

(** C8. The year label of an expense never changes once the expense is
    created: after any operation, every stored expense either was stored
    before under the same identifier with the same [rotaractYear], or was
    created by this operation with the financial year of the clock. The
    update operation rewrites at most the six allowed paths and the two bill
    paths, so it leaves [rotaractYear] (and the status, the approval fields
    and the archived flag) alone; closing a year changes nothing but
    [isArchived], and only on the expenses of the year being closed. *)
Theorem rotaractYear_never_changes :
  includes allowedUpdates "rotaractYear" = false
  /\ (forall db op e',
         In e' (expenses (fst (perform db op))) ->
         (exists e, In e (expenses db)
                    /\ _id e' = _id e /\ rotaractYear e' = rotaractYear e)
         \/ (exists user newId now body file,
                (op = OpCreate user newId now body file
                 \/ op = OpManual user newId now body file)
                /\ rotaractYear e' = getFinancialYear now))
  /\ (forall db id body file,
         Forall2 (fun e e' => fixedPart e' = fixedPart e
                              /\ rotaractYear e' = rotaractYear e)
           (expenses db) (expenses (fst (updateExpense db id body file))))
  /\ (forall db now,
         Forall2 (fun e e' => sameButArchived e e'
                              /\ rotaractYear e' = rotaractYear e
                              /\ (rotaractYear e <> getFinancialYear now ->
                                  e' = e))
           (expenses db) (expenses (fst (closeYear db now)))).
Proof.
  split; [reflexivity|]. split; [|split].
  - intros db op e' Hin. apply perform_origin in Hin.
    destruct Hin as [Hin
                    |e id body file He _ Hfix
                    |e now He _ _ ->
                    |e q m He _ ->
                    |user newId now body file -> _ _ Hy
                    |user newId now body file -> _ _ Hy].
    + left. exists e'. auto.
    + left. exists e. apply fixedPart_inv in Hfix. intuition.
    + left. exists e. auto.
    + left. exists e. destruct (applyModified_year m e). auto.
    + right. exists user, newId, now, body, file. auto.
    + right. exists user, newId, now, body, file. auto.
  - intros db id body file.
    eapply Forall2_impl; [|apply updateExpense_frame].
    intros e e' H. split; [exact H|]. apply fixedPart_inv in H. intuition.
  - intros db now. unfold closeYear.
    destruct (includes _ _); simpl.
    + apply Forall2_refl. intros e. split; [now destruct e|]. auto.
    + eapply Forall2_impl; [|apply archiveExpenses_frame].
      intros e e' [H1 H2]. split; [exact H1|]. split; [|exact H2].
      rewrite H1. reflexivity.
Qed.

(** A request body that names [rotaractYear], [status] and [isArchived]
    beside an allowed path: only the allowed path is written. *)
Example update_drops_other_keys :
  expenses
    (fst (updateExpense (oneExpense pending) expenseA
            [("rotaractYear", VString "1999-2000"); ("amount", VNumber 70);
             ("status", VString "paid"); ("isArchived", VBool true)] None))
  = [set_amount 70 (sampleExpense expenseA alice travel_expense 1500 pending)].
Proof. reflexivity. Qed.

(** ** The [paid] status *)

Lemma enum_of_string_sound {A : Type} (name : A -> string) (all : list A)
  (s : string) (a : A) :
  enum_of_string name all s = Some a -> name a = s.
Proof.
  unfold enum_of_string. intros H. apply find_some in H.
  destruct H as [_ H]. now apply String.eqb_eq in H.
Qed.

Lemma requested_paid (v : option Value) :
  castEnum Status_of_string (orElse v (VString "approved")) = Some paid ->
  v = Some (VString "paid").
Proof.
  destruct v as [[s|z|b|d]|]; unfold orElse; simpl.
  - destruct (s =? EmptyString)%string; simpl; [discriminate|].
    intros H. apply enum_of_string_sound in H. simpl in H. now subst.
  - destruct (truthyNumber z); simpl; discriminate.
  - destruct b; simpl; discriminate.
  - discriminate.
  - discriminate.
Qed.

(** C9. No transition installs [paid]; after any operation, a stored
    expense with status [paid] either was already stored as [paid] under
    the same identifier, or has just been created by the manual entry with
    the status "paid" in the request; and the manual entry does create such
    an expense. *)
Theorem paid_only_by_manual_entry :
  (forall q, installedStatus q <> paid)
  /\ (forall db op e',
         In e' (expenses (fst (perform db op))) ->
         status e' = paid ->
         (exists e, In e (expenses db) /\ _id e' = _id e /\ status e = paid)
         \/ (exists user newId now body file,
                op = OpManual user newId now body file
                /\ get body "status" = Some (VString "paid")
                /\ _id e' = newId))
  /\ (exists body e',
         expenses (fst (perform (sampleDb [])
                          (OpManual alice expenseA noon body None))) = [e']
         /\ status e' = paid).
Proof.
  split; [|split].
  - intros q. destruct q; discriminate.
  - intros db op e' Hin Hpaid. apply perform_origin in Hin.
    destruct Hin as [Hin
                    |e id body file He _ Hfix
                    |e now He _ _ ->
                    |e q m He _ ->
                    |user newId now body file -> _ Hs _
                    |user newId now body file -> Hi Hs _].
    + left. exists e'. auto.
    + left. exists e. apply fixedPart_inv in Hfix.
      destruct Hfix as (Hi & Hs & _). split; [exact He|]. split; congruence.
    + left. exists e. auto.
    + destruct m; discriminate.
    + congruence.
    + right. exists user, newId, now, body, file.
      rewrite Hpaid in Hs. apply requested_paid in Hs. auto.
  - exists [("member", VString bob); ("event", VString gala);
            ("category", VString "donation"); ("amount", VString "2500");
            ("date", VDate noon); ("paymentMode", VString "cheque");
            ("status", VString "paid")].
    eexists. split; vm_compute; reflexivity.
Qed.

(** ** Manual entry *)

(** C10. An expense created by the manual entry has the caller as
    [approvedBy] and the time of creation as [approvedAt] whatever status
    was requested; its status is the requested one, and [approved] when the
    request gives none (or an empty one). *)
Theorem manual_entry_is_stamped (db : Db) (user newId : ObjectId)
  (now : Date) (body : list (string * Value)) (file : option UploadedFile) :
  statusCode (snd (addManualExpense db user newId now body file)) = 201 ->
  exists e,
    fst (addManualExpense db user newId now body file)
    = with_expenses db (expenses db ++ [e])
    /\ data (snd (addManualExpense db user newId now body file)) = Some e
    /\ approvedBy e = Some user
    /\ approvedAt e = Some now
    /\ castEnum Status_of_string
         (orElse (get body "status") (VString "approved"))
       = Some (status e)
    /\ (truthy (get body "status") = false -> status e = approved).
Proof.
  unfold addManualExpense.
  repeat match goal with
         | |- context [if ?b then _ else _] =>
             destruct b; simpl; [discriminate|]
         end.
  destruct (User_findById _ _); try destruct (Event_findById _ _); simpl;
    try discriminate.
  destruct (Expense_create _ _ _ _ _ _ _ _ _ _ _ _ _ _ _ _) as [e|] eqn:Hc;
    simpl; [|discriminate].
  intros _. exists e. apply Expense_create_inv in Hc.
  destruct Hc as (_ & Hby & Hat & _ & _ & Hs). simpl in Hs.
  repeat (split; [solve [auto]|]).
  intros Ht. unfold orElse in Hs. rewrite Ht in Hs.
  destruct (get body "status"); simpl in Hs; now injection Hs as <-.
Qed.

Lemma manual_entry_is_stamped_witness :
  exists e,
    fst (addManualExpense (sampleDb []) alice expenseA later
           (manualBody [("status", VString "pending")]) None)
    = with_expenses (sampleDb []) [e]
    /\ status e = pending
    /\ approvedBy e = Some alice
    /\ approvedAt e = Some later.
Proof.
  destruct (manual_entry_is_stamped (sampleDb []) alice expenseA later
              (manualBody [("status", VString "pending")]) None eq_refl)
    as (e & Hdb & _ & Hby & Hat & Hs & _).
  exists e. split; [exact Hdb|]. split; [|split; assumption].
  change (Some pending = Some (status e)) in Hs. now injection Hs as <-.
Defined.

Example manual_entry_rejected :
  option_map (fun e => (status e, approvedBy e, approvedAt e))
    (data (snd (addManualExpense (sampleDb []) alice expenseA later
                  (manualBody [("status", VString "rejected")]) None)))
  = Some (rejected, Some alice, Some later).
Proof. reflexivity. Qed.

Example manual_entry_default_status :
  option_map (fun e => (status e, approvedBy e, approvedAt e))
    (data (snd (addManualExpense (sampleDb []) alice expenseA later
                  (manualBody []) None)))
  = Some (approved, Some alice, Some later).
Proof. reflexivity. Qed.

(** ** Sorting *)

Lemma insertSorted_perm {A : Type} (before : A -> A -> bool) (x : A)
  (l : list A) :
  Permutation (insertSorted before x l) (x :: l).
Proof.
  induction l as [|y rest IH]; simpl; [reflexivity|].
  destruct (before x y); [reflexivity|].
  rewrite IH. apply perm_swap.
Qed.

Lemma sortBy_perm {A : Type} (before : A -> A -> bool) (l : list A) :
  Permutation (sortBy before l) l.
Proof.
  induction l as [|x rest IH]; simpl; [reflexivity|].
  rewrite insertSorted_perm. now constructor.
Qed.

Section SortedBy.

Context {A : Type} (before : A -> A -> bool).
Hypothesis before_total : forall x y, before x y = true \/ before y x = true.
Hypothesis before_trans :
  forall x y z, before x y = true -> before y z = true -> before x z = true.

Lemma insertSorted_sorted (x : A) (l : list A) :
  StronglySorted (ordered before) l ->
  StronglySorted (ordered before) (insertSorted before x l).
Proof.
  induction 1 as [|y rest Hs IH Hall]; simpl.
  - repeat constructor.
  - destruct (before x y) eqn:Hxy.
    + constructor; [now constructor|].
      constructor; [exact Hxy|].
      eapply Forall_impl; [|exact Hall].
      intros z Hyz. eapply before_trans; eauto.
    + constructor; [exact IH|].
      assert (Hyx : ordered before y x).
      { destruct (before_total x y) as [H|H]; [congruence|exact H]. }
      eapply Permutation_Forall;
        [symmetry; apply insertSorted_perm|].
      now constructor.
Qed.

Lemma sortBy_sorted (l : list A) :
  StronglySorted (ordered before) (sortBy before l).
Proof.
  induction l as [|x rest IH]; simpl; [constructor|].
  now apply insertSorted_sorted.
Qed.

End SortedBy.

(** The order of [$sort] on numbers is a total preorder. *)
Lemma numberLe_sfLe (a b : float) :
  numberLe a b = sfLe (Prim2SF a) (Prim2SF b).
Proof.
  unfold numberLe, sfLe, sfNaN, is_nan. now rewrite !eqb_spec, leb_spec.
Qed.

Ltac sf_order :=
  repeat match goal with
         | |- context [Z.compare ?a ?b] =>
             destruct (Z.compare_spec a b); subst
         | |- context [Pos.compare_cont Eq ?a ?b] =>
             change (Pos.compare_cont Eq a b) with (Pos.compare a b);
             destruct (Pos.compare_spec a b); subst
         | H : context [Z.compare ?a ?b] |- _ =>
             destruct (Z.compare_spec a b); subst
         | H : context [Pos.compare_cont Eq ?a ?b] |- _ =>
             change (Pos.compare_cont Eq a b) with (Pos.compare a b) in H;
             destruct (Pos.compare_spec a b); subst
         end;
  simpl in *; try reflexivity; try discriminate; try lia; auto.

Lemma sfLe_total (x y : spec_float) : sfLe x y = true \/ sfLe y x = true.
Proof.
  unfold sfLe, sfNaN, SFleb, SFeqb.
  destruct x as [sx|sx| |sx mx ex], y as [sy|sy| |sy my ey];
    try destruct sx; try destruct sy; simpl; auto;
    rewrite ?Z.compare_refl, ?Pos.compare_cont_refl; simpl; auto;
    sf_order.
Qed.

Lemma sfLe_trans (x y z : spec_float) :
  sfLe x y = true -> sfLe y z = true -> sfLe x z = true.
Proof.
  unfold sfLe, sfNaN, SFleb, SFeqb.
  destruct x as [sx|sx| |sx mx ex], y as [sy|sy| |sy my ey],
    z as [sz|sz| |sz mz ez];
    try destruct sx; try destruct sy; try destruct sz; simpl;
    rewrite ?Z.compare_refl, ?Pos.compare_cont_refl; simpl;
    try reflexivity; try discriminate; auto;
    intros H1 H2; sf_order.
Qed.

Lemma numberLe_total (a b : float) :
  numberLe a b = true \/ numberLe b a = true.
Proof. rewrite !numberLe_sfLe. apply sfLe_total. Qed.

Lemma numberLe_trans (a b c : float) :
  numberLe a b = true -> numberLe b c = true -> numberLe a c = true.
Proof. rewrite !numberLe_sfLe. apply sfLe_trans. Qed.

Lemma numberLe_refl (a : float) : numberLe a a = true.
Proof. destruct (numberLe_total a a); assumption. Qed.

Lemma totalDesc_total {K : Type} (x y : Rollup.t K) :
  totalDesc x y = true \/ totalDesc y x = true.
Proof. unfold totalDesc. apply numberLe_total. Qed.

Lemma totalDesc_trans {K : Type} (x y z : Rollup.t K) :
  totalDesc x y = true -> totalDesc y z = true -> totalDesc x z = true.
Proof. unfold totalDesc. intros H1 H2. eapply numberLe_trans; eauto. Qed.

Lemma chronological_total (x y : Rollup.t MonthKey.t) :
  chronological x y = true \/ chronological y x = true.
Proof.
  unfold chronological.
  rewrite !orb_true_iff, !andb_true_iff, !Z.ltb_lt, !Z.eqb_eq, !Z.leb_le.
  lia.
Qed.

Lemma chronological_trans (x y z : Rollup.t MonthKey.t) :
  chronological x y = true -> chronological y z = true ->
  chronological x z = true.
Proof.
  unfold chronological.
  rewrite !orb_true_iff, !andb_true_iff, !Z.ltb_lt, !Z.eqb_eq, !Z.leb_le.
  lia.
Qed.

Lemma leaderDesc_total (x y : Leader.group) :
  leaderDesc x y = true \/ leaderDesc y x = true.
Proof. unfold leaderDesc. apply numberLe_total. Qed.

Lemma leaderDesc_trans (x y z : Leader.group) :
  leaderDesc x y = true -> leaderDesc y z = true -> leaderDesc x z = true.
Proof. unfold leaderDesc. intros H1 H2. eapply numberLe_trans; eauto. Qed.

Lemma StronglySorted_firstn {A : Type} (R : A -> A -> Prop) (n : nat)
  (l : list A) :
  StronglySorted R l -> StronglySorted R (firstn n l).
Proof.
  intros H. revert n. induction H as [|x l Hs IH Hall]; intros [|n]; simpl;
    try constructor.
  - apply IH.
  - apply Forall_forall. intros y Hy.
    rewrite Forall_forall in Hall. apply Hall.
    rewrite <- (firstn_skipn n l). apply in_or_app. now left.
Qed.

(** [$lookup] and [$unwind] keep the order of the groups. *)
Lemma lookupUnwind_sorted {G D : Type} (R : G -> G -> Prop)
  (idOf : G -> ObjectId) (docId : D -> ObjectId) (coll : list D)
  (groups : list G) :
  (forall g, R g g) ->
  StronglySorted R groups ->
  StronglySorted R (map fst (lookupUnwind idOf docId coll groups)).
Proof.
  intros Hrefl H. unfold lookupUnwind.
  induction H as [|g rest Hs IH Hall]; simpl; [constructor|].
  rewrite map_app, map_map. simpl.
  induction (filter (fun d => (docId d =? idOf g)%string) coll)
    as [|d ds IHd]; simpl; [exact IH|].
  constructor; [exact IHd|].
  apply Forall_app. split.
  - apply Forall_forall. intros y Hy. apply in_map_iff in Hy.
    destruct Hy as (? & <- & _). apply Hrefl.
  - apply Forall_forall. intros y Hy. apply in_map_iff in Hy.
    destruct Hy as ([g' d'] & <- & Hin). simpl.
    apply in_flat_map in Hin. destruct Hin as (g'' & Hg & Hin).
    apply in_map_iff in Hin. destruct Hin as (? & [= <- <-] & _).
    rewrite Forall_forall in Hall. now apply Hall.
Qed.

(** ** Grouping *)

Lemma sumZ_perm (l l' : list Z) : Permutation l l' -> sumZ l = sumZ l'.
Proof. induction 1; simpl; lia. Qed.

Lemma buckets_snoc {K : Type} (eqb : K -> K -> bool) (key : Expense -> K)
  (docs : list Expense) (e : Expense) :
  buckets eqb key (docs ++ [e])
  = addToBucket eqb (key e) e (buckets eqb key docs).
Proof. unfold buckets. now rewrite fold_left_app. Qed.

Lemma addToBucket_counts {K : Type} (sum : list float -> float)
  (eqb : K -> K -> bool) (k : K) (e : Expense)
  (acc : list (K * list Expense)) :
  sumZ (map Rollup.count (map (rollup sum) (addToBucket eqb k e acc)))
  = sumZ (map Rollup.count (map (rollup sum) acc)) + 1.
Proof.
  induction acc as [|[k' es] rest IH]; simpl; [reflexivity|].
  destruct (eqb k' k); simpl.
  - rewrite length_app. simpl. lia.
  - rewrite IH. lia.
Qed.

(** The counts of the groups add up to the number of the documents. *)
Lemma buckets_counts {K : Type} (sum : list float -> float)
  (eqb : K -> K -> bool) (key : Expense -> K) (docs : list Expense) :
  sumZ (map Rollup.count (map (rollup sum) (buckets eqb key docs)))
  = Z.of_nat (List.length docs).
Proof.
  induction docs as [|e docs IH] using rev_ind; [reflexivity|].
  rewrite buckets_snoc, addToBucket_counts, IH, length_app. simpl. lia.
Qed.

Lemma addToBucket_flat {K : Type} (eqb : K -> K -> bool) (k : K)
  (e : Expense) (acc : list (K * list Expense)) :
  Permutation (flat_map snd (addToBucket eqb k e acc))
    (e :: flat_map snd acc).
Proof.
  induction acc as [|[k' es] rest IH]; simpl; [reflexivity|].
  destruct (eqb k' k); simpl.
  - rewrite <- app_assoc. simpl.
    rewrite <- Permutation_middle. reflexivity.
  - rewrite IH. rewrite <- Permutation_middle. reflexivity.
Qed.

(** The groups split the documents: every document is in one bucket, once. *)
Lemma buckets_flat {K : Type} (eqb : K -> K -> bool) (key : Expense -> K)
  (docs : list Expense) :
  Permutation (flat_map snd (buckets eqb key docs)) docs.
Proof.
  induction docs as [|e docs IH] using rev_ind; [reflexivity|].
  rewrite buckets_snoc, addToBucket_flat, IH.
  rewrite <- Permutation_cons_append. reflexivity.
Qed.

Section Buckets.

Context {K : Type} (eqb : K -> K -> bool) (key : Expense -> K).
Hypothesis eqb_eq : forall a b, eqb a b = true <-> a = b.

Lemma addToBucket_In (k : K) (e : Expense) (acc : list (K * list Expense))
  (k' : K) (es' : list Expense) :
  NoDup (map fst acc) ->
  In (k', es') (addToBucket eqb k e acc) ->
  (k' <> k /\ In (k', es') acc)
  \/ (k' = k
      /\ ((exists es0, In (k, es0) acc /\ es' = es0 ++ [e])
          \/ (es' = [e] /\ ~ In k (map fst acc)))).
Proof.
  induction acc as [|[k0 es0] rest IH]; simpl; intros Hnd Hin.
  - destruct Hin as [[= <- <-]|[]]. right. split; [reflexivity|]. right. auto.
  - inversion Hnd as [|? ? Hk0 Hrest]; subst.
    destruct (eqb k0 k) eqn:Hk.
    + apply eqb_eq in Hk. subst k0. destruct Hin as [[= <- <-]|Hin].
      * right. split; [reflexivity|]. left. exists es0. auto.
      * left. split; [|now right]. intros ->. apply Hk0.
        now apply (in_map fst) in Hin.
    + assert (Hne : k0 <> k).
      { intros ->. assert (eqb k k = true) by now apply eqb_eq. congruence. }
      destruct Hin as [[= <- <-]|Hin]; [left; auto|].
      destruct (IH Hrest Hin) as [[H1 H2]|[-> [(es1 & H1 & H2)|[H1 H2]]]].
      * left. auto.
      * right. split; [reflexivity|]. left. exists es1. auto.
      * right. split; [reflexivity|]. right. split; [exact H1|].
        intros [H|H]; [now apply Hne | now apply H2].
Qed.

Lemma addToBucket_keys (k : K) (e : Expense) (acc : list (K * list Expense)) :
  (forall k', In k' (map fst (addToBucket eqb k e acc))
              <-> In k' (map fst acc) \/ k' = k)
  /\ (NoDup (map fst acc) -> NoDup (map fst (addToBucket eqb k e acc))).
Proof.
  induction acc as [|[k0 es0] rest [IHin IHnd]]; simpl.
  - split; [intros k'; intuition|]. intros _. repeat constructor. auto.
  - destruct (eqb k0 k) eqn:Hk; simpl.
    + apply eqb_eq in Hk. subst k0. split; [intros k'; intuition|auto].
    + split.
      * intros k'. rewrite IHin. intuition.
      * intros Hnd. inversion Hnd as [|? ? Hk0 Hrest]; subst.
        constructor; [|now apply IHnd].
        rewrite IHin. intros [H| ->]; [now apply Hk0|].
        assert (eqb k k = true) by now apply eqb_eq. congruence.
Qed.

Lemma filter_none (k : K) (docs : list Expense) :
  (forall d, In d docs -> key d <> k) ->
  filter (fun d => eqb (key d) k) docs = [].
Proof.
  induction docs as [|d docs IH]; simpl; intros H; [reflexivity|].
  destruct (eqb (key d) k) eqn:Hd.
  - apply eqb_eq in Hd. exfalso. now apply (H d); auto.
  - apply IH. intros d' Hd'. apply H. now right.
Qed.

(** [$group] by [key]: one bucket per key that occurs, holding exactly the
    documents with that key. *)
Lemma buckets_spec (docs : list Expense) :
  NoDup (map fst (buckets eqb key docs))
  /\ (forall k, In k (map fst (buckets eqb key docs))
                <-> exists d, In d docs /\ key d = k)
  /\ (forall k es, In (k, es) (buckets eqb key docs) ->
                   es = filter (fun d => eqb (key d) k) docs).
Proof.
  induction docs as [|e docs (IHnd & IHkeys & IHin)] using rev_ind.
  - split; [constructor|]. split; [|intros k es []].
    intros k. simpl. split; [intros []|intros (d & [] & _)].
  - rewrite buckets_snoc.
    destruct (addToBucket_keys (key e) e (buckets eqb key docs))
      as [Hkeys Hnd].
    split; [now apply Hnd|]. split.
    + intros k. rewrite Hkeys, IHkeys. split.
      * intros [(d & Hd & Hk)| ->].
        -- exists d. split; [apply in_or_app; now left | exact Hk].
        -- exists e. split; [apply in_or_app; right; now left | reflexivity].
      * intros (d & Hd & Hk). apply in_app_or in Hd.
        destruct Hd as [Hd|[<-|[]]]; [left; eauto | right; now symmetry].
    + intros k es Hin. rewrite filter_app. simpl.
      apply addToBucket_In in Hin; [|exact IHnd].
      destruct Hin as [[Hne Hin]|[-> [(es0 & Hin & ->)|[-> Hnew]]]].
      * destruct (eqb (key e) k) eqn:Hk.
        -- apply eqb_eq in Hk. congruence.
        -- rewrite app_nil_r. now apply IHin.
      * assert (Hk : eqb (key e) (key e) = true) by now apply eqb_eq.
        rewrite Hk. f_equal. now apply IHin.
      * assert (Hk : eqb (key e) (key e) = true) by now apply eqb_eq.
        rewrite Hk. rewrite filter_none; [reflexivity|].
        intros d Hd Hkd. apply Hnew. apply IHkeys. eauto.
Qed.

End Buckets.

(** ** Joining and ranking *)

Lemma StronglySorted_impl {A : Type} (R R' : A -> A -> Prop) (l : list A) :
  (forall x y, R x y -> R' x y) ->
  StronglySorted R l -> StronglySorted R' l.
Proof.
  intros HR. induction 1 as [|x l Hs IH Hall]; constructor; [exact IH|].
  eapply Forall_impl; [|exact Hall]. intros y. apply HR.
Qed.

Lemma StronglySorted_map {A B : Type} (f : A -> B) (R : A -> A -> Prop)
  (R' : B -> B -> Prop) (l : list A) :
  (forall x y, R x y -> R' (f x) (f y)) ->
  StronglySorted R l -> StronglySorted R' (map f l).
Proof.
  intros HR. induction 1 as [|x l Hs IH Hall]; simpl; constructor;
    [exact IH|].
  apply Forall_forall. intros y Hy. apply in_map_iff in Hy.
  destruct Hy as (a & <- & Ha). rewrite Forall_forall in Hall. auto.
Qed.

Lemma filter_unique {D : Type} (docId : D -> ObjectId) (coll : list D)
  (id : ObjectId) :
  NoDup (map docId coll) ->
  In id (map docId coll) ->
  exists d, filter (fun d => (docId d =? id)%string) coll = [d]
            /\ docId d = id.
Proof.
  induction coll as [|x rest IH]; simpl; intros Hnd Hin; [contradiction|].
  inversion Hnd as [|? ? Hx Hrest]; subst.
  destruct (docId x =? id)%string eqn:Hid.
  - apply String.eqb_eq in Hid. exists x. split; [|exact Hid].
    f_equal. clear IH Hin Hnd Hrest. subst id.
    induction rest as [|y rest IH]; simpl; [reflexivity|].
    destruct (docId y =? docId x)%string eqn:Hy.
    + apply String.eqb_eq in Hy. exfalso. apply Hx. left. exact Hy.
    + apply IH. intros H. apply Hx. now right.
  - destruct Hin as [Hin|Hin].
    + apply String.eqb_neq in Hid. contradiction.
    + now apply IH.
Qed.

(** When every group refers to a document of the collection and identifiers
    are unique, [$lookup] and [$unwind] attach that document to each group
    and drop nothing. *)
Lemma lookupUnwind_total {G D : Type} (idOf : G -> ObjectId)
  (docId : D -> ObjectId) (coll : list D) (groups : list G) :
  NoDup (map docId coll) ->
  (forall g, In g groups -> In (idOf g) (map docId coll)) ->
  map fst (lookupUnwind idOf docId coll groups) = groups
  /\ Forall (fun gd => docId (snd gd) = idOf (fst gd))
       (lookupUnwind idOf docId coll groups).
Proof.
  intros Hnd. unfold lookupUnwind.
  induction groups as [|g rest IH]; simpl; intros Hin; [split; constructor|].
  destruct (filter_unique docId coll (idOf g) Hnd (Hin g (or_introl eq_refl)))
    as (d & -> & Hd).
  destruct IH as [IH1 IH2]; [intros; apply Hin; now right|].
  simpl. split; [now rewrite IH1|]. constructor; [exact Hd | exact IH2].
Qed.

Lemma refersTo_In {G D : Type} (idOf : G -> ObjectId) (docId : D -> ObjectId)
  (coll : list D) (g : G) :
  refersTo idOf docId coll g = true <-> In (idOf g) (map docId coll).
Proof.
  unfold refersTo. rewrite existsb_exists, in_map_iff.
  split; intros (d & H1 & H2).
  - apply String.eqb_eq in H2. eauto.
  - exists d. split; [exact H2|]. now apply String.eqb_eq.
Qed.

Lemma filter_no_match {D : Type} (docId : D -> ObjectId) (coll : list D)
  (id : ObjectId) :
  ~ In id (map docId coll) ->
  filter (fun d => (docId d =? id)%string) coll = [].
Proof.
  induction coll as [|x rest IH]; simpl; intros H; [reflexivity|].
  destruct (docId x =? id)%string eqn:Hx.
  - apply String.eqb_eq in Hx. exfalso. apply H. now left.
  - apply IH. intros Hin. apply H. now right.
Qed.

(** With unique identifiers, [$lookup] and [$unwind] keep the groups whose
    key names a document, in their order, and drop the others. *)
Lemma lookupUnwind_filter {G D : Type} (idOf : G -> ObjectId)
  (docId : D -> ObjectId) (coll : list D) (groups : list G) :
  NoDup (map docId coll) ->
  map fst (lookupUnwind idOf docId coll groups)
  = filter (refersTo idOf docId coll) groups.
Proof.
  intros Hnd. unfold lookupUnwind.
  induction groups as [|g rest IH]; simpl; [reflexivity|].
  rewrite map_app, IH.
  destruct (refersTo idOf docId coll g) eqn:Hg.
  - apply refersTo_In in Hg.
    destruct (filter_unique docId coll (idOf g) Hnd Hg) as (d & -> & _).
    reflexivity.
  - rewrite filter_no_match; [reflexivity|].
    intros Hin. apply refersTo_In in Hin. congruence.
Qed.

(** Every output of [$lookup] and [$unwind] is a group with a document of
    the collection that has the key of the group as its identifier. *)
Lemma lookupUnwind_joined {G D : Type} (idOf : G -> ObjectId)
  (docId : D -> ObjectId) (coll : list D) (groups : list G) :
  Forall (fun gd => In (fst gd) groups /\ In (snd gd) coll
                    /\ docId (snd gd) = idOf (fst gd))
    (lookupUnwind idOf docId coll groups).
Proof.
  apply Forall_forall. intros [g d] Hin. unfold lookupUnwind in Hin.
  apply in_flat_map in Hin. destruct Hin as (g' & Hg & Hin).
  apply in_map_iff in Hin. destruct Hin as (d' & [= <- <-] & Hd).
  apply filter_In in Hd. destruct Hd as [Hd Hid].
  apply String.eqb_eq in Hid. simpl. auto.
Qed.

Lemma nth_error_mapi {A B : Type} (f : A -> Z -> B) (l : list A) (i : Z)
  (n : nat) :
  nth_error (mapi f i l) n
  = option_map (fun x => f x (i + Z.of_nat n)) (nth_error l n).
Proof.
  revert i n. induction l as [|x rest IH]; intros i [|n]; simpl;
    try reflexivity.
  - now rewrite Z.add_0_r.
  - rewrite IH. destruct (nth_error rest n); simpl; [|reflexivity].
    do 2 f_equal. lia.
Qed.

Lemma map_mapi {A B C : Type} (g : B -> C) (f : A -> Z -> B) (h : A -> C)
  (l : list A) (i : Z) :
  (forall x j, g (f x j) = h x) ->
  map g (mapi f i l) = map h l.
Proof.
  intros H. revert i. induction l as [|x rest IH]; intros i; simpl;
    [reflexivity|].
  now rewrite H, IH.
Qed.

(** ** The reports *)

Lemma Category_eqb_eq (a b : Category) : Category_eqb a b = true <-> a = b.
Proof.
  unfold Category_eqb. rewrite String.eqb_eq.
  split; [|now intros ->]. destruct a, b; simpl; congruence.
Qed.

Lemma MonthKey_eqb_eq (a b : MonthKey.t) : MonthKey.eqb a b = true <-> a = b.
Proof.
  unfold MonthKey.eqb. destruct a as [m y], b as [m' y']; simpl.
  rewrite andb_true_iff, !Z.eqb_eq. split; [intros [-> ->]|intros [= -> ->]];
    auto.
Qed.

Lemma rollup_in_buckets {K : Type} (sum : list float -> float)
  (eqb : K -> K -> bool) (key : Expense -> K) (docs : list Expense)
  (g : Rollup.t K) :
  (forall a b, eqb a b = true <-> a = b) ->
  In g (map (rollup sum) (buckets eqb key docs)) ->
  let es := filter (fun d => eqb (key d) (Rollup._id g)) docs in
  Rollup.total g = sum (map amount es)
  /\ Rollup.count g = Z.of_nat (List.length es)
  /\ exists d, In d docs /\ key d = Rollup._id g.
Proof.
  intros Heq Hin. apply in_map_iff in Hin. destruct Hin as ([k es'] & <- & Hb).
  destruct (buckets_spec eqb key Heq docs) as (_ & Hkeys & Hspec).
  simpl. rewrite <- (Hspec k es' Hb). repeat split.
  apply Hkeys. now apply (in_map fst) in Hb.
Qed.

(** The groups of a [$group] stage with its [$sum] accumulators, in whatever
    order they come, are the rollup of the documents. *)
Lemma groups_are_rollup {K : Type} (sum : list float -> float)
  (eqb : K -> K -> bool) (key : Expense -> K) (docs : list Expense)
  (groups : list (Rollup.t K)) :
  (forall a b, eqb a b = true <-> a = b) ->
  Permutation groups (map (rollup sum) (buckets eqb key docs)) ->
  isRollupOf sum eqb key docs groups.
Proof.
  intros Heq Hperm.
  destruct (buckets_spec eqb key Heq docs) as (Hnd & Hkeys & _).
  assert (Hids : Permutation (map Rollup._id groups)
                   (map fst (buckets eqb key docs))).
  { rewrite (Permutation_map Rollup._id Hperm), map_map. reflexivity. }
  split; [|split].
  - apply (Permutation_NoDup (l := map fst (buckets eqb key docs)));
      [now symmetry | exact Hnd].
  - intros k. rewrite <- Hkeys. split; apply Permutation_in;
      [exact Hids | now symmetry].
  - intros g Hg same. apply (Permutation_in _ Hperm) in Hg.
    destruct (rollup_in_buckets sum eqb key docs g Heq Hg) as (H1 & H2 & _).
    split; assumption.
Qed.

Lemma filter_twice {A : Type} (f g : A -> bool) (l : list A) :
  filter (fun x => f x && g x) l = filter g (filter f l).
Proof.
  induction l as [|x l IH]; simpl; [reflexivity|].
  destruct (f x); simpl; [|exact IH].
  destruct (g x); now rewrite IH.
Qed.

Lemma flat_map_after_map {A B C : Type} (f : A -> B) (g : B -> list C)
  (l : list A) :
  flat_map g (map f l) = flat_map (fun x => g (f x)) l.
Proof. induction l as [|x l IH]; simpl; [reflexivity|]. now rewrite IH. Qed.

Lemma flat_map_agree {A B : Type} (f g : A -> list B) (l : list A) :
  (forall x, In x l -> f x = g x) -> flat_map f l = flat_map g l.
Proof.
  induction l as [|x l IH]; simpl; intros H; [reflexivity|].
  rewrite (H x), IH; auto.
Qed.

(** [array.reduce((sum, item) => sum + f(item), a)] *)
Lemma fold_left_add {A : Type} (f : A -> float) (l : list A) (a : float) :
  fold_left (fun sum item => (sum + f item)%float) l a
  = fold_left PrimFloat.add (map f l) a.
Proof.
  revert a. induction l as [|x l IH]; intros a; simpl; [reflexivity|].
  apply IH.
Qed.

Section Reports.

Variable arrange : forall A : Type, list A -> list A.
Hypothesis arrange_perm : forall (A : Type) (l : list A),
    Permutation (arrange A l) l.
Variable accumulate : list float -> float.

(** C6 (amended). For the expenses of a year, the status groups split the
    records: there is one group for each status that occurs and no other,
    every record is in the group of its status and in no other, and the
    counts of the groups add up to the number of the records; the total of a
    group is what the store's accumulator makes of the amounts of exactly
    the records with that status; and [totalExpenses] is the floating-point
    sum of the group totals, added one after the other from 0 in the order
    in which the store emits the groups. *)
Theorem status_groups_partition (db : Db) (now : Date)
  (asked : option string) :
  let summary := getFinancialSummary arrange accumulate db now asked in
  let year :=
    match asked with
    | Some y => if (y =? EmptyString)%string then getFinancialYear now else y
    | None => getFinancialYear now
    end in
  let records :=
    filter (fun e => (rotaractYear e =? year)%string) (expenses db) in
  let withStatus s := filter (fun e => Status_eqb (status e) s) records in
  let groups := Summary.expensesByStatus summary in
  NoDup (map Rollup._id groups)
  /\ (forall s, In s (map Rollup._id groups)
                <-> exists e, In e records /\ status e = s)
  /\ (forall g, In g groups ->
        Rollup.total g = accumulate (map amount (withStatus (Rollup._id g)))
        /\ Rollup.count g
           = Z.of_nat (List.length (withStatus (Rollup._id g))))
  /\ Permutation (flat_map (fun g => withStatus (Rollup._id g)) groups)
       records
  /\ sumZ (map Rollup.count groups) = Z.of_nat (List.length records)
  /\ Totals.totalExpenses (Summary.totals summary)
     = fold_left PrimFloat.add (map Rollup.total groups) zero.
Proof.
  intros summary year records withStatus groups.
  set (bs := buckets Status_eqb status records).
  assert (Hperm : Permutation groups (map (rollup accumulate) bs))
    by apply arrange_perm.
  destruct (groups_are_rollup accumulate Status_eqb status records groups
              Status_eqb_eq Hperm) as (Hnd & Hkeys & Hgroups).
  split; [exact Hnd|]. split; [exact Hkeys|]. split; [exact Hgroups|].
  split.
  { transitivity (flat_map (fun g => withStatus (Rollup._id g))
                    (map (rollup accumulate) bs));
      [now apply Permutation_flat_map|].
    assert (Hsame : flat_map (fun g => withStatus (Rollup._id g))
                      (map (rollup accumulate) bs)
                    = flat_map snd bs).
    { rewrite flat_map_after_map.
      apply flat_map_agree. intros [k es] Hb. simpl.
      destruct (buckets_spec Status_eqb status Status_eqb_eq records)
        as (_ & _ & Hspec).
      symmetry. now apply Hspec. }
    rewrite Hsame. apply buckets_flat. }
  split.
  { rewrite <- (buckets_counts accumulate Status_eqb status records).
    apply sumZ_perm. now apply Permutation_map. }
  unfold summary, getFinancialSummary.
  cbn [Summary.totals Totals.totalExpenses].
  apply fold_left_add.
Qed.

End Reports.

Lemma status_groups_partition_witness :
  Number_toString
    (Totals.totalExpenses
       (Summary.totals
          (getFinancialSummary firstSeen plainSum
             (sampleDb
                [sampleExpense expenseA alice travel_expense 1500 pending;
                 sampleExpense expenseB bob donation 250 approved;
                 sampleExpense expenseC alice accommodation 40 pending])
             noon None)))
  = "1790".
Proof.
  rewrite (proj2 (proj2 (proj2 (proj2 (proj2
    (status_groups_partition firstSeen (fun A l => Permutation_refl l)
       plainSum (sampleDb _) noon None)))))).
  reflexivity.
Defined.

(** As the specification words it, the property fails: amounts are binary
    floating-point numbers, and so are their sums.  Two expenses of 1.10 and
    2.20 in two statuses: whatever the order of the groups, [totalExpenses]
    is 3.3000000000000003, which is not the decimal sum 3.30.  Three
    expenses of 1500.10, 40.30 and 10.10 in three statuses: folded in the
    order of first occurrence of the statuses the group totals give
    1550.4999999999998, folded in the opposite order they give 1550.5; the
    first differs from the decimal sum of the amounts, 1550.50, and the
    second from the sum of the amounts added in the order of the records. *)
Lemma status_totals_are_floating_point :
  let two :=
    sampleDb
      [sampleExpense expenseA alice travel_expense
         (Number_of_string "1.10") pending;
       sampleExpense expenseB bob donation
         (Number_of_string "2.20") approved] in
  let three :=
    sampleDb
      [sampleExpense expenseA alice travel_expense
         (Number_of_string "1500.10") pending;
       sampleExpense expenseB bob donation
         (Number_of_string "40.30") approved;
       sampleExpense expenseC alice accommodation
         (Number_of_string "10.10") rejected] in
  let totalExpenses arrange db :=
    Totals.totalExpenses
      (Summary.totals (getFinancialSummary arrange plainSum db noon None)) in
  Number_toString (totalExpenses firstSeen two) = "3.3000000000000003"
  /\ Number_toString (totalExpenses lastSeen two) = "3.3000000000000003"
  /\ (totalExpenses firstSeen two =? Number_of_string "3.30")%float = false
  /\ Number_toString (totalExpenses firstSeen three) = "1550.4999999999998"
  /\ Number_toString (totalExpenses lastSeen three) = "1550.5"
  /\ (totalExpenses firstSeen three =? Number_of_string "1550.50")%float
     = false
  /\ Number_toString (plainSum (map amount (expenses three)))
     = "1550.4999999999998"
  /\ (totalExpenses lastSeen three
      =? plainSum (map amount (expenses three)))%float
     = false.
Proof. vm_compute. repeat split. Qed.

(** As the specification words it, the property fails: the status rollup
    goes through no [$sort] stage, so with the groups emitted in order of
    first occurrence, a pending expense of 10 followed by an approved one of
    100 gives the smaller total first; and no pipeline breaks ties by key:
    two categories with equal totals come out as the store and the stable
    sort leave them, here [travel_expense] before [accommodation]. *)
Lemma rollups_not_sorted_as_specified :
  orderedb (totalDescThenKey Status_name)
    (Summary.expensesByStatus
       (getFinancialSummary firstSeen plainSum
          (sampleDb [sampleExpense expenseA alice donation 10 pending;
                     sampleExpense expenseB bob donation 100 approved])
          noon None))
  = false
  /\ map (fun g => (Rollup._id g, Rollup.total g))
       (Summary.expensesByCategory
          (getFinancialSummary firstSeen plainSum
             (sampleDb [sampleExpense expenseA alice travel_expense 50 pending;
                        sampleExpense expenseB bob accommodation 50 pending])
             noon None))
     = [(travel_expense, 50%float); (accommodation, 50%float)]
  /\ orderedb (totalDescThenKey Category_name)
       (Summary.expensesByCategory
          (getFinancialSummary firstSeen plainSum
             (sampleDb [sampleExpense expenseA alice travel_expense 50 pending;
                        sampleExpense expenseB bob accommodation 50 pending])
             noon None))
     = false.
Proof. vm_compute. repeat split. Qed.

Lemma sortBy_totalDesc {K : Type} (l : list (Rollup.t K)) :
  StronglySorted byTotalDesc (sortBy totalDesc l).
Proof.
  apply (StronglySorted_impl (ordered totalDesc)).
  - intros x y H. exact H.
  - apply sortBy_sorted; [apply totalDesc_total | apply totalDesc_trans].
Qed.

Lemma byTotalDesc_refl {K : Type} (g : Rollup.t K) : byTotalDesc g g.
Proof. apply numberLe_refl. Qed.

Section Ordering.

Variable arrange : forall A : Type, list A -> list A.
Hypothesis arrange_perm : forall (A : Type) (l : list A),
    Permutation (arrange A l) l.
Variable accumulate : list float -> float.

(** What [$sort], [$limit], [$lookup] and [$unwind] make of the groups of a
    [$group] stage: the groups are ranked by total, the first [n] of the
    ranking are taken, and each is given the document its key names. *)
Lemma ranked_and_joined {D : Type} (docId : D -> ObjectId) (coll : list D)
  (key : Expense -> ObjectId) (docs : list Expense) (n : nat) :
  let joined :=
    lookupUnwind Rollup._id docId coll
      (firstn n
         (sortBy totalDesc
            (arrange _ (map (rollup accumulate)
                          (buckets String.eqb key docs))))) in
  exists ranking,
    isRollupOf accumulate String.eqb key docs ranking
    /\ StronglySorted byTotalDesc ranking
    /\ Forall (fun gd => In (fst gd) (firstn n ranking)
                         /\ In (snd gd) coll
                         /\ docId (snd gd) = Rollup._id (fst gd)) joined
    /\ StronglySorted byTotalDesc (map fst joined)
    /\ (NoDup (map docId coll) ->
        map fst joined
        = filter (refersTo Rollup._id docId coll) (firstn n ranking)).
Proof.
  intros joined.
  set (ranking := sortBy totalDesc
                    (arrange _ (map (rollup accumulate)
                                  (buckets String.eqb key docs)))).
  exists ranking. split.
  { apply groups_are_rollup; [apply String.eqb_eq|].
    etransitivity; [apply sortBy_perm | apply arrange_perm]. }
  split; [apply sortBy_totalDesc|].
  split; [apply lookupUnwind_joined|].
  split.
  { apply lookupUnwind_sorted; [apply byTotalDesc_refl|].
    apply StronglySorted_firstn, sortBy_totalDesc. }
  intros Hnd. now apply lookupUnwind_filter.
Qed.

(** C5 (amended). In the financial summary, the category, month and status
    rollups of the expenses of the year hold one [{_id, total, count}] group
    for each key that occurs, with the accumulated amounts and the number of
    the records of that key; the category rollup is sorted by total, largest
    first, with no rule for equal totals; the month rollup is sorted by
    year, then month; the status rollup comes in the order the store emits
    the groups.  The event rollup and the top contributors (the member
    rollup of the approved, reimbursed and paid records) are not complete:
    the groups are ranked by total, largest first, with no rule for equal
    totals, the first 10 of the ranking are kept, and of these the ones
    whose event or member exists are listed, in that order, each with that
    document. *)
Theorem rollups_order (db : Db) (now : Date) (asked : option string) :
  let summary := getFinancialSummary arrange accumulate db now asked in
  let year :=
    match asked with
    | Some y => if (y =? EmptyString)%string then getFinancialYear now else y
    | None => getFinancialYear now
    end in
  let records :=
    filter (fun e => (rotaractYear e =? year)%string) (expenses db) in
  let yearMonth e := MonthKey.mk (monthOfYear (date e)) (fullYear (date e)) in
  isRollupOf accumulate Category_eqb category records
    (Summary.expensesByCategory summary)
  /\ StronglySorted byTotalDesc (Summary.expensesByCategory summary)
  /\ isRollupOf accumulate MonthKey.eqb yearMonth records
       (Summary.expensesByMonth summary)
  /\ StronglySorted byYearMonth (Summary.expensesByMonth summary)
  /\ isRollupOf accumulate Status_eqb status records
       (Summary.expensesByStatus summary)
  /\ (exists ranking,
         isRollupOf accumulate String.eqb event records ranking
         /\ StronglySorted byTotalDesc ranking
         /\ Forall (fun gd => In (fst gd) (firstn 10 ranking)
                              /\ In (snd gd) (events db)
                              /\ Event._id (snd gd) = Rollup._id (fst gd))
              (Summary.expensesByEvent summary)
         /\ StronglySorted byTotalDesc
              (map fst (Summary.expensesByEvent summary))
         /\ (NoDup (map Event._id (events db)) ->
             map fst (Summary.expensesByEvent summary)
             = filter (refersTo Rollup._id Event._id (events db))
                 (firstn 10 ranking)))
  /\ (exists ranking,
         isRollupOf accumulate String.eqb member
           (filter (fun e => contributing (status e)) records) ranking
         /\ StronglySorted byTotalDesc ranking
         /\ Forall (fun gd => In (fst gd) (firstn 10 ranking)
                              /\ In (snd gd) (users db)
                              /\ User._id (snd gd) = Rollup._id (fst gd))
              (Summary.topContributors summary)
         /\ StronglySorted byTotalDesc
              (map fst (Summary.topContributors summary))
         /\ (NoDup (map User._id (users db)) ->
             map fst (Summary.topContributors summary)
             = filter (refersTo Rollup._id User._id (users db))
                 (firstn 10 ranking))).
Proof.
  intros summary year records yearMonth.
  split.
  { apply groups_are_rollup; [apply Category_eqb_eq|].
    etransitivity; [apply sortBy_perm | apply arrange_perm]. }
  split; [apply sortBy_totalDesc|].
  split.
  { apply groups_are_rollup; [apply MonthKey_eqb_eq|].
    etransitivity; [apply sortBy_perm | apply arrange_perm]. }
  split.
  { apply (StronglySorted_impl (ordered chronological)).
    - intros x y H. unfold ordered, chronological in H.
      rewrite orb_true_iff, andb_true_iff, Z.ltb_lt, Z.eqb_eq, Z.leb_le in H.
      exact H.
    - apply sortBy_sorted;
        [apply chronological_total | apply chronological_trans]. }
  split.
  { apply groups_are_rollup; [apply Status_eqb_eq | apply arrange_perm]. }
  split.
  { apply (ranked_and_joined Event._id (events db) event records 10). }
  unfold summary, getFinancialSummary. cbn [Summary.topContributors].
  unfold topContributors, matchContributing.
  rewrite filter_twice.
  apply (ranked_and_joined User._id (users db) member
           (filter (fun e => contributing (status e)) records) 10).
Qed.

End Ordering.

Lemma rollups_order_witness :
  StronglySorted byTotalDesc
    (Summary.expensesByCategory
       (getFinancialSummary firstSeen plainSum
          (sampleDb [sampleExpense expenseA alice travel_expense 50 pending;
                     sampleExpense expenseB bob accommodation 75 pending])
          noon None)).
Proof.
  exact (proj1 (proj2 (rollups_order firstSeen
                         (fun A l => Permutation_refl l) plainSum
                         (sampleDb _) noon None))).
Defined.

(** Three expenses of 100, 50 and 25 in two categories: the category with
    125 in two expenses comes first. *)
Example category_rollup_scenario :
  Summary.expensesByCategory
    (getFinancialSummary firstSeen plainSum
       (sampleDb [sampleExpense expenseA alice travel_expense 100 pending;
                  sampleExpense expenseB bob donation 50 approved;
                  sampleExpense expenseC alice travel_expense 25 rejected])
       noon None)
  = [Rollup.mk travel_expense 125 2; Rollup.mk donation 50 1].
Proof. reflexivity. Qed.

(** The first ten of the ranking are taken before the events are looked
    up: an event that no longer exists takes a place and is then dropped. *)
Example event_rollup_drops_unknown_events :
  map (fun gd => (Rollup._id (fst gd), Rollup.total (fst gd)))
    (Summary.expensesByEvent
       (getFinancialSummary firstSeen plainSum
          (mkDb [sampleExpense expenseA alice travel_expense 100 pending;
                 set_event expenseC
                   (sampleExpense expenseB bob donation 500 approved)]
             [Event.mk gala "Gala" 10000] [] [])
          noon None))
  = [(gala, 100%float)].
Proof. reflexivity. Qed.

Lemma contributing_iff (s : Status) :
  contributing s = true <-> s = approved \/ s = reimbursed \/ s = paid.
Proof.
  destruct s; simpl; split; try discriminate; auto;
    intros [H|[H|H]]; discriminate.
Qed.

Lemma In_firstn {A : Type} (n : nat) (l : list A) (x : A) :
  In x (firstn n l) -> In x l.
Proof.
  intros H. rewrite <- (firstn_skipn n l). apply in_or_app. now left.
Qed.

Section Ranking.

Variable arrange : forall A : Type, list A -> list A.
Hypothesis arrange_perm : forall (A : Type) (l : list A),
    Permutation (arrange A l) l.
Variable accumulate : list float -> float.

(** C7. With unique user identifiers and every expense submitted by an
    existing user: the member rollups of a year cover exactly the expenses
    of that year whose status is approved, reimbursed or paid, one rollup
    per member with the accumulated amounts and the number of that member's
    expenses; the
    top contributors of the financial summary are the first 10 of a ranking
    of these rollups by total, largest first, each with its member
    attached; the leaderboard is the first 20 of such a ranking, and the
    rank of its n-th entry (counting from 0) is n + 1. *)
Theorem top_contributors_ranked (db : Db) (now : Date)
  (asked : option string) :
  NoDup (map User._id (users db)) ->
  (forall e, In e (expenses db) -> In (member e) (map User._id (users db))) ->
  let year := yearOf asked now in
  let counted := matchContributing year (expenses db) in
  let all := memberRollups accumulate year (expenses db) in
  let top := Summary.topContributors
               (getFinancialSummary arrange accumulate db now asked) in
  let board := getLeaderboard arrange accumulate db now asked in
  (forall e, In e counted <->
             In e (expenses db) /\ rotaractYear e = year
             /\ (status e = approved \/ status e = reimbursed
                 \/ status e = paid))
  /\ (forall g, In g all ->
        let own := filter (fun e => (member e =? Rollup._id g)%string)
                     counted in
        Rollup.total g = accumulate (map amount own)
        /\ Rollup.count g = Z.of_nat (List.length own))
  /\ NoDup (map Rollup._id all)
  /\ (exists ranking, isRanking ranking all /\ map fst top = firstn 10 ranking)
  /\ Forall (fun entry => User._id (snd entry) = Rollup._id (fst entry)) top
  /\ (exists ranking,
         isRanking ranking all /\ map entryRollup board = firstn 20 ranking)
  /\ (forall n entry, nth_error board n = Some entry ->
                      Leader.rank entry = Z.of_nat n + 1).
Proof.
  intros Hnd Href year counted all top board.
  set (bs := buckets String.eqb member counted).
  destruct (buckets_spec String.eqb member String.eqb_eq counted)
    as (Hbnd & Hkeys & _). fold bs in Hbnd, Hkeys.
  assert (Hcounted : forall d, In d counted -> In d (expenses db)).
  { intros d Hd. apply filter_In in Hd. tauto. }
  assert (Huser : forall k, In k (map fst bs) ->
                            In k (map User._id (users db))).
  { intros k Hk. apply Hkeys in Hk. destruct Hk as (d & Hd & <-). auto. }
  split.
  { intros e. unfold counted, matchContributing.
    rewrite filter_In, andb_true_iff, String.eqb_eq, contributing_iff.
    tauto. }
  split.
  { intros g Hg own.
    destruct (rollup_in_buckets accumulate String.eqb member counted g
                String.eqb_eq Hg) as (H1 & H2 & _).
    split; assumption. }
  split.
  { unfold all, memberRollups. fold counted. fold bs.
    rewrite map_map. exact Hbnd. }
  split.
  { set (ranking := sortBy totalDesc (arrange _ (map (rollup accumulate) bs))).
    exists ranking. split.
    - split; [|apply sortBy_totalDesc].
      etransitivity; [apply sortBy_perm | apply arrange_perm].
    - apply lookupUnwind_total; [exact Hnd|].
      intros g Hg. apply In_firstn in Hg.
      apply (Permutation_in _ (sortBy_perm _ _)) in Hg.
      apply (Permutation_in _ (arrange_perm _ _)) in Hg.
      apply Huser. apply in_map_iff in Hg.
      destruct Hg as (b & <- & Hb). simpl. now apply in_map. }
  split.
  { apply lookupUnwind_total; [exact Hnd|].
    intros g Hg. apply In_firstn in Hg.
    apply (Permutation_in _ (sortBy_perm _ _)) in Hg.
    apply (Permutation_in _ (arrange_perm _ _)) in Hg.
    apply Huser. apply in_map_iff in Hg.
    destruct Hg as (b & <- & Hb). simpl. now apply in_map. }
  split.
  { set (asRollup := fun g => Rollup.mk (Leader.g_id g)
                               (Leader.g_totalContribution g)
                               (Leader.g_expenseCount g)).
    set (leaders := sortBy leaderDesc
                      (arrange _ (map (leaderGroup accumulate) bs))).
    exists (map asRollup leaders). split; [split|].
    - unfold all, memberRollups. fold counted. fold bs.
      replace (map (rollup accumulate) bs)
        with (map asRollup (map (leaderGroup accumulate) bs))
        by (rewrite map_map; reflexivity).
      apply Permutation_map.
      etransitivity; [apply sortBy_perm | apply arrange_perm].
    - apply (StronglySorted_map asRollup (ordered leaderDesc)).
      + intros x y H. exact H.
      + apply sortBy_sorted; [apply leaderDesc_total | apply leaderDesc_trans].
    - unfold board, getLeaderboard.
      rewrite (map_mapi entryRollup _ (fun item => asRollup (fst item)))
        by reflexivity.
      rewrite firstn_map, <- (map_map fst asRollup). f_equal.
      apply lookupUnwind_total; [exact Hnd|].
      intros g Hg. apply In_firstn in Hg.
      apply (Permutation_in _ (sortBy_perm _ _)) in Hg.
      apply (Permutation_in _ (arrange_perm _ _)) in Hg.
      apply Huser. apply in_map_iff in Hg.
      destruct Hg as (b & <- & Hb). simpl. now apply in_map. }
  intros n entry. unfold board, getLeaderboard. rewrite nth_error_mapi.
  match goal with
  | |- context [nth_error ?l n] => destruct (nth_error l n); simpl
  end; [|discriminate].
  intros [= <-]. simpl. lia.
Qed.

End Ranking.

Lemma top_contributors_ranked_witness :
  let db := sampleDb [sampleExpense expenseA alice travel_expense 300 approved;
                      sampleExpense expenseB bob donation 500 paid;
                      sampleExpense expenseC alice accommodation 900 pending] in
  NoDup (map User._id (users db))
  /\ (forall e, In e (expenses db) -> In (member e) (map User._id (users db)))
  /\ map (fun l => (Leader.rank l, Leader._id l, Leader.totalContribution l))
       (getLeaderboard firstSeen plainSum db noon None)
     = [(1, bob, 500%float); (2, alice, 300%float)]
  /\ exists ranking,
       isRanking ranking (memberRollups plainSum "2025-2026" (expenses db))
       /\ map entryRollup (getLeaderboard firstSeen plainSum db noon None)
          = firstn 20 ranking.
Proof.
  intros db.
  assert (Hnd : NoDup (map User._id (users db))).
  { repeat constructor; simpl; intuition discriminate. }
  assert (Href : forall e, In e (expenses db) ->
                           In (member e) (map User._id (users db))).
  { intros e [<-|[<-|[<-|[]]]]; simpl; auto. }
  split; [exact Hnd|]. split; [exact Href|]. split; [reflexivity|].
  exact (proj1 (proj2 (proj2 (proj2 (proj2 (proj2
    (top_contributors_ranked firstSeen
       (fun A l => Permutation_refl l) plainSum db noon None Hnd
       Href))))))).
Defined.

(** * Further properties *)

(** ** The Rotaract year label *)

Lemma string_of_uint_digits (u : Decimal.uint) :
  ~ In "-"%char (list_ascii_of_string (NilEmpty.string_of_uint u)).
Proof.
  induction u; simpl; [tauto| | | | | | | | | |];
    (intros [H|H]; [discriminate | now apply IHu]).
Qed.

Lemma string_of_Z_digits (z : Z) :
  0 <= z -> ~ In "-"%char (list_ascii_of_string (string_of_Z z)).
Proof.
  intros Hz. unfold string_of_Z.
  destruct z as [|p|p]; [| |lia].
  - simpl. intros [H|[]]. discriminate.
  - simpl. destruct (Pos.to_uint p);
      try match goal with
          | |- context [NilZero.string_of_uint ?d] =>
              apply (string_of_uint_digits d)
          end.
    simpl. intros [H|[]]. discriminate.
Qed.

Lemma string_of_Z_inj (a b : Z) : string_of_Z a = string_of_Z b -> a = b.
Proof.
  unfold string_of_Z. intros H.
  assert (Hn : forall z, Z.to_int z <> Decimal.Pos Decimal.Nil
                         /\ Z.to_int z <> Decimal.Neg Decimal.Nil).
  { intros z. destruct z as [|p|p]; simpl; split; try discriminate;
      intros [= Hp]; now apply (DecimalPos.Unsigned.to_uint_nonnil p). }
  apply DecimalZ.to_int_inj.
  assert (Ha := NilZero.isi (Z.to_int a) (proj1 (Hn a)) (proj2 (Hn a))).
  assert (Hb := NilZero.isi (Z.to_int b) (proj1 (Hn b)) (proj2 (Hn b))).
  rewrite H in Ha. congruence.
Qed.

Lemma append_dash_inj (s1 s2 t1 t2 : string) :
  ~ In "-"%char (list_ascii_of_string s1) ->
  ~ In "-"%char (list_ascii_of_string s2) ->
  (s1 ++ "-" ++ t1 = s2 ++ "-" ++ t2)%string ->
  s1 = s2.
Proof.
  revert s2. induction s1 as [|c s1 IH]; intros [|c2 s2]; simpl;
    intros H1 H2 H.
  - reflexivity.
  - injection H as Hc _. exfalso. apply H2. left. now symmetry.
  - injection H as Hc _. exfalso. apply H1. now left.
  - injection H as -> H. f_equal. apply IH; auto.
Qed.

(** X1. Two dates of year 1 or later get the same Rotaract year label exactly
    when their Rotaract years start in the same calendar year, July to
    December counting with the current year and January to June with the
    year before; the label is that year, a dash, and the next year. *)
Theorem getFinancialYear_same_label (d1 d2 : Date) :
  1 <= fullYear d1 -> 1 <= fullYear d2 ->
  (getFinancialYear d1 = getFinancialYear d2
   <-> rotaractYearStart d1 = rotaractYearStart d2)
  /\ getFinancialYear d1
     = (string_of_Z (rotaractYearStart d1) ++ "-"
        ++ string_of_Z (rotaractYearStart d1 + 1))%string.
Proof.
  intros H1 H2.
  assert (Hlabel : forall d,
             getFinancialYear d
             = (string_of_Z (rotaractYearStart d) ++ "-"
                ++ string_of_Z (rotaractYearStart d + 1))%string).
  { intros d. unfold getFinancialYear, rotaractYearStart, getMonth,
      getFullYear.
    destruct (6 <=? monthOfYear d - 1) eqn:Ha;
      destruct (7 <=? monthOfYear d) eqn:Hb;
      try (apply Z.leb_le in Ha); try (apply Z.leb_le in Hb);
      try (apply Z.leb_gt in Ha); try (apply Z.leb_gt in Hb); try lia;
      [reflexivity|].
    now replace (fullYear d - 1 + 1) with (fullYear d) by lia. }
  split; [|apply Hlabel].
  rewrite !Hlabel. split; [|now intros ->].
  intros H. apply string_of_Z_inj.
  apply (append_dash_inj _ _ _ _) in H; [exact H| |];
    apply string_of_Z_digits; unfold rotaractYearStart;
    destruct (7 <=? _); lia.
Qed.

Lemma getFinancialYear_same_label_witness :
  getFinancialYear (mkDate 2025 7 1 0) = getFinancialYear (mkDate 2026 6 30 0)
  /\ getFinancialYear (mkDate 2025 7 1 0)
     <> getFinancialYear (mkDate 2025 6 30 0).
Proof.
  split.
  - exact (proj2 (proj1 (getFinancialYear_same_label (mkDate 2025 7 1 0)
                           (mkDate 2026 6 30 0)
                           ltac:(simpl; lia) ltac:(simpl; lia)))
             eq_refl).
  - intros H.
    pose proof (proj1 (proj1 (getFinancialYear_same_label
                                (mkDate 2025 7 1 0) (mkDate 2025 6 30 0)
                                ltac:(simpl; lia) ltac:(simpl; lia))) H)
      as Hstart.
    discriminate Hstart.
Defined.

(** ** Paging *)

(** X2. Whatever the query strings are, when [paginate] yields numbers the
    page is at least 1, the limit is between 1 and 100 and the number of
    documents to skip is (page - 1) * limit, never negative; an absent page
    is page 1 and an absent limit is 10; the result is a number exactly
    when the given strings parse. *)
Theorem paginate_bounds (parseInt : string -> option Z)
  (page limit : option string) :
  let r := paginate parseInt page limit in
  (forall p l,
      Paging.page r = Some p -> Paging.limit r = Some l ->
      1 <= p /\ 1 <= l <= 100
      /\ Paging.skip r = Some ((p - 1) * l) /\ 0 <= (p - 1) * l)
  /\ (page = None -> Paging.page r = Some 1)
  /\ (limit = None -> Paging.limit r = Some 10)
  /\ (forall s, page = Some s ->
                (Paging.page r = None <-> parseInt s = None))
  /\ (forall s, limit = Some s ->
                (Paging.limit r = None <-> parseInt s = None)).
Proof.
  unfold paginate, mathMin, mathMax. cbn [Paging.page Paging.limit Paging.skip].
  split; [|split; [|split; [|split]]].
  - intros p l Hp Hlim.
    destruct (match page with Some s => parseInt s | None => Some 1 end)
      as [p0|]; [|discriminate].
    destruct (match limit with Some s => parseInt s | None => Some 10 end)
      as [l0|]; [|discriminate].
    simpl in *. injection Hp as <-. injection Hlim as <-.
    repeat split; nia.
  - now intros ->.
  - now intros ->.
  - intros s ->. destruct (parseInt s); simpl; split; congruence.
  - intros s ->. destruct (parseInt s); simpl; split; congruence.
Qed.

Lemma totalPages_ceil (total page limit : Z) :
  0 < limit ->
  Pagination.totalPages (paginationResponse total page limit)
  = (total + limit - 1) / limit.
Proof.
  intros Hl. destruct limit as [|p|p]; try lia.
  unfold paginationResponse. cbn [Pagination.totalPages].
  unfold Qround.Qceiling, Qround.Qfloor, QArith_base.Qdiv, QArith_base.Qmult,
    QArith_base.Qinv, QArith_base.Qopp, QArith_base.inject_Z. simpl.
  rewrite Z.mul_1_r.
  Z.div_mod_to_equations. nia.
Qed.

Lemma firstn_add {A : Type} (a b : nat) (l : list A) :
  firstn (a + b) l = firstn a l ++ firstn b (skipn a l).
Proof.
  revert l. induction a as [|a IH]; intros [|x l]; simpl; try reflexivity.
  - now rewrite firstn_nil.
  - now rewrite IH.
Qed.

Lemma pages_concat {A : Type} (k n : nat) (l : list A) :
  List.concat (map (fun p => firstn k (skipn ((p - 1) * k) l)) (seq 1 n))
  = firstn (n * k) l.
Proof.
  induction n as [|n IH]; [reflexivity|].
  rewrite seq_S, map_app, concat_app, IH. simpl.
  rewrite app_nil_r, Nat.sub_0_r.
  replace (k + n * k)%nat with (n * k + k)%nat by lia.
  now rewrite firstn_add.
Qed.

(** X3. A listing with a limit of at least 1: the pages 1 to [totalPages],
    each cut out by skip((page - 1) * limit) and limit(limit), put one after
    the other give back the whole list of matches; [totalPages] is the
    least number of pages that holds them all; a page holds at most [limit]
    documents, is empty exactly beyond [totalPages], and [hasNextPage] is
    true exactly before the last page. *)
Theorem pages_tile {A : Type} (matched : list A) (limit : Z) :
  1 <= limit ->
  let total := Z.of_nat (List.length matched) in
  let pages := Pagination.totalPages (paginationResponse total 1 limit) in
  List.concat (map (fun p => fst (listPage matched (Z.of_nat p) limit))
                 (seq 1 (Z.to_nat pages)))
  = matched
  /\ (pages - 1) * limit < total <= pages * limit
  /\ forall page,
       1 <= page ->
       let result := listPage matched page limit in
       (List.length (fst result) <= Z.to_nat limit)%nat
       /\ Pagination.totalPages (snd result) = pages
       /\ (Pagination.hasNextPage (snd result) = true <-> page < pages)
       /\ (fst result = [] <-> pages < page).
Proof.
  intros Hl total pages.
  assert (Hpages : pages = (total + limit - 1) / limit).
  { apply totalPages_ceil. lia. }
  assert (Htotal : 0 <= total) by (unfold total; lia).
  assert (Hlo : pages * limit <= total + limit - 1)
    by (rewrite Hpages; Z.div_mod_to_equations; nia).
  assert (Hhi : total + limit - 1 < (pages + 1) * limit)
    by (rewrite Hpages; Z.div_mod_to_equations; nia).
  assert (Hnn : 0 <= pages) by (rewrite Hpages; Z.div_mod_to_equations; nia).
  split; [|split].
  - unfold listPage, skipLimit. cbn [fst].
    rewrite (map_ext_in _
               (fun p => firstn (Z.to_nat limit)
                           (skipn ((p - 1) * Z.to_nat limit) matched))).
    + rewrite pages_concat. apply firstn_all2. nia.
    + intros p Hp. apply in_seq in Hp. do 2 f_equal. nia.
  - nia.
  - intros page Hpage result. unfold result, listPage, skipLimit.
    cbn [fst snd].
    split; [rewrite length_firstn; lia|].
    split; [rewrite totalPages_ceil by lia; fold total; now rewrite Hpages|].
    split.
    + unfold paginationResponse. cbn [Pagination.hasNextPage].
      rewrite Z.ltb_lt. fold total. nia.
    + set (s := Z.to_nat ((page - 1) * limit)).
      assert (Hlen : List.length (skipn s matched)
                     = (List.length matched - s)%nat) by apply length_skipn.
      split.
      * intros Hnil. apply (f_equal (@List.length A)) in Hnil.
        rewrite length_firstn, Hlen in Hnil. simpl in Hnil.
        unfold s in Hnil. nia.
      * intros Hgt. assert (Hs : skipn s matched = []).
        { apply length_zero_iff_nil. rewrite Hlen. unfold s. nia. }
        now rewrite Hs, firstn_nil.
Qed.

Lemma pages_tile_witness :
  List.concat
    (map (fun p => fst (listPage [1; 2; 3; 4; 5] (Z.of_nat p) 2))
       (seq 1 3))
  = [1; 2; 3; 4; 5].
Proof.
  exact (proj1 (pages_tile [1; 2; 3; 4; 5] 2 ltac:(lia))).
Defined.

(** ** File names *)

Lemma sanitized_char (c : ascii) :
  isSanitizedChar (toLowerCase (if isFilenameChar c then c else underscore))
  = true.
Proof. each_ascii c. Qed.

Lemma toLowerCase_underscore (c : ascii) :
  (toLowerCase c =? underscore)%char = (c =? underscore)%char.
Proof. each_ascii c. Qed.

Lemma sanitized_fixed (c : ascii) :
  isSanitizedChar c = true ->
  toLowerCase c = c /\ (if isFilenameChar c then c else underscore) = c.
Proof. each_ascii c. Qed.

Lemma collapseUnderscores_In (l : list ascii) (c : ascii) :
  In c (collapseUnderscores l) -> In c l.
Proof.
  induction l as [|x rest IH]; [auto|].
  destruct rest as [|y rest'].
  - simpl. auto.
  - change (collapseUnderscores (x :: y :: rest'))
      with (if (x =? underscore)%char && (y =? underscore)%char
            then collapseUnderscores (y :: rest')
            else x :: collapseUnderscores (y :: rest')).
    destruct ((x =? underscore)%char && (y =? underscore)%char).
    + intros H. right. now apply IH.
    + intros [->|H]; [now left | right; now apply IH].
Qed.

Lemma collapseUnderscores_length (l : list ascii) :
  (List.length (collapseUnderscores l) <= List.length l)%nat.
Proof.
  induction l as [|x rest IH]; [auto|].
  destruct rest as [|y rest'].
  - simpl. auto.
  - change (collapseUnderscores (x :: y :: rest'))
      with (if (x =? underscore)%char && (y =? underscore)%char
            then collapseUnderscores (y :: rest')
            else x :: collapseUnderscores (y :: rest')).
    destruct ((x =? underscore)%char && (y =? underscore)%char);
      simpl in *; lia.
Qed.

Lemma collapseUnderscores_head (l : list ascii) :
  hd_error (collapseUnderscores l) = hd_error l.
Proof.
  induction l as [|x rest IH]; [reflexivity|].
  destruct rest as [|y rest'].
  - reflexivity.
  - change (collapseUnderscores (x :: y :: rest'))
      with (if (x =? underscore)%char && (y =? underscore)%char
            then collapseUnderscores (y :: rest')
            else x :: collapseUnderscores (y :: rest')).
    destruct ((x =? underscore)%char && (y =? underscore)%char) eqn:E;
      [|reflexivity].
    rewrite IH. simpl. apply andb_true_iff in E. destruct E as [Ex Ey].
    apply Ascii.eqb_eq in Ex, Ey. congruence.
Qed.

Lemma noDouble_cons (x : ascii) (l : list ascii) :
  noDoubleUnderscore (x :: l)
  = match hd_error l with
    | Some y => negb ((x =? underscore)%char && (y =? underscore)%char)
                && noDoubleUnderscore l
    | None => true
    end.
Proof. destruct l; reflexivity. Qed.

Lemma collapseUnderscores_noDouble (l : list ascii) :
  noDoubleUnderscore (collapseUnderscores l) = true.
Proof.
  induction l as [|x rest IH]; [reflexivity|].
  destruct rest as [|y rest'].
  - reflexivity.
  - change (collapseUnderscores (x :: y :: rest'))
      with (if (x =? underscore)%char && (y =? underscore)%char
            then collapseUnderscores (y :: rest')
            else x :: collapseUnderscores (y :: rest')).
    destruct ((x =? underscore)%char && (y =? underscore)%char) eqn:E;
      [exact IH|].
    rewrite noDouble_cons, collapseUnderscores_head. cbn [hd_error].
    now rewrite E, IH.
Qed.

Lemma noDouble_map_lower (l : list ascii) :
  noDoubleUnderscore (map toLowerCase l) = noDoubleUnderscore l.
Proof.
  induction l as [|x rest IH]; [reflexivity|].
  destruct rest as [|y rest']; [reflexivity|].
  change (noDoubleUnderscore (map toLowerCase (x :: y :: rest')))
    with (negb ((toLowerCase x =? underscore)%char
                && (toLowerCase y =? underscore)%char)
          && noDoubleUnderscore (map toLowerCase (y :: rest'))).
  rewrite IH, !toLowerCase_underscore. reflexivity.
Qed.

Lemma collapseUnderscores_fixed (l : list ascii) :
  noDoubleUnderscore l = true -> collapseUnderscores l = l.
Proof.
  induction l as [|x rest IH]; [reflexivity|].
  destruct rest as [|y rest']; [reflexivity|].
  change (noDoubleUnderscore (x :: y :: rest'))
    with (negb ((x =? underscore)%char && (y =? underscore)%char)
          && noDoubleUnderscore (y :: rest')).
  change (collapseUnderscores (x :: y :: rest'))
    with (if (x =? underscore)%char && (y =? underscore)%char
          then collapseUnderscores (y :: rest')
          else x :: collapseUnderscores (y :: rest')).
  intros H. apply andb_true_iff in H. destruct H as [H1 H2].
  apply negb_true_iff in H1. rewrite H1, (IH H2). reflexivity.
Qed.

(** X4. A sanitized file name holds only lower-case letters, digits, dots,
    dashes and single underscores, is no longer than the name given, and
    sanitizing it again changes nothing. *)
Theorem sanitizeFilename_safe (filename : string) :
  let out := list_ascii_of_string (sanitizeFilename filename) in
  forallb isSanitizedChar out = true
  /\ noDoubleUnderscore out = true
  /\ (List.length out <= String.length filename)%nat
  /\ sanitizeFilename (sanitizeFilename filename) = sanitizeFilename filename.
Proof.
  intros out. unfold out, sanitizeFilename.
  rewrite !list_ascii_of_string_of_list_ascii.
  set (l := list_ascii_of_string filename).
  assert (Hchars : forallb isSanitizedChar
                     (map toLowerCase (collapseUnderscores (replaceOther l)))
                   = true).
  { apply forallb_forall. intros c Hc. apply in_map_iff in Hc.
    destruct Hc as (c0 & <- & Hc0). apply collapseUnderscores_In in Hc0.
    apply in_map_iff in Hc0. destruct Hc0 as (c1 & <- & _).
    apply sanitized_char. }
  assert (Hnd : noDoubleUnderscore
                  (map toLowerCase (collapseUnderscores (replaceOther l)))
                = true).
  { rewrite noDouble_map_lower. apply collapseUnderscores_noDouble. }
  split; [exact Hchars|]. split; [exact Hnd|]. split.
  - rewrite length_map.
    etransitivity; [apply collapseUnderscores_length|].
    unfold replaceOther. rewrite length_map. unfold l.
    clear. induction filename; simpl; lia.
  - f_equal.
    set (o := map toLowerCase (collapseUnderscores (replaceOther l))) in *.
    assert (Hfix : forall c, In c o ->
                     toLowerCase c = c
                     /\ (if isFilenameChar c then c else underscore) = c).
    { intros c Hc. apply sanitized_fixed.
      rewrite forallb_forall in Hchars. now apply Hchars. }
    assert (Hrep : replaceOther o = o).
    { unfold replaceOther. rewrite <- (map_id o) at 2.
      apply map_ext_in. intros c Hc. now apply Hfix. }
    rewrite Hrep, (collapseUnderscores_fixed o Hnd).
    rewrite <- (map_id o) at 2. apply map_ext_in. intros c Hc.
    now apply Hfix.
Qed.

(** ** Invariants of the expense collection *)

Lemma updateOne_first (oid : ObjectId) (f : Expense -> Expense)
  (coll coll' : list Expense) (e0 : Expense) :
  find (fun x => (_id x =? oid)%string) coll = Some e0 ->
  updateOne oid f coll = Some coll' ->
  exists before after,
    coll = before ++ e0 :: after /\ coll' = before ++ f e0 :: after
    /\ Forall (fun x => _id x <> oid) before.
Proof.
  revert coll'. induction coll as [|x rest IH]; simpl; intros coll' Hf Hu;
    [discriminate|].
  destruct (_id x =? oid)%string eqn:Hx.
  - injection Hf as ->. injection Hu as <-. exists [], rest. auto.
  - destruct (updateOne oid f rest) as [rest'|]; [|discriminate].
    injection Hu as <-. destruct (IH rest' Hf eq_refl) as (b & a & -> & -> & Hb).
    exists (x :: b), a. repeat split. constructor; [|exact Hb].
    now apply String.eqb_neq.
Qed.

(** A transition rewrites at most the expense it read, which had the
    status it requires, with the paths its request assigns. *)
Lemma handle_rewrites (db : Db) (q : Request) :
  expenses (fst (handle db q)) = expenses db
  \/ exists before e after,
       expenses db = before ++ e :: after
       /\ expenses (fst (handle db q))
          = before ++ applyModified (assigned q) e :: after
       /\ status e = requiredStatus q
       /\ reasonGiven q = true
       /\ findById (expenses db) (target q) = Doc e.
Proof.
  rewrite handle_read. destruct (read db q) as [r|doc m resolved] eqn:Hread.
  - now left.
  - apply read_saving in Hread.
    destruct Hread as (e & Hf & Hs & Hr & -> & -> & _).
    pose proof Hf as Hf0.
    apply findById_inv in Hf. destruct Hf as (oid & Hc & Hfind & Hid).
    unfold save.
    destruct (negb (validateSync (applyModified (assigned q) e)));
      [now left|].
    rewrite applyModified_id, Hid.
    destruct (updateOne oid (applyModified (assigned q)) (expenses db))
      as [coll'|] eqn:Hu; simpl; [|now left].
    destruct (updateOne_first _ _ _ _ _ Hfind Hu) as (b & a & Hb & Ha & _).
    right. exists b, e, a. repeat split; assumption.
Qed.

Lemma findByIdAndUpdate_rewrites (id : ObjectId)
  (updates : list (string * Value)) (coll coll' : list Expense)
  (r : option Expense) :
  findByIdAndUpdate id updates coll = Some (coll', r) ->
  Forall2 (fun e e' => e' = e \/ setPaths updates e = Some e') coll coll'.
Proof.
  revert coll' r. induction coll as [|x rest IH]; simpl; intros coll' r H.
  - injection H as <- <-. constructor.
  - destruct (_id x =? id)%string.
    + destruct (setPaths updates x) as [x'|] eqn:Hx; [|discriminate].
      injection H as <- <-. constructor; [now right|].
      apply Forall2_refl. now left.
    + destruct (findByIdAndUpdate id updates rest) as [[rest' r']|];
        [|discriminate].
      injection H as <- <-. constructor; [now left|]. eapply IH; eauto.
Qed.

(** [updateExpense] rewrites at most one expense, by assigning allowed
    paths and bill paths. *)
Lemma updateExpense_rewrites (db : Db) (id : string)
  (body : list (string * Value)) (file : option UploadedFile) :
  Forall2 (fun e e' =>
             e' = e
             \/ exists updates,
                 Forall (fun kv => In (fst kv) editable) updates
                 /\ setPaths updates e = Some e')
    (expenses db) (expenses (fst (updateExpense db id body file))).
Proof.
  unfold updateExpense.
  destruct (findById (expenses db) id) as [| |expense];
    try (apply Forall2_refl; now left).
  match goal with
  | |- context [findByIdAndUpdate ?i ?u ?c] =>
      assert (Hall : Forall (fun kv => In (fst kv) editable) u);
      [|destruct (findByIdAndUpdate i u c) as [[coll' r]|] eqn:Hu]
  end.
  - assert (Hfilter : Forall (fun kv : string * Value => In (fst kv) editable)
                        (filter (fun kv => includes allowedUpdates (fst kv))
                           body)).
    { apply Forall_forall. intros kv Hin. apply filter_In in Hin.
      destruct Hin as [_ Hk]. apply includes_In in Hk.
      unfold editable. apply in_or_app. now left. }
    destruct file as [f|]; [|exact Hfilter].
    apply Forall_app. split; [exact Hfilter|].
    constructor; [apply includes_In; reflexivity|].
    constructor; [apply includes_In; reflexivity | constructor].
  - simpl. apply findByIdAndUpdate_rewrites in Hu.
    eapply Forall2_impl; [|exact Hu]. intros a b [H|H]; eauto.
  - apply Forall2_refl. now left.
Qed.

Lemma Forall2_Forall_r {A : Type} (R : A -> A -> Prop) (P : A -> Prop)
  (l l' : list A) :
  Forall2 R l l' -> (forall x y, R x y -> P x -> P y) ->
  Forall P l -> Forall P l'.
Proof.
  intros H HR. induction H as [|x y l l' Hxy _ IH]; intros Hl; [constructor|].
  inversion Hl; subst. constructor; eauto.
Qed.

Section Invariant.

Variable P : Expense -> Prop.
Hypothesis P_setPath : forall key v e e',
    In key editable -> setPath key v e = Some e' -> P e -> P e'.
Hypothesis P_transition : forall q e,
    status e = requiredStatus q -> reasonGiven q = true ->
    P e -> P (applyModified (assigned q) e).
Hypothesis P_archive : forall e, P e -> P (set_isArchived true e).
Hypothesis P_submitted : forall id now m ev c a d pm de n bu bo ry e,
    Expense_create id now m ev c a d pm de n None bu bo None None ry = Some e ->
    P e.
Hypothesis P_entered : forall id now m ev c a d pm de n st bu bo user ry e,
    Expense_create id now m ev c a d pm de n st bu bo (Some user) (Some now) ry
    = Some e ->
    P e.

Lemma P_setPaths (updates : list (string * Value)) (e e' : Expense) :
  Forall (fun kv => In (fst kv) editable) updates ->
  setPaths updates e = Some e' -> P e -> P e'.
Proof.
  revert e. induction updates as [|[key v] rest IH]; simpl; intros e Hall H He.
  - now injection H as <-.
  - inversion Hall as [|? ? Hk Hrest]; subst.
    destruct (setPath key v e) as [e1|] eqn:H1; [|discriminate].
    apply (IH e1 Hrest H). exact (P_setPath key v e e1 Hk H1 He).
Qed.

(** A property of single expenses that the assignments of the handlers
    keep and that new expenses have holds of the whole collection after any
    operation if it held before. *)
Lemma perform_invariant (db : Db) (op : Op) :
  Forall P (expenses db) -> Forall P (expenses (fst (perform db op))).
Proof.
  intros Hall.
  destruct op as [user newId now body file|user newId now body file
                 |id body file|q|id|now]; cbn [perform].
  - unfold createExpense.
    destruct (Event_findById _ _); simpl; try exact Hall.
    destruct (Expense_create _ _ _ _ _ _ _ _ _ _ _ _ _ _ _ _) as [x|] eqn:Hc;
      simpl; [|exact Hall].
    apply Forall_app. split; [exact Hall|]. constructor; [|constructor].
    eapply P_submitted; eauto.
  - unfold addManualExpense.
    repeat match goal with
           | |- context [if ?b then _ else _] => destruct b; simpl;
                                                 try exact Hall
           end.
    destruct (User_findById _ _); try destruct (Event_findById _ _); simpl;
      try exact Hall.
    destruct (Expense_create _ _ _ _ _ _ _ _ _ _ _ _ _ _ _ _) as [x|] eqn:Hc;
      simpl; [|exact Hall].
    apply Forall_app. split; [exact Hall|]. constructor; [|constructor].
    eapply P_entered; eauto.
  - eapply Forall2_Forall_r; [apply updateExpense_rewrites| |exact Hall].
    intros x y [->|(updates & Hu & Hs)] Hx; [exact Hx|].
    eapply P_setPaths; eauto.
  - destruct (handle_rewrites db q) as [->|(b & e & a & Hb & -> & Hs & Hr & _)];
      [exact Hall|].
    rewrite Hb in Hall. apply Forall_app in Hall. destruct Hall as [H1 H2].
    inversion H2; subst. apply Forall_app. split; [exact H1|].
    constructor; [|assumption]. now apply P_transition.
  - unfold deleteExpense. destruct (findById _ _); simpl; try exact Hall.
    apply Forall_forall. intros x Hx. apply deleteOne_In in Hx.
    rewrite Forall_forall in Hall. now apply Hall.
  - unfold closeYear. destruct (includes _ _); simpl; [exact Hall|].
    unfold archiveExpenses. apply Forall_forall. intros x Hx.
    apply in_map_iff in Hx. destruct Hx as (e & <- & He).
    rewrite Forall_forall in Hall.
    destruct (rotaractYear e =? _)%string; auto.
Qed.

End Invariant.

Lemma castAmount_min (v : Value) (a : float) :
  castAmount v = Some a -> (1 <=? a)%float = true.
Proof.
  unfold castAmount.
  match goal with
  | |- match ?n with Some _ => _ | None => _ end = _ -> _ =>
      destruct n as [z|]; [|discriminate]
  end.
  destruct (is_nan z); [discriminate|].
  destruct (1 <=? z)%float eqn:Hz; [|discriminate].
  now intros [= <-].
Qed.

(** What [Expense.create] stores besides what [Expense_create_inv] tells. *)
Lemma Expense_create_fields (id : ObjectId) (now : Date)
  (m ev c a d pm de n st bu bo : option Value)
  (ab : option ObjectId) (aa : option Date) (ry : string) (e : Expense) :
  Expense_create id now m ev c a d pm de n st bu bo ab aa ry = Some e ->
  (1 <=? amount e)%float = true
  /\ bind m castId = Some (member e)
  /\ bind ev castId = Some (event e)
  /\ rejectedBy e = None /\ rejectedAt e = None /\ rejectionReason e = None
  /\ reimbursedBy e = None /\ reimbursedAt e = None
  /\ reimbursementReference e = None.
Proof.
  unfold Expense_create, required.
  destruct (bind m castId) as [m'|]; [|discriminate].
  destruct (bind ev castId) as [ev'|]; [|discriminate].
  cbn [bind].
  destruct (bind c (castEnum Category_of_string)) as [c'|]; [|discriminate].
  cbn [bind].
  destruct (bind a castAmount) as [a'|] eqn:Ha; [|discriminate].
  unfold bind at 1.
  repeat match goal with
         | |- context [bind ?x _] => destruct x; cbn [bind]; [|discriminate]
         end.
  destruct (ry =? EmptyString)%string; [discriminate|].
  intros H. injection H as <-. simpl. repeat split.
  destruct a as [v|]; [|discriminate]. simpl in Ha.
  now apply castAmount_min in Ha.
Qed.

Lemma setPath_amount (key : string) (v : Value) (e e' : Expense) :
  In key editable -> setPath key v e = Some e' ->
  (1 <=? amount e)%float = true -> (1 <=? amount e')%float = true.
Proof.
  intros Hin Hset Ha. simpl in Hin.
  destruct Hin as [<-|[<-|Hin]].
  - cbn in Hset. destruct (castEnum Category_of_string v); [|discriminate].
    simpl in Hset. injection Hset as <-. exact Ha.
  - cbn in Hset. destruct (castAmount v) as [a|] eqn:Hc; [|discriminate].
    simpl in Hset. injection Hset as <-. simpl. now apply castAmount_min in Hc.
  - repeat (destruct Hin as [<- | Hin]);
      try contradiction;
      cbn in Hset;
      match type of Hset with
      | option_map _ ?c = _ => destruct c; [|discriminate]
      end;
      simpl in Hset; injection Hset as <-; exact Ha.
Qed.

(** X5. No operation brings an amount below 1: if every stored expense has
    an amount of at least 1, so has every stored expense after any
    operation, whatever the request holds. *)
Theorem amounts_stay_positive (db : Db) (op : Op) :
  Forall (fun e => (1 <=? amount e)%float = true) (expenses db) ->
  Forall (fun e => (1 <=? amount e)%float = true)
    (expenses (fst (perform db op))).
Proof.
  apply perform_invariant.
  - apply setPath_amount.
  - intros q e _ _ H. destruct q; exact H.
  - intros e H. exact H.
  - intros. now eapply Expense_create_fields; eauto.
  - intros. now eapply Expense_create_fields; eauto.
Qed.

Lemma amounts_stay_positive_witness :
  Forall (fun e => (1 <=? amount e)%float = true)
    (expenses
       (fst (perform (oneExpense pending)
               (OpUpdate expenseA [("amount", VNumber 0)] None)))).
Proof.
  apply (amounts_stay_positive (oneExpense pending)
           (OpUpdate expenseA [("amount", VNumber 0)] None)).
  repeat constructor.
Defined.

Lemma fixedPart_stamps (e e' : Expense) :
  fixedPart e' = fixedPart e ->
  status e' = status e
  /\ approvedBy e' = approvedBy e /\ approvedAt e' = approvedAt e
  /\ rejectedBy e' = rejectedBy e /\ rejectedAt e' = rejectedAt e
  /\ rejectionReason e' = rejectionReason e
  /\ reimbursedBy e' = reimbursedBy e /\ reimbursedAt e' = reimbursedAt e
  /\ reimbursementReference e' = reimbursementReference e.
Proof. unfold fixedPart. intros H. inversion H. repeat split; assumption. Qed.

(** X6. The approver and the time of approval are set together, and so are
    the fields of a rejection and of a reimbursement: if this holds of
    every stored expense, it holds of every stored expense after any
    operation. *)
Theorem stamps_stay_paired (db : Db) (op : Op) :
  Forall stampsPaired (expenses db) ->
  Forall stampsPaired (expenses (fst (perform db op))).
Proof.
  apply perform_invariant.
  - intros key v e e' Hk Hs H.
    apply (setPath_editable key v e e' Hk) in Hs.
    apply fixedPart_stamps in Hs.
    destruct Hs as (_ & H1 & H2 & H3 & H4 & H5 & H6 & H7 & H8).
    unfold stampsPaired in *. rewrite H1, H2, H3, H4, H5, H6, H7, H8. exact H.
  - intros q e _ _ (H1 & H2 & H3 & H4 & H5).
    destruct q; unfold stampsPaired; simpl;
      repeat split; try tauto; try discriminate.
  - intros e H. exact H.
  - intros id now m ev c a d pm de n bu bo ry e Hc.
    destruct (Expense_create_inv _ _ _ _ _ _ _ _ _ _ _ _ _ _ _ _ _ Hc)
      as (_ & H1 & H2 & _).
    destruct (Expense_create_fields _ _ _ _ _ _ _ _ _ _ _ _ _ _ _ _ _ Hc)
      as (_ & _ & _ & H3 & H4 & H5 & H6 & H7 & H8).
    unfold stampsPaired. rewrite H1, H2, H3, H4, H5, H6, H7, H8. tauto.
  - intros id now m ev c a d pm de n st bu bo user ry e Hc.
    destruct (Expense_create_inv _ _ _ _ _ _ _ _ _ _ _ _ _ _ _ _ _ Hc)
      as (_ & H1 & H2 & _).
    destruct (Expense_create_fields _ _ _ _ _ _ _ _ _ _ _ _ _ _ _ _ _ Hc)
      as (_ & _ & _ & H3 & H4 & H5 & H6 & H7 & H8).
    unfold stampsPaired. rewrite H1, H2, H3, H4, H5, H6, H7, H8.
    repeat split; try tauto; discriminate.
Qed.

Lemma stamps_stay_paired_witness :
  Forall stampsPaired
    (expenses
       (fst (perform (oneExpense pending)
               (OpTransition (RejectReq alice noon expenseA
                                (Some "no receipt")))))).
Proof.
  apply (stamps_stay_paired (oneExpense pending)).
  repeat constructor; simpl; tauto.
Defined.

(** X7. Every expense that counts as a contribution (approved, reimbursed or
    paid) has an approver recorded: if this holds of the stored expenses,
    it holds after any operation. *)
Theorem contributions_have_approver (db : Db) (op : Op) :
  Forall (fun e => contributing (status e) = true -> approvedBy e <> None)
    (expenses db) ->
  Forall (fun e => contributing (status e) = true -> approvedBy e <> None)
    (expenses (fst (perform db op))).
Proof.
  apply (perform_invariant
           (fun e => contributing (status e) = true -> approvedBy e <> None)).
  - intros key v e e' Hk Hs H.
    apply (setPath_editable key v e e' Hk) in Hs.
    apply fixedPart_stamps in Hs. destruct Hs as (H1 & H2 & _).
    now rewrite H1, H2.
  - intros q e Hs _ H. destruct q; simpl in *.
    + discriminate.
    + discriminate.
    + intros _. apply H. now rewrite Hs.
  - intros e H. exact H.
  - intros id now m ev c a d pm de n bu bo ry e Hc.
    destruct (Expense_create_inv _ _ _ _ _ _ _ _ _ _ _ _ _ _ _ _ _ Hc)
      as (_ & _ & _ & _ & _ & Hs).
    simpl in Hs. injection Hs as <-. discriminate.
  - intros id now m ev c a d pm de n st bu bo user ry e Hc.
    destruct (Expense_create_inv _ _ _ _ _ _ _ _ _ _ _ _ _ _ _ _ _ Hc)
      as (_ & H1 & _). rewrite H1. discriminate.
Qed.

Lemma contributions_have_approver_witness :
  Forall (fun e => contributing (status e) = true -> approvedBy e <> None)
    (expenses
       (fst (perform (oneExpense pending)
               (OpTransition (ApproveReq alice noon expenseA))))).
Proof.
  apply (contributions_have_approver (oneExpense pending)).
  repeat constructor. simpl. discriminate.
Defined.

(** ** Identifiers, lookups and deletions *)

Lemma Forall2_map_eq {A B : Type} (f : A -> B) (l l' : list A) :
  Forall2 (fun x y => f y = f x) l l' -> map f l' = map f l.
Proof. induction 1; simpl; congruence. Qed.

Lemma deleteOne_split (id : ObjectId) (coll : list Expense) (e : Expense) :
  find (fun x => (_id x =? id)%string) coll = Some e ->
  exists before after,
    coll = before ++ e :: after /\ deleteOne id coll = before ++ after
    /\ Forall (fun x => _id x <> id) before.
Proof.
  induction coll as [|x rest IH]; simpl; [discriminate|].
  destruct (_id x =? id)%string eqn:Hx.
  - intros [= ->]. exists [], rest. auto.
  - intros Hf. destruct (IH Hf) as (b & a & -> & -> & Hb).
    exists (x :: b), a. repeat split. constructor; [|exact Hb].
    now apply String.eqb_neq.
Qed.

Lemma NoDup_map_remove {A B : Type} (f : A -> B) (l1 l2 : list A) (x : A) :
  NoDup (map f (l1 ++ x :: l2)) ->
  NoDup (map f (l1 ++ l2)) /\ ~ In (f x) (map f (l1 ++ l2)).
Proof.
  rewrite !map_app. simpl. intros H.
  split; [eapply NoDup_remove_1; eauto | eapply NoDup_remove_2; eauto].
Qed.

(** X8. Identifiers stay unique: when no two stored expenses share an
    identifier and the identifier given to a new document is not in use, no
    two stored expenses share an identifier after the operation. *)
Theorem ids_stay_unique (db : Db) (op : Op) :
  NoDup (map _id (expenses db)) ->
  freshId db op ->
  NoDup (map _id (expenses (fst (perform db op)))).
Proof.
  intros Hnd Hfresh.
  assert (Hnew : forall x newId,
             ~ In newId (map _id (expenses db)) -> _id x = newId ->
             NoDup (map _id (expenses db ++ [x]))).
  { intros x newId Hn Hx. rewrite map_app. simpl.
    apply NoDup_app; [exact Hnd | repeat constructor; auto |].
    intros a Ha [<-|[]]. congruence. }
  destruct op as [user newId now body file|user newId now body file
                 |id body file|q|id|now]; cbn [perform]; simpl in Hfresh.
  - unfold createExpense.
    destruct (Event_findById _ _); simpl; try exact Hnd.
    destruct (Expense_create _ _ _ _ _ _ _ _ _ _ _ _ _ _ _ _) as [x|] eqn:Hc;
      simpl; [|exact Hnd].
    apply (Hnew x newId Hfresh). now apply Expense_create_inv in Hc.
  - unfold addManualExpense.
    repeat match goal with
           | |- context [if ?b then _ else _] => destruct b; simpl;
                                                 try exact Hnd
           end.
    destruct (User_findById _ _); try destruct (Event_findById _ _); simpl;
      try exact Hnd.
    destruct (Expense_create _ _ _ _ _ _ _ _ _ _ _ _ _ _ _ _) as [x|] eqn:Hc;
      simpl; [|exact Hnd].
    apply (Hnew x newId Hfresh). now apply Expense_create_inv in Hc.
  - rewrite (Forall2_map_eq _id (expenses db)); [exact Hnd|].
    eapply Forall2_impl; [|apply updateExpense_frame].
    intros a b H. now apply fixedPart_inv in H.
  - rewrite (Forall2_map_eq _id (expenses db)); [exact Hnd|].
    eapply Forall2_impl; [|apply handle_frame].
    intros a b [->|(m & ->)]; [reflexivity | apply applyModified_id].
  - unfold deleteExpense.
    destruct (findById (expenses db) id) as [| |e] eqn:Hf; simpl;
      try exact Hnd.
    apply findById_inv in Hf. destruct Hf as (oid & _ & Hf & ->).
    destruct (deleteOne_split _ _ _ Hf) as (b & a & Hb & -> & _).
    rewrite Hb in Hnd. now apply NoDup_map_remove in Hnd.
  - unfold closeYear. destruct (includes _ _); simpl; [exact Hnd|].
    unfold archiveExpenses. rewrite map_map.
    erewrite map_ext; [exact Hnd|].
    intros e. now destruct (rotaractYear e =? _)%string.
Qed.

Lemma ids_stay_unique_witness :
  NoDup (map _id
           (expenses
              (fst (perform (oneExpense pending)
                      (OpManual alice expenseB noon
                         (manualBody [("status", VString "paid")]) None))))).
Proof.
  apply (ids_stay_unique (oneExpense pending)).
  - repeat constructor. simpl. tauto.
  - simpl. intros [H|[]]. discriminate.
Defined.

(** A transition on an expense with the required status (and a reason, for
    a rejection) writes the assigned paths and answers 200 with the
    document. *)
Lemma handle_success (db : Db) (q : Request) (e : Expense) :
  findById (expenses db) (target q) = Doc e ->
  status e = requiredStatus q ->
  reasonGiven q = true ->
  validateSync e = true ->
  referencesResolved db q e = true ->
  exists coll',
    handle db q
    = (with_expenses db coll',
       ok 200 (okMessage q) (applyModified (assigned q) e))
    /\ findById coll' (target q) = Doc (applyModified (assigned q) e).
Proof.
  intros Hf Hs Hr Hv Hp.
  destruct (handle_found db q e Hf)
    as [(coll' & _ & _ & _ & Hh & Hfind)|(r & Hno & _)].
  - exists coll'. rewrite Hp in Hh. auto.
  - apply Status_eqb_eq in Hs. destruct Hno as [H|[H|H]]; congruence.
Qed.

Lemma find_by_id {D : Type} (docId : D -> ObjectId) (coll : list D)
  (id : ObjectId) :
  In id (map docId coll) ->
  exists d, find (fun d => (docId d =? id)%string) coll = Some d.
Proof.
  induction coll as [|x rest IH]; simpl; [contradiction|].
  destruct (docId x =? id)%string eqn:Hx; [eauto|].
  intros [H|H]; [|now apply IH].
  apply String.eqb_neq in Hx. contradiction.
Qed.

(** An expense whose member and event exist has both references resolved
    by [populate]. *)
Lemma populated_true (db : Db) (e : Expense) :
  In (member e) (map User._id (users db)) ->
  In (event e) (map Event._id (events db)) ->
  populated db e = true.
Proof.
  intros Hm He. unfold populated.
  destruct (find_by_id User._id _ _ Hm) as (u & ->).
  destruct (find_by_id Event._id _ _ He) as (d & ->). reflexivity.
Qed.

Lemma castString_within (n : nat) (v : Value) (s : string) :
  castString (Some n) v = Some s -> (jsLength s <=? n)%nat = true.
Proof.
  unfold castString.
  destruct v as [t|x|b|d]; try discriminate;
    match goal with
    | |- context [(jsLength ?t <=? n)%nat] =>
        destruct (jsLength t <=? n)%nat eqn:Hn; [|discriminate]
    end; now intros [= <-].
Qed.

Lemma optional_within (n : nat) (v : option Value) (s : option string) :
  optional (castString (Some n)) v = Some s -> withinLength n s = true.
Proof.
  destruct v as [x|]; simpl; [|now intros [= <-]].
  destruct (castString (Some n) x) as [t|] eqn:Hc; [|discriminate].
  simpl. intros [= <-]. simpl. now apply castString_within in Hc.
Qed.

(** A document that [Expense.create] accepts passes the validators that
    [save] runs. *)
Lemma Expense_create_valid (id : ObjectId) (now : Date)
  (m ev c a d pm de n st bu bo : option Value)
  (ab : option ObjectId) (aa : option Date) (ry : string) (e : Expense) :
  Expense_create id now m ev c a d pm de n st bu bo ab aa ry = Some e ->
  validateSync e = true.
Proof.
  unfold Expense_create, required.
  destruct (bind m castId) as [m'|]; [|discriminate].
  destruct (bind ev castId) as [ev'|]; [|discriminate].
  cbn [bind].
  destruct (bind c (castEnum Category_of_string)) as [c'|]; [|discriminate].
  cbn [bind].
  destruct (bind a castAmount) as [a'|] eqn:Ha; [|discriminate].
  cbn [bind].
  destruct (withDefault castDate now d) as [d'|]; [|discriminate].
  cbn [bind].
  destruct (bind pm (castEnum PaymentMode_of_string)) as [pm'|];
    [|discriminate].
  cbn [bind].
  destruct (optional (castString (Some 500%nat)) de) as [de'|] eqn:Hde;
    [|discriminate].
  cbn [bind].
  destruct (optional (castString (Some 1000%nat)) n) as [n'|] eqn:Hn;
    [|discriminate].
  cbn [bind].
  repeat match goal with
         | |- context [bind ?x _] => destruct x; cbn [bind]; [|discriminate]
         end.
  destruct (ry =? EmptyString)%string eqn:Hry; [discriminate|].
  intros H. injection H as <-. unfold validateSync. simpl.
  destruct a as [v|]; [|discriminate]. simpl in Ha.
  apply castAmount_min in Ha. rewrite Ha, Hry.
  now rewrite (optional_within _ _ _ Hde), (optional_within _ _ _ Hn).
Qed.

Lemma find_app_fresh (oid : ObjectId) (coll : list Expense) (x : Expense) :
  ~ In oid (map _id coll) -> _id x = oid ->
  find (fun e => (_id e =? oid)%string) (coll ++ [x]) = Some x.
Proof.
  intros Hn Hx. induction coll as [|y rest IH]; simpl.
  - now rewrite Hx, String.eqb_refl.
  - destruct (_id y =? oid)%string eqn:Hy.
    + apply String.eqb_eq in Hy. exfalso. apply Hn. now left.
    + apply IH. intros H. apply Hn. now right.
Qed.

(** X9. The life of a submitted expense: when a submission by a user of
    the store with an unused, well-formed identifier succeeds, the new
    expense is found under that identifier as pending; approving it and
    then reimbursing it both succeed and leave it reimbursed with the
    approver, the reimburser and the reference recorded; a rejection after
    that is refused with the status in the message and changes nothing. *)
Theorem submitted_expense_life (db : Db) (user approver payer newId : ObjectId)
  (now t1 t2 t3 : Date) (body : list (string * Value))
  (file : option UploadedFile) (reference : option string) (reason : string) :
  castObjectId user = Some user ->
  In user (map User._id (users db)) ->
  castObjectId newId = Some newId ->
  ~ In newId (map _id (expenses db)) ->
  statusCode (snd (createExpense db user newId now body file)) = 201 ->
  let db1 := fst (createExpense db user newId now body file) in
  let db2 := fst (approveExpense db1 approver t1 newId) in
  let db3 := fst (reimburseExpense db2 payer t2 newId reference) in
  (exists e, findById (expenses db1) newId = Doc e
             /\ status e = pending /\ approvedBy e = None
             /\ isArchived e = false
             /\ rotaractYear e = getFinancialYear now)
  /\ statusCode (snd (approveExpense db1 approver t1 newId)) = 200
  /\ statusCode (snd (reimburseExpense db2 payer t2 newId reference)) = 200
  /\ (exists e, findById (expenses db3) newId = Doc e
                /\ status e = reimbursed
                /\ approvedBy e = Some approver /\ approvedAt e = Some t1
                /\ reimbursedBy e = Some payer /\ reimbursedAt e = Some t2
                /\ reimbursementReference e = reference)
  /\ rejectExpense db3 approver t3 newId (Some reason)
     = (db3, if (reason =? EmptyString)%string
             then fail 400 "Rejection reason is required"
             else fail 400 "Cannot reject expense with status: reimbursed").
Proof.
  intros Huser Hknown Hcast Hfresh Hcode db1 db2 db3.
  assert (Hcreated : exists x, db1 = with_expenses db (expenses db ++ [x])
                               /\ _id x = newId /\ status x = pending
                               /\ approvedBy x = None /\ approvedAt x = None
                               /\ isArchived x = false
                               /\ rotaractYear x = getFinancialYear now
                               /\ validateSync x = true
                               /\ populated db x = true).
  { unfold db1. revert Hcode. unfold createExpense.
    destruct (Event_findById (events db) (get body "event"))
      as [| |eventDoc] eqn:He; simpl; try discriminate.
    destruct (Expense_create _ _ _ _ _ _ _ _ _ _ _ _ _ _ _ _) as [x|] eqn:Hc;
      simpl; [|discriminate].
    intros _. exists x.
    pose proof (Expense_create_valid _ _ _ _ _ _ _ _ _ _ _ _ _ _ _ _ _ Hc)
      as Hv.
    destruct (Expense_create_fields _ _ _ _ _ _ _ _ _ _ _ _ _ _ _ _ _ Hc)
      as (_ & Hm & Hev & _).
    apply Expense_create_inv in Hc.
    destruct Hc as (H1 & H2 & H3 & H4 & H5 & H6). simpl in H6.
    injection H6 as H6.
    assert (Hp : populated db x = true).
    { apply populated_true.
      - simpl in Hm. rewrite Huser in Hm. injection Hm as <-. exact Hknown.
      - unfold Event_findById in He.
        destruct (get body "event") as [v|]; [|discriminate].
        simpl in Hev. rewrite Hev in He.
        destruct (find _ (events db)) as [d|] eqn:Hd; [|discriminate].
        apply find_some in Hd. destruct Hd as [Hd1 Hd2].
        apply String.eqb_eq in Hd2. rewrite <- Hd2. now apply in_map. }
    auto 12. }
  destruct Hcreated
    as (x & Hdb1 & Hid & Hst & Hby & Hat & Har & Hyr & Hv & Hp).
  assert (Hf1 : findById (expenses db1) newId = Doc x).
  { unfold findById. rewrite Hcast, Hdb1. simpl.
    now rewrite (find_app_fresh newId _ x Hfresh Hid). }
  assert (Hp1 : referencesResolved db1 (ApproveReq approver t1 newId) x
                = true) by (rewrite Hdb1; exact Hp).
  destruct (handle_success db1 (ApproveReq approver t1 newId) x Hf1 Hst
              eq_refl Hv Hp1) as (coll2 & Hh2 & Hf2).
  simpl in Hh2, Hf2.
  assert (Hdb2 : db2 = with_expenses db1 coll2) by (unfold db2; now rewrite Hh2).
  destruct (handle_success db2 (ReimburseReq payer t2 newId reference)
              (setApproved approver t1 x))
    as (coll3 & Hh3 & Hf3);
    [rewrite Hdb2; exact Hf2 | reflexivity | reflexivity | exact Hv
    | reflexivity |].
  simpl in Hh3, Hf3.
  assert (Hdb3 : db3 = with_expenses db2 coll3) by (unfold db3; now rewrite Hh3).
  split; [exists x; auto 10|].
  split; [now rewrite Hh2|]. split; [now rewrite Hh3|].
  split.
  { eexists. split; [rewrite Hdb3; exact Hf3|]. simpl. auto 10. }
  unfold rejectExpense, reject_read. simpl.
  destruct (reason =? EmptyString)%string; [reflexivity|].
  rewrite Hdb3. simpl. rewrite Hf3. reflexivity.
Qed.

Lemma submitted_expense_life_witness :
  rejectExpense
    (fst (reimburseExpense
            (fst (approveExpense
                    (fst (createExpense (sampleDb []) alice expenseA noon
                            (manualBody []) None))
                    bob later expenseA))
            bob later expenseA (Some "UTR123")))
    bob later expenseA (Some "late")
  = (fst (reimburseExpense
            (fst (approveExpense
                    (fst (createExpense (sampleDb []) alice expenseA noon
                            (manualBody []) None))
                    bob later expenseA))
            bob later expenseA (Some "UTR123")),
     fail 400 "Cannot reject expense with status: reimbursed").
Proof.
  exact (proj2 (proj2 (proj2 (proj2
    (submitted_expense_life (sampleDb []) alice bob bob expenseA
       noon later later later (manualBody []) None (Some "UTR123") "late"
       eq_refl ltac:(simpl; tauto) eq_refl ltac:(simpl; tauto) eq_refl))))).
Defined.

(** ** Deleting an expense *)

(** X10. Deleting an expense whose identifier is found removes exactly that
    document and keeps the others in their order; with unique identifiers
    the expense cannot be found afterwards, so deleting it again is answered
    404. A delete that is answered anything but 200 changes nothing. *)
Theorem deleteExpense_removes_one (db : Db) (id : string) :
  NoDup (map _id (expenses db)) ->
  let db' := fst (deleteExpense db id) in
  match findById (expenses db) id with
  | Doc e =>
      statusCode (snd (deleteExpense db id)) = 200
      /\ (exists before after,
             expenses db = before ++ e :: after
             /\ expenses db' = before ++ after)
      /\ findById (expenses db') id = Missing
      /\ deleteExpense db' id = (db', fail 404 "Expense not found")
  | _ =>
      db' = db /\ statusCode (snd (deleteExpense db id)) <> 200
  end.
Proof.
  intros Hnd db'. unfold db', deleteExpense.
  destruct (findById (expenses db) id) as [| |e] eqn:Hf; simpl;
    try (split; [reflexivity | discriminate]).
  pose proof Hf as Hf0.
  apply findById_inv in Hf. destruct Hf as (oid & Hc & Hf & Hid).
  rewrite Hid.
  destruct (deleteOne_split _ _ _ Hf) as (b & a & Hb & Hd & Hbefore).
  assert (Hmiss : findById (deleteOne oid (expenses db)) id = Missing).
  { unfold findById. rewrite Hc, Hd.
    destruct (find _ (b ++ a)) as [y|] eqn:Hy; [|reflexivity].
    exfalso. apply find_some in Hy. destruct Hy as [Hy1 Hy2].
    apply String.eqb_eq in Hy2.
    rewrite Hb in Hnd. apply NoDup_map_remove in Hnd.
    destruct Hnd as [_ Hn]. apply Hn. rewrite Hid, <- Hy2.
    now apply in_map. }
  split; [reflexivity|]. split; [exists b, a; auto|].
  split; [exact Hmiss|]. now rewrite Hmiss.
Qed.

Lemma deleteExpense_removes_one_witness :
  deleteExpense (fst (deleteExpense (oneExpense approved) expenseA)) expenseA
  = (sampleDb [], fail 404 "Expense not found").
Proof.
  pose proof (deleteExpense_removes_one (oneExpense approved) expenseA
                ltac:(repeat constructor; simpl; tauto)) as H.
  simpl in H. exact (proj2 (proj2 (proj2 H))).
Defined.

(** ** Who may read an expense *)

Lemma NoDup_map_In_eq {A B : Type} (f : A -> B) (l : list A) (x y : A) :
  NoDup (map f l) -> In x l -> In y l -> f x = f y -> x = y.
Proof.
  induction l as [|a l IH]; simpl; [contradiction|].
  intros Hnd Hx Hy Hf. inversion Hnd as [|? ? Ha Hl]; subst.
  destruct Hx as [->|Hx], Hy as [->|Hy]; auto.
  - exfalso. apply Ha. rewrite Hf. now apply in_map.
  - exfalso. apply Ha. rewrite <- Hf. now apply in_map.
Qed.

(** X11. Neither reading handler hands an expense to a caller who is not an
    admin and not its member: what [getExpenseById] returns is a stored
    expense that belongs to the caller unless the caller is an admin, and
    what the member's [getExpense] returns always belongs to the caller.
    The member of an expense, if still a user, does get it from both. *)
Theorem expenses_are_read_by_their_member (db : Db) (user : ObjectId)
  (id : string) :
  (forall isAdmin e,
      data (getExpenseById db user isAdmin id) = Some e ->
      In e (expenses db) /\ (isAdmin = true \/ member e = user))
  /\ (forall e,
         data (getExpense db user id) = Some e ->
         In e (expenses db) /\ member e = user)
  /\ (forall e,
         findById (expenses db) id = Doc e -> member e = user ->
         In user (map User._id (users db)) ->
         data (getExpenseById db user false id) = Some e)
  /\ (forall e,
         NoDup (map _id (expenses db)) ->
         findById (expenses db) id = Doc e -> member e = user ->
         data (getExpense db user id) = Some e).
Proof.
  split; [|split; [|split]].
  - intros isAdmin e. unfold getExpenseById.
    destruct (findById (expenses db) id) as [| |x] eqn:Hf; try discriminate.
    apply findById_inv in Hf. destruct Hf as (oid & _ & Hf & _).
    apply find_some in Hf. destruct Hf as [Hin _].
    destruct isAdmin; simpl.
    + intros [= <-]. auto.
    + destruct (find _ (users db)) as [u|] eqn:Hu; [|discriminate].
      destruct (User._id u =? user)%string eqn:Hown; simpl; [|discriminate].
      intros [= <-]. split; [exact Hin|]. right.
      apply find_some in Hu. destruct Hu as [_ Hu].
      apply String.eqb_eq in Hu, Hown. congruence.
  - intros e. unfold getExpense.
    destruct (castObjectId id) as [oid|]; [|discriminate].
    destruct (find _ (expenses db)) as [x|] eqn:Hf; [|discriminate].
    intros [= <-]. apply find_some in Hf. destruct Hf as [Hin Hb].
    apply andb_true_iff in Hb. destruct Hb as [_ Hb].
    apply String.eqb_eq in Hb. auto.
  - intros e Hf Hm Hu. unfold getExpenseById. rewrite Hf. simpl.
    destruct (find (fun u => (User._id u =? member e)%string) (users db))
      as [u|] eqn:Hfind.
    + apply find_some in Hfind. destruct Hfind as [_ Hfind].
      apply String.eqb_eq in Hfind. rewrite Hfind, Hm, String.eqb_refl.
      reflexivity.
    + exfalso. apply in_map_iff in Hu. destruct Hu as (u & Hid & Hin).
      apply (find_none _ _ Hfind) in Hin. simpl in Hin.
      rewrite Hid, Hm, String.eqb_refl in Hin. discriminate.
  - intros e Hnd Hf Hm. unfold getExpense.
    apply findById_inv in Hf. destruct Hf as (oid & -> & Hf & Hid).
    destruct (find (fun x => (_id x =? oid)%string && (member x =? user)%string)
                (expenses db)) as [x|] eqn:Hx.
    + apply find_some in Hx. destruct Hx as [Hin Hb].
      apply andb_true_iff in Hb. destruct Hb as [Hb _].
      apply String.eqb_eq in Hb. simpl. f_equal.
      apply find_some in Hf. destruct Hf as [Hin' _].
      apply (NoDup_map_In_eq _id (expenses db)); auto. congruence.
    + exfalso. apply find_some in Hf. destruct Hf as [Hin _].
      apply (find_none _ _ Hx) in Hin. simpl in Hin.
      rewrite Hid, Hm, !String.eqb_refl in Hin. discriminate.
Qed.

(** ** References to members and events *)










(** ** Sums over groups *)

(** The group of a key in a rollup: it exists exactly when a record has the
    key, and holds the accumulated amounts and the number of these
    records. *)
Lemma rollup_find {K : Type} (sum : list float -> float)
  (eqb : K -> K -> bool) (key : Expense -> K) (records : list Expense)
  (groups : list (Rollup.t K)) (k : K) :
  (forall a b, eqb a b = true <-> a = b) ->
  isRollupOf sum eqb key records groups ->
  let same := filter (fun e => eqb (key e) k) records in
  match find (fun g => eqb (Rollup._id g) k) groups with
  | Some g =>
      Rollup._id g = k /\ same <> []
      /\ Rollup.total g = sum (map amount same)
      /\ Rollup.count g = Z.of_nat (List.length same)
  | None => same = []
  end.
Proof.
  intros Heq (Hnd & Hkeys & Hgroups) same.
  destruct (find (fun g => eqb (Rollup._id g) k) groups) as [g|] eqn:Hf.
  - apply find_some in Hf. destruct Hf as [Hin Hk]. apply Heq in Hk.
    split; [exact Hk|]. split.
    + destruct (proj1 (Hkeys k)) as (e & He & Hke).
      { rewrite <- Hk. now apply in_map. }
      intros Hnil.
      assert (Hin' : In e same)
        by (apply filter_In; split; [exact He | now apply Heq]).
      rewrite Hnil in Hin'. exact Hin'.
    + destruct (Hgroups g Hin) as [Ht Hc]. rewrite Hk in Ht, Hc. auto.
  - destruct same as [|e es] eqn:Hsame; [reflexivity|]. exfalso.
    assert (He : In e same) by (rewrite Hsame; now left).
    apply filter_In in He. destruct He as [He Hke]. apply Heq in Hke.
    assert (Hk : In k (map Rollup._id groups)) by (apply Hkeys; eauto).
    apply in_map_iff in Hk. destruct Hk as (g & Hg & Hin).
    apply (find_none _ _ Hf) in Hin. simpl in Hin.
    assert (eqb (Rollup._id g) k = true) by now apply Heq. congruence.
Qed.

Lemma ofStatus_total (sum : list float -> float) (records : list Expense)
  (groups : list (Rollup.t Status)) (s : Status) :
  isRollupOf sum Status_eqb status records groups ->
  ofStatus Rollup.total zero s groups = amountIn sum s records.
Proof.
  intros H.
  pose proof (rollup_find sum Status_eqb status records groups s
                Status_eqb_eq H) as Hf.
  unfold ofStatus, amountIn. cbv zeta in Hf.
  destruct (find (fun g => Status_eqb (Rollup._id g) s) groups) as [g|].
  - destruct Hf as (_ & Hne & Ht & _).
    destruct (filter (fun e => Status_eqb (status e) s) records);
      [contradiction | exact Ht].
  - now rewrite Hf.
Qed.

Lemma ofStatus_count (sum : list float -> float) (records : list Expense)
  (groups : list (Rollup.t Status)) (s : Status) :
  isRollupOf sum Status_eqb status records groups ->
  ofStatus Rollup.count 0 s groups
  = Z.of_nat (List.length
                (filter (fun e => Status_eqb (status e) s) records)).
Proof.
  intros H.
  pose proof (rollup_find sum Status_eqb status records groups s
                Status_eqb_eq H) as Hf.
  unfold ofStatus. cbv zeta in Hf.
  destruct (find (fun g => Status_eqb (Rollup._id g) s) groups) as [g|].
  - now destruct Hf as (_ & _ & _ & Hc).
  - now rewrite Hf.
Qed.

Lemma ofStatus_snoc {A : Type} (f : Rollup.t Status -> A) (d : A)
  (s : Status) (gs : list (Rollup.t Status)) (g : Rollup.t Status) :
  ~ In (Rollup._id g) (map Rollup._id gs) ->
  ofStatus f d s (gs ++ [g])
  = if Status_eqb (Rollup._id g) s then f g else ofStatus f d s gs.
Proof.
  unfold ofStatus. induction gs as [|x gs IH]; simpl; intros Hnew.
  - now destruct (Status_eqb (Rollup._id g) s).
  - destruct (Status_eqb (Rollup._id x) s) eqn:Hx.
    + destruct (Status_eqb (Rollup._id g) s) eqn:Hg; [|reflexivity].
      apply Status_eqb_eq in Hx, Hg. exfalso. apply Hnew. left. congruence.
    + apply IH. intros H. apply Hnew. now right.
Qed.


(** ** The dashboards *)

Lemma NoDup_snoc {A : Type} (l : list A) (x : A) :
  NoDup (l ++ [x]) -> NoDup l /\ ~ In x l.
Proof.
  intros H. apply NoDup_remove in H. rewrite app_nil_r in H. exact H.
Qed.

Lemma fold_left_add_snoc (l : list float) (x a : float) :
  fold_left PrimFloat.add (l ++ [x]) a
  = (fold_left PrimFloat.add l a + x)%float.
Proof. now rewrite fold_left_app. Qed.

(** What [expensesSummary.forEach] of the admin dashboard leaves in the
    summary. *)
Lemma spending_fold (gs : list (Rollup.t Status)) :
  NoDup (map Rollup._id gs) ->
  fold_left addToSpending gs (Spending.mk zero zero zero 0)
  = Spending.mk
      (fold_left PrimFloat.add (map Rollup.total gs) zero)
      (fold_left PrimFloat.add
         (map Rollup.total
            (filter (fun g => contributing (Rollup._id g)) gs)) zero)
      (ofStatus Rollup.total zero pending gs)
      (ofStatus Rollup.count 0 pending gs).
Proof.
  induction gs as [|g gs IH] using rev_ind; [reflexivity|].
  rewrite map_app. simpl. intros Hnd. apply NoDup_snoc in Hnd.
  destruct Hnd as [Hnd Hnew].
  rewrite fold_left_app. simpl. rewrite (IH Hnd).
  rewrite !(ofStatus_snoc _ _ _ gs g Hnew), filter_app, !map_app.
  unfold addToSpending. cbn [filter map].
  destruct (Status_eqb (Rollup._id g) pending);
    destruct (contributing (Rollup._id g)); cbn [map];
    rewrite ?fold_left_add_snoc, ?app_nil_r; reflexivity.
Qed.

Section Dashboards.

Variable arrange : forall A : Type, list A -> list A.
Hypothesis arrange_perm : forall (A : Type) (l : list A),
    Permutation (arrange A l) l.
Variable accumulate : list float -> float.

Lemma byStatus_rollup (year : string) (docs : list Expense) :
  isRollupOf accumulate Status_eqb status
    (filter (fun e => (rotaractYear e =? year)%string) docs)
    (byStatus arrange accumulate year docs).
Proof.
  apply groups_are_rollup; [apply Status_eqb_eq | apply arrange_perm].
Qed.

(** X13. The admin dashboard, for the expenses of the current Rotaract
    year.  The status groups it folds are the rollup of these expenses by
    status; [totalSpending] is the floating-point sum of the group totals,
    added from 0 in the order in which the store emits the groups, and
    [totalContributions] the like sum over the groups of the approved, the
    reimbursed and the paid expenses; [pendingReimbursements] is what the
    store's accumulator makes of the amounts of the pending expenses (0
    when there is none) and [pendingCount] is their number. *)
Theorem adminDashboard_figures (db : Db) (now : Date) :
  let records :=
    filter (fun e => (rotaractYear e =? getFinancialYear now)%string)
      (expenses db) in
  let groups := byStatus arrange accumulate (getFinancialYear now)
                  (expenses db) in
  let summary := adminDashboard arrange accumulate db now in
  isRollupOf accumulate Status_eqb status records groups
  /\ Spending.totalSpending summary
     = fold_left PrimFloat.add (map Rollup.total groups) zero
  /\ Spending.totalContributions summary
     = fold_left PrimFloat.add
         (map Rollup.total
            (filter (fun g => contributing (Rollup._id g)) groups)) zero
  /\ Spending.pendingReimbursements summary
     = amountIn accumulate pending records
  /\ Spending.pendingCount summary
     = Z.of_nat (List.length
                   (filter (fun e => Status_eqb (status e) pending) records)).
Proof.
  intros records groups summary.
  pose proof (byStatus_rollup (getFinancialYear now) (expenses db)) as Hr.
  fold records in Hr. fold groups in Hr.
  split; [exact Hr|].
  unfold summary, adminDashboard. fold groups.
  rewrite (spending_fold groups (proj1 Hr)).
  cbn [Spending.totalSpending Spending.totalContributions
       Spending.pendingReimbursements Spending.pendingCount].
  split; [reflexivity|]. split; [reflexivity|].
  split; [now apply ofStatus_total | now apply (ofStatus_count accumulate)].
Qed.

End Dashboards.

Lemma adminDashboard_figures_witness :
  Spending.pendingReimbursements
    (adminDashboard firstSeen plainSum
       (sampleDb [sampleExpense expenseA alice travel_expense 1500 pending;
                  sampleExpense expenseB bob donation 250 approved;
                  sampleExpense expenseC alice accommodation 40 pending])
       noon)
  = 1540%float.
Proof.
  rewrite (proj1 (proj2 (proj2 (proj2
    (adminDashboard_figures firstSeen (fun A l => Permutation_refl l)
       plainSum (sampleDb _) noon))))).
  reflexivity.
Defined.

(** ** The member dashboard *)

(** What [expensesSummary.forEach] of the member dashboard leaves in the
    summary. *)
Lemma mine_fold (gs : list (Rollup.t Status)) :
  NoDup (map Rollup._id gs) ->
  let summary :=
    fold_left addToMine gs (Mine.mk zero zero zero zero zero) in
  let subtotal s := ofStatus Rollup.total zero s gs in
  Mine.totalContribution summary
  = fold_left PrimFloat.add (map Rollup.total gs) zero
  /\ Mine.pendingReimbursements summary = subtotal pending
  /\ Mine.approvedExpenses summary = subtotal approved
  /\ Mine.rejectedExpenses summary = subtotal rejected
  /\ (Mine.paidExpenses summary = subtotal paid
      \/ Mine.paidExpenses summary = subtotal reimbursed)
  /\ ((forall g, In g gs -> Rollup._id g <> reimbursed) ->
      Mine.paidExpenses summary = subtotal paid)
  /\ ((forall g, In g gs -> Rollup._id g <> paid) ->
      Mine.paidExpenses summary = subtotal reimbursed).
Proof.
  induction gs as [|g gs IH] using rev_ind.
  - intros _. simpl. repeat split; auto.
  - rewrite map_app. simpl. intros Hnd. apply NoDup_snoc in Hnd.
    destruct Hnd as [Hnd Hnew].
    destruct (IH Hnd) as (Ht & Hp & Ha & Hr & Hd & Hnr & Hnp). clear IH.
    cbv zeta. rewrite fold_left_app. cbn [fold_left].
    set (m := fold_left addToMine gs (Mine.mk zero zero zero zero zero)) in *.
    rewrite !(ofStatus_snoc _ _ _ gs g Hnew), map_app. cbn [map].
    rewrite fold_left_add_snoc.
    assert (Hnr' : (forall x, In x (gs ++ [g]) -> Rollup._id x <> reimbursed)
                   -> forall x, In x gs -> Rollup._id x <> reimbursed)
      by (intros H x Hx; apply H, in_or_app; now left).
    assert (Hnp' : (forall x, In x (gs ++ [g]) -> Rollup._id x <> paid)
                   -> forall x, In x gs -> Rollup._id x <> paid)
      by (intros H x Hx; apply H, in_or_app; now left).
    assert (Hg : forall s, (forall x, In x (gs ++ [g]) -> Rollup._id x <> s)
                           -> Rollup._id g <> s)
      by (intros s H; apply H, in_or_app; right; now left).
    unfold addToMine.
    destruct (Rollup._id g) eqn:Hid; simpl;
      (split; [now rewrite Ht|]); (split; [assumption || reflexivity|]);
      (split; [assumption || reflexivity|]);
      (split; [assumption || reflexivity|]);
      (split; [first [assumption | now left | now right]|]);
      split; intros H;
      first [ reflexivity
            | now (exfalso; apply (Hg _ H))
            | now apply Hnr, Hnr'
            | now apply Hnp, Hnp' ].
Qed.

Section MemberDashboard.

Variable arrange : forall A : Type, list A -> list A.
Hypothesis arrange_perm : forall (A : Type) (l : list A),
    Permutation (arrange A l) l.
Variable accumulate : list float -> float.

(** X14. The member dashboard, over the caller's expenses of the current
    Rotaract year.  The status groups it folds are the rollup of these
    expenses by status; [totalContribution] is the floating-point sum of all
    the group totals, the pending and rejected ones included, added from 0
    in the order in which the store emits the groups;
    [pendingReimbursements], [approvedExpenses] and [rejectedExpenses] are
    what the store's accumulator makes of the amounts of the pending, the
    approved and the rejected ones (0 when there is none); [paidExpenses]
    is that figure of the paid ones or that of the reimbursed ones: of the
    paid ones when nothing is reimbursed, of the reimbursed ones when
    nothing is paid. *)
Theorem memberDashboard_figures (db : Db) (userId : ObjectId) (now : Date) :
  let mine :=
    filter (fun e => (member e =? userId)%string
                     && (rotaractYear e =? getFinancialYear now)%string)
      (expenses db) in
  let groups := memberSummary arrange accumulate db userId now in
  let summary := memberDashboard arrange accumulate db userId now in
  isRollupOf accumulate Status_eqb status mine groups
  /\ Mine.totalContribution summary
     = fold_left PrimFloat.add (map Rollup.total groups) zero
  /\ Mine.pendingReimbursements summary = amountIn accumulate pending mine
  /\ Mine.approvedExpenses summary = amountIn accumulate approved mine
  /\ Mine.rejectedExpenses summary = amountIn accumulate rejected mine
  /\ (Mine.paidExpenses summary = amountIn accumulate paid mine
      \/ Mine.paidExpenses summary = amountIn accumulate reimbursed mine)
  /\ ((forall e, In e mine -> status e <> reimbursed) ->
      Mine.paidExpenses summary = amountIn accumulate paid mine)
  /\ ((forall e, In e mine -> status e <> paid) ->
      Mine.paidExpenses summary = amountIn accumulate reimbursed mine).
Proof.
  intros mine groups summary.
  assert (Hr : isRollupOf accumulate Status_eqb status mine groups).
  { apply groups_are_rollup; [apply Status_eqb_eq | apply arrange_perm]. }
  split; [exact Hr|].
  assert (Hkey : forall s, (forall e, In e mine -> status e <> s) ->
                           forall g, In g groups -> Rollup._id g <> s).
  { intros s Hno g Hg Hid. destruct Hr as (_ & Hkeys & _).
    destruct (proj1 (Hkeys s)) as (e & He & Hs).
    - rewrite <- Hid. now apply in_map.
    - now apply (Hno e He). }
  destruct (mine_fold groups (proj1 Hr))
    as (Ht & Hp & Ha & Hrj & Hd & Hnr & Hnp).
  rewrite !(ofStatus_total accumulate mine groups _ Hr) in *.
  split; [exact Ht|]. split; [exact Hp|]. split; [exact Ha|].
  split; [exact Hrj|]. split; [exact Hd|].
  split; intros Hno; [apply Hnr | apply Hnp]; now apply Hkey.
Qed.

End MemberDashboard.

Lemma memberDashboard_figures_witness :
  Mine.rejectedExpenses
    (memberDashboard firstSeen plainSum
       (sampleDb [sampleExpense expenseA alice travel_expense 1500 pending;
                  sampleExpense expenseB bob donation 250 approved;
                  sampleExpense expenseC alice accommodation 40 rejected])
       alice noon)
  = 40%float.
Proof.
  rewrite (proj1 (proj2 (proj2 (proj2 (proj2
    (memberDashboard_figures firstSeen (fun A l => Permutation_refl l)
       plainSum (sampleDb _) alice noon)))))).
  reflexivity.
Defined.

(** ** The member-wise report *)

Lemma lookupUnwind_In {G D : Type} (idOf : G -> ObjectId)
  (docId : D -> ObjectId) (coll : list D) (groups : list G) (g : G) (d : D) :
  In (g, d) (lookupUnwind idOf docId coll groups)
  <-> In g groups /\ In d coll /\ docId d = idOf g.
Proof.
  unfold lookupUnwind. rewrite in_flat_map. split.
  - intros (g' & Hg & Hin). apply in_map_iff in Hin.
    destruct Hin as (d' & Heq & Hd). injection Heq as -> ->.
    apply filter_In in Hd. destruct Hd as [Hd Hid].
    apply String.eqb_eq in Hid. auto.
  - intros (Hg & Hd & Hid). exists g. split; [exact Hg|].
    apply in_map, filter_In. split; [exact Hd|]. now apply String.eqb_eq.
Qed.

Lemma rowDesc_total (x y : MemberRow.t) :
  rowDesc x y = true \/ rowDesc y x = true.
Proof. unfold rowDesc. apply numberLe_total. Qed.

Lemma rowDesc_trans (x y z : MemberRow.t) :
  rowDesc x y = true -> rowDesc y z = true -> rowDesc x z = true.
Proof. unfold rowDesc. intros H1 H2. eapply numberLe_trans; eauto. Qed.

Section MemberWise.

Variable arrange : forall A : Type, list A -> list A.
Hypothesis arrange_perm : forall (A : Type) (l : list A),
    Permutation (arrange A l) l.
Variable accumulate : list float -> float.

(** X15. The member-wise report of a Rotaract year.  Each row carries the
    user whose [_id] is the row's; its figures are computed over that
    member's expenses of the year, taken in their order: [totalAmount] is
    what the store's accumulator makes of their amounts, [expenseCount]
    their number, [approvedAmount] what the accumulator makes of the amounts
    with 0 put in place of the amount of every expense that is not approved,
    reimbursed or paid, [pendingAmount] and [rejectedAmount] the same for
    the pending and the rejected ones.  The rows come in descending order of
    [totalAmount], and every user of the collection with an expense in the
    year has a row. *)
Theorem memberWiseReport_rows (db : Db) (now : Date)
  (asked : option string) :
  let year :=
    match asked with
    | Some y => if (y =? EmptyString)%string then getFinancialYear now else y
    | None => getFinancialYear now
    end in
  let records :=
    filter (fun e => (rotaractYear e =? year)%string) (expenses db) in
  let report := getMemberWiseReport arrange accumulate db now asked in
  (forall row user, In (row, user) report ->
     let own :=
       filter (fun e => (member e =? MemberRow._id row)%string) records in
     let amountIf (p : Expense -> bool) :=
       accumulate (map (fun e => if p e then amount e else zero) own) in
     User._id user = MemberRow._id row
     /\ In user (users db)
     /\ own <> []
     /\ MemberRow.totalAmount row = accumulate (map amount own)
     /\ MemberRow.expenseCount row = Z.of_nat (List.length own)
     /\ MemberRow.approvedAmount row
        = amountIf (fun e => contributing (status e))
     /\ MemberRow.pendingAmount row
        = amountIf (fun e => Status_eqb (status e) pending)
     /\ MemberRow.rejectedAmount row
        = amountIf (fun e => Status_eqb (status e) rejected))
  /\ StronglySorted
       (fun a b =>
          numberLe (MemberRow.totalAmount b) (MemberRow.totalAmount a) = true)
       (map fst report)
  /\ (forall user e, In user (users db) ->
        In e records ->
        member e = User._id user ->
        exists row, In (row, user) report).
Proof.
  intros year records report. unfold report, getMemberWiseReport.
  change (matchYear (yearOf asked now) (expenses db)) with records.
  set (bs := buckets String.eqb member records).
  set (rows := sortBy rowDesc (arrange _ (map (memberRow accumulate) bs))).
  assert (Hrows : forall row, In row rows
                              <-> In row (map (memberRow accumulate) bs)).
  { intros row. unfold rows. split; intros H.
    - eapply Permutation_in; [apply arrange_perm|].
      eapply Permutation_in; [apply sortBy_perm|exact H].
    - eapply Permutation_in; [symmetry; apply sortBy_perm|].
      eapply Permutation_in; [symmetry; apply arrange_perm|exact H]. }
  destruct (buckets_spec String.eqb member String.eqb_eq records)
    as (_ & Hkeys & Hspec). fold bs in Hkeys, Hspec.
  split; [|split].
  - intros row user Hin.
    apply lookupUnwind_In in Hin. destruct Hin as (Hrow & Huser & Hid).
    apply Hrows, in_map_iff in Hrow. destruct Hrow as ([k es] & <- & Hb).
    pose proof (Hspec k es Hb) as Hes.
    assert (Hown : filter (fun e => (member e =? k)%string) records = es).
    { symmetry. exact Hes. }
    assert (Hne : es <> []).
    { destruct (proj1 (Hkeys k)) as (d & Hd & Hk).
      - apply in_map_iff. exists (k, es). auto.
      - intros Hnil. rewrite <- Hown in Hnil.
        assert (Hin : In d (filter (fun e => (member e =? k)%string) records))
          by (apply filter_In; split; [exact Hd|now apply String.eqb_eq]).
        rewrite Hnil in Hin. exact Hin. }
    cbn [memberRow MemberRow._id fst snd MemberRow.totalAmount
         MemberRow.expenseCount MemberRow.approvedAmount
         MemberRow.pendingAmount MemberRow.rejectedAmount] in *.
    rewrite Hown. unfold sumIf.
    repeat (split; [first [assumption | reflexivity]|]). reflexivity.
  - apply (StronglySorted_impl (ordered rowDesc)).
    { intros a b H. exact H. }
    apply lookupUnwind_sorted.
    { intros g. unfold ordered, rowDesc. apply numberLe_refl. }
    apply sortBy_sorted; [apply rowDesc_total | apply rowDesc_trans].
  - intros user e Huser He Hm.
    assert (Hk : In (member e) (map fst bs))
      by (apply Hkeys; now exists e).
    apply in_map_iff in Hk. destruct Hk as ([k es] & Hfst & Hb).
    simpl in Hfst. subst k.
    exists (memberRow accumulate (member e, es)).
    apply lookupUnwind_In. split; [|split; [exact Huser|now rewrite Hm]].
    apply Hrows. now apply in_map.
Qed.

End MemberWise.

Lemma memberWiseReport_rows_witness :
  StronglySorted
    (fun a b =>
       numberLe (MemberRow.totalAmount b) (MemberRow.totalAmount a) = true)
    (map fst
       (getMemberWiseReport firstSeen plainSum
          (sampleDb [sampleExpense expenseA alice travel_expense 1500 pending;
                     sampleExpense expenseB bob donation 250 approved;
                     sampleExpense expenseC alice accommodation 40 rejected])
          noon None)).
Proof.
  exact (proj1 (proj2 (memberWiseReport_rows firstSeen
                         (fun A l => Permutation_refl l) plainSum
                         (sampleDb _) noon None))).
Defined.

(** ** The figures of a year *)

Lemma totalOf_ofStatus (s : Status) (gs : list (Rollup.t Status)) :
  totalOf s gs = orZero (ofStatus Rollup.total zero s gs).
Proof.
  unfold totalOf, ofStatus.
  now destruct (find (fun g => Status_eqb (Rollup._id g) s) gs).
Qed.

Section YearFigures.

Variable arrange : forall A : Type, list A -> list A.
Hypothesis arrange_perm : forall (A : Type) (l : list A),
    Permutation (arrange A l) l.
Variable accumulate : list float -> float.

(** X16. The totals of the financial summary of a year.  [totalApproved],
    [totalPending], [totalRejected] and [totalReimbursed] are what the
    store's accumulator makes of the amounts of the year's expenses with
    that status, with 0 for a status that no expense has and in place of a
    figure that is 0 or not a number; the paid expenses have no total of
    their own; [totalExpenses] is the floating-point sum of the totals of
    all the status groups, the paid one included, added from 0 in the order
    in which the store emits the groups. *)
Theorem financialSummary_totals (db : Db) (now : Date)
  (asked : option string) :
  let year :=
    match asked with
    | Some y => if (y =? EmptyString)%string then getFinancialYear now else y
    | None => getFinancialYear now
    end in
  let records :=
    filter (fun e => (rotaractYear e =? year)%string) (expenses db) in
  let summary := getFinancialSummary arrange accumulate db now asked in
  let totals := Summary.totals summary in
  isRollupOf accumulate Status_eqb status records
    (Summary.expensesByStatus summary)
  /\ Totals.totalApproved totals = orZero (amountIn accumulate approved records)
  /\ Totals.totalPending totals = orZero (amountIn accumulate pending records)
  /\ Totals.totalRejected totals
     = orZero (amountIn accumulate rejected records)
  /\ Totals.totalReimbursed totals
     = orZero (amountIn accumulate reimbursed records)
  /\ Totals.totalExpenses totals
     = fold_left PrimFloat.add
         (map Rollup.total (Summary.expensesByStatus summary)) zero.
Proof.
  intros year records summary totals.
  assert (Hr : isRollupOf accumulate Status_eqb status records
                 (Summary.expensesByStatus summary)).
  { apply groups_are_rollup; [apply Status_eqb_eq | apply arrange_perm]. }
  split; [exact Hr|].
  unfold totals, summary, getFinancialSummary.
  cbn [Summary.totals Totals.totalApproved Totals.totalPending
       Totals.totalRejected Totals.totalReimbursed Totals.totalExpenses
       Summary.expensesByStatus].
  rewrite !totalOf_ofStatus.
  rewrite !(ofStatus_total accumulate records _ _ Hr).
  repeat (split; [reflexivity|]). apply fold_left_add.
Qed.

End YearFigures.

Lemma financialSummary_totals_witness :
  Totals.totalPending
    (Summary.totals
       (getFinancialSummary firstSeen plainSum
          (sampleDb [sampleExpense expenseA alice travel_expense 1500 pending;
                     sampleExpense expenseB bob donation 250 approved;
                     sampleExpense expenseC alice accommodation 40 paid])
          noon None))
  = 1500%float.
Proof.
  rewrite (proj1 (proj2 (proj2
    (financialSummary_totals firstSeen (fun A l => Permutation_refl l)
       plainSum (sampleDb _) noon None)))).
  reflexivity.
Defined.

(** ** Deleting events and members *)

Lemma removeFirst_find {A : Type} (f : A -> bool) (l : list A) (x : A) :
  find f l = Some x ->
  exists before after,
    l = before ++ x :: after
    /\ removeFirst f l = before ++ after
    /\ Forall (fun y => f y = false) before.
Proof.
  induction l as [|y rest IH]; simpl; [discriminate|].
  destruct (f y) eqn:Hy.
  - intros [= ->]. exists [], rest. repeat split. constructor.
  - intros Hf. destruct (IH Hf) as (before & after & -> & Hr & Hall).
    exists (y :: before), after. simpl. rewrite Hr.
    repeat split. now constructor.
Qed.

Lemma find_removed {A : Type} (key : A -> ObjectId) (oid : ObjectId)
  (before after : list A) (x : A) :
  NoDup (map key (before ++ x :: after)) ->
  key x = oid ->
  find (fun y => (key y =? oid)%string) (before ++ after) = None.
Proof.
  intros Hnd Hx.
  destruct (find _ (before ++ after)) as [y|] eqn:Hf; [|reflexivity].
  apply find_some in Hf. destruct Hf as [Hin Hy].
  apply String.eqb_eq in Hy. exfalso.
  apply NoDup_map_remove in Hnd. destruct Hnd as [_ Hnot].
  apply Hnot. rewrite Hx, <- Hy. now apply in_map.
Qed.

Lemma countDocuments_pos {A : Type} (f : A -> bool) (l : list A) :
  (0 <? countDocuments f l) = true <-> filter f l <> [].
Proof.
  unfold countDocuments. rewrite Z.ltb_lt.
  destruct (filter f l); simpl; split; try lia; try congruence.
Qed.

Section Deleting.

Variable arrange : forall A : Type, list A -> list A.
Hypothesis arrange_perm : forall (A : Type) (l : list A),
    Permutation (arrange A l) l.
Variable accumulate : list float -> float.

(** X18. Deleting an event that is found.  The delete is answered 200
    exactly when no expense refers to the event, which is exactly when the
    page of the event lists no category group (and then shows a spending of
    0); otherwise it is answered 400, with the number of these expenses in
    the message, and nothing changes.  A delete that succeeds takes this one
    event out of the events, keeps the others in their order and leaves
    expenses and users as they are; with unique event identifiers a second
    delete is answered 404. *)
Theorem deleteEvent_needs_no_spending (db : Db) (id : string)
  (ev : Event.t) :
  Event_findById (events db) (Some (VString id)) = Doc ev ->
  let linked :=
    filter (fun e => (event e =? Event._id ev)%string) (expenses db) in
  let out := deleteEvent db id in
  (statusCode (snd out) = 200 <-> linked = [])
  /\ (eventSummary arrange accumulate db (Event._id ev) = [] <-> linked = [])
  /\ (linked = [] ->
      eventSpending arrange accumulate db (Event._id ev) = zero)
  /\ (linked <> [] ->
      statusCode (snd out) = 400
      /\ fst out = db
      /\ message (snd out)
         = ("Cannot delete event with "
            ++ string_of_Z (Z.of_nat (List.length linked))
            ++ " associated expenses")%string)
  /\ (linked = [] ->
      expenses (fst out) = expenses db
      /\ users (fst out) = users db
      /\ (exists before after,
             events db = before ++ ev :: after
             /\ events (fst out) = before ++ after)
      /\ (NoDup (map Event._id (events db)) ->
          statusCode (snd (deleteEvent (fst out) id)) = 404)).
Proof.
  intros Hfound linked out.
  assert (Hsummary : eventSummary arrange accumulate db (Event._id ev) = []
                     <-> linked = []).
  { unfold eventSummary. fold linked.
    assert (Hr : isRollupOf accumulate Category_eqb category linked
                   (arrange _ (map (rollup accumulate)
                                 (buckets Category_eqb category linked)))).
    { apply groups_are_rollup; [apply Category_eqb_eq | apply arrange_perm]. }
    destruct Hr as (_ & Hkeys & _). split.
    - intros Hnil. rewrite Hnil in Hkeys.
      destruct linked as [|e es]; [reflexivity|]. exfalso.
      apply (proj2 (Hkeys (category e))). exists e. split; [now left|].
      reflexivity.
    - intros Hnil. rewrite Hnil. simpl.
      apply Permutation_nil. symmetry. apply arrange_perm. }
  assert (Hcount : (0 <? countDocuments
                            (fun e => (event e =? Event._id ev)%string)
                            (expenses db)) = true <-> linked <> [])
    by apply countDocuments_pos.
  assert (Hout : out = deleteEvent db id) by reflexivity.
  unfold deleteEvent in Hout. rewrite Hfound in Hout. cbv zeta in Hout.
  pose proof Hfound as Hcast. unfold Event_findById in Hcast.
  cbn [castId] in Hcast.
  destruct (castObjectId id) as [oid|] eqn:Hoid; [|discriminate].
  destruct (find (fun d => (Event._id d =? oid)%string) (events db))
    as [d|] eqn:Hfind; [|discriminate].
  injection Hcast as ->.
  assert (Hid : Event._id ev = oid).
  { apply find_some in Hfind. destruct Hfind as [_ H].
    now apply String.eqb_eq in H. }
  split; [|split; [exact Hsummary|split]].
  - destruct (0 <? countDocuments _ (expenses db)) eqn:Hc; rewrite Hout.
    + assert (Hne : linked <> []) by now apply Hcount.
      cbn [fst snd fail statusCode]. split; [discriminate|contradiction].
    + cbn [fst snd statusCode]. split; [|reflexivity]. intros _.
      destruct linked eqn:Hl; [reflexivity|].
      assert (H : false = true) by (apply Hcount; discriminate).
      discriminate.
  - intros Hnil. unfold eventSpending.
    now rewrite (proj2 Hsummary Hnil).
  - split.
    + intros Hne. apply Hcount in Hne. rewrite Hne in Hout. rewrite Hout.
      cbn [fst snd fail statusCode message]. auto.
    + intros Hnil.
      destruct (0 <? countDocuments _ (expenses db)) eqn:Hc.
      { exfalso. now apply (proj1 Hcount eq_refl). }
      rewrite Hout. cbn [fst snd statusCode expenses users events].
      split; [reflexivity|]. split; [reflexivity|].
      rewrite Hid.
      destruct (removeFirst_find _ _ _ Hfind)
        as (before & after & Hev & Hrem & _).
      split; [now exists before, after|].
      intros Hnd. unfold deleteEvent, Event_findById.
      cbn [castId events]. rewrite Hoid, Hrem.
      rewrite Hev in Hnd.
      now rewrite (find_removed Event._id oid before after ev Hnd Hid).
Qed.

(** X19. Deleting a member that is found.  The delete is answered 200
    exactly when no expense was submitted by the member; otherwise it is
    answered 400, with the number of these expenses in the message, and
    nothing changes.  So a member who has a row in the member-wise report
    of any year is not deleted.  A delete that succeeds takes this one user
    out of the users, keeps the others in their order and leaves expenses
    and events as they are; with unique user identifiers a second delete is
    answered 404. *)
Theorem deleteMember_needs_no_expenses (db : Db) (id : string)
  (u : User.t) :
  User_findById (users db) (Some (VString id)) = Doc u ->
  let theirs :=
    filter (fun e => (member e =? User._id u)%string) (expenses db) in
  let out := deleteMember db id in
  (statusCode (snd out) = 200 <-> theirs = [])
  /\ (theirs <> [] ->
      statusCode (snd out) = 400
      /\ fst out = db
      /\ message (snd out)
         = ("Cannot delete member with "
            ++ string_of_Z (Z.of_nat (List.length theirs))
            ++ " associated expenses. Consider marking as inactive instead.")%string)
  /\ (forall now asked row,
         In (row, u) (getMemberWiseReport arrange accumulate db now asked) ->
         statusCode (snd out) = 400)
  /\ (theirs = [] ->
      expenses (fst out) = expenses db
      /\ events (fst out) = events db
      /\ (exists before after,
             users db = before ++ u :: after
             /\ users (fst out) = before ++ after)
      /\ (NoDup (map User._id (users db)) ->
          statusCode (snd (deleteMember (fst out) id)) = 404)).
Proof.
  intros Hfound theirs out.
  assert (Hcount : (0 <? countDocuments
                            (fun e => (member e =? User._id u)%string)
                            (expenses db)) = true <-> theirs <> [])
    by apply countDocuments_pos.
  assert (Hout : out = deleteMember db id) by reflexivity.
  unfold deleteMember in Hout. rewrite Hfound in Hout. cbv zeta in Hout.
  pose proof Hfound as Hcast. unfold User_findById in Hcast.
  cbn [castId] in Hcast.
  destruct (castObjectId id) as [oid|] eqn:Hoid; [|discriminate].
  destruct (find (fun d => (User._id d =? oid)%string) (users db))
    as [d|] eqn:Hfind; [|discriminate].
  injection Hcast as ->.
  assert (Hid : User._id u = oid).
  { apply find_some in Hfind. destruct Hfind as [_ H].
    now apply String.eqb_eq in H. }
  assert (Hrow : forall now asked row,
             In (row, u)
               (getMemberWiseReport arrange accumulate db now asked) ->
             theirs <> []).
  { intros now asked row Hin. unfold getMemberWiseReport in Hin.
    apply lookupUnwind_In in Hin. destruct Hin as (Hr & _ & Hu).
    apply (Permutation_in _ (sortBy_perm _ _)) in Hr.
    apply (Permutation_in _ (arrange_perm _ _)) in Hr.
    apply in_map_iff in Hr. destruct Hr as ([k es] & <- & Hb).
    simpl in Hu.
    destruct (buckets_spec String.eqb member String.eqb_eq
                (matchYear (yearOf asked now) (expenses db)))
      as (_ & Hkeys & _).
    destruct (proj1 (Hkeys k)) as (e & He & Hk).
    { apply in_map_iff. exists (k, es). auto. }
    apply filter_In in He. destruct He as [He _].
    intros Hnil.
    assert (Hin : In e theirs).
    { apply filter_In. split; [exact He|]. apply String.eqb_eq. congruence. }
    rewrite Hnil in Hin. exact Hin. }
  destruct (0 <? countDocuments _ (expenses db)) eqn:Hc.
  - assert (Hne : theirs <> []) by now apply Hcount.
    rewrite Hout. cbn [fst snd fail statusCode message].
    split; [split; [discriminate|contradiction]|].
    split; [auto|]. split; [auto|contradiction].
  - assert (Hnil : theirs = []).
    { destruct theirs eqn:Hl; [reflexivity|].
      assert (H : false = true) by (apply Hcount; discriminate).
      discriminate. }
    rewrite Hout. cbn [fst snd statusCode expenses users events].
    split; [tauto|].
    split; [intros H; contradiction|].
    split.
    { intros now asked row Hin. exfalso. exact (Hrow now asked row Hin Hnil). }
    intros _. split; [reflexivity|]. split; [reflexivity|].
    rewrite Hid.
    destruct (removeFirst_find _ _ _ Hfind)
      as (before & after & Hev & Hrem & _).
    split; [now exists before, after|].
    intros Hnd. unfold deleteMember, User_findById.
    cbn [castId users]. rewrite Hoid, Hrem.
    rewrite Hev in Hnd.
    now rewrite (find_removed User._id oid before after u Hnd Hid).
Qed.

End Deleting.

Lemma deleteEvent_needs_no_spending_witness :
  statusCode
    (snd (deleteEvent
            (sampleDb [sampleExpense expenseA alice travel_expense 1500
                         pending])
            gala)) = 200
  <-> filter (fun e => (event e =? gala)%string)
        [sampleExpense expenseA alice travel_expense 1500 pending] = [].
Proof.
  exact (proj1 (deleteEvent_needs_no_spending firstSeen
                  (fun A l => Permutation_refl l) plainSum
                  (sampleDb _) gala (Event.mk gala "Gala" 10000)
                  eq_refl)).
Defined.

Lemma deleteMember_needs_no_expenses_witness :
  statusCode
    (snd (deleteMember
            (sampleDb [sampleExpense expenseA alice travel_expense 1500
                         pending])
            bob)) = 200
  <-> filter (fun e => (member e =? bob)%string)
        [sampleExpense expenseA alice travel_expense 1500 pending] = [].
Proof.
  exact (proj1 (deleteMember_needs_no_expenses firstSeen
                  (fun A l => Permutation_refl l) plainSum
                  (sampleDb _) bob (User.mk bob "Bob" "B" "bob@club.org")
                  eq_refl)).
Defined.

(** ** The leaderboard *)










Section Leaderboard.

Variable arrange : forall A : Type, list A -> list A.
Hypothesis arrange_perm : forall (A : Type) (l : list A),
    Permutation (arrange A l) l.
Variable accumulate : list float -> float.


End Leaderboard.


(** ** Closing a year *)

Lemma archived_fields (year : string) (e : Expense) :
  let e' := if (rotaractYear e =? year)%string
            then set_isArchived true e else e in
  _id e' = _id e /\ status e' = status e /\ amount e' = amount e
  /\ rotaractYear e' = rotaractYear e
  /\ validateSync e' = validateSync e
  /\ member e' = member e /\ event e' = event e.
Proof.
  cbv zeta. destruct (rotaractYear e =? year)%string; [|auto 7].
  now destruct e.
Qed.

Section Renewed.

Variable g : Expense -> Expense.
Hypothesis g_id : forall e, _id (g e) = _id e.
Hypothesis g_status : forall e, status (g e) = status e.
Hypothesis g_amount : forall e, amount (g e) = amount e.
Hypothesis g_year : forall e, rotaractYear (g e) = rotaractYear e.
Hypothesis g_valid : forall e, validateSync (g e) = validateSync e.
Hypothesis g_member : forall e, member (g e) = member e.
Hypothesis g_event : forall e, event (g e) = event e.

Lemma find_renewed (oid : ObjectId) (coll : list Expense) :
  find (fun e => (_id e =? oid)%string) (map g coll)
  = option_map g (find (fun e => (_id e =? oid)%string) coll).
Proof.
  induction coll as [|e rest IH]; simpl; [reflexivity|].
  rewrite g_id. now destruct (_id e =? oid)%string.
Qed.

Lemma findById_renewed (coll : list Expense) (id : string) :
  findById (map g coll) id
  = match findById coll id with
    | CastError => CastError
    | Missing => Missing
    | Doc e => Doc (g e)
    end.
Proof.
  unfold findById. destruct (castObjectId id) as [oid|]; [|reflexivity].
  rewrite find_renewed.
  now destruct (find (fun e => (_id e =? oid)%string) coll).
Qed.

Lemma updateOne_renewed (oid : ObjectId) (f : Expense -> Expense)
  (coll : list Expense) :
  (updateOne oid f (map g coll) = None) <-> (updateOne oid f coll = None).
Proof.
  induction coll as [|e rest IH]; simpl; [tauto|].
  rewrite g_id. destruct (_id e =? oid)%string; [split; discriminate|].
  destruct (updateOne oid f (map g rest)), (updateOne oid f rest); simpl;
    split; intros H; try discriminate; try reflexivity;
    exfalso; destruct IH as [H1 H2];
    first [ specialize (H1 eq_refl) | specialize (H2 eq_refl) ];
    discriminate.
Qed.

Lemma save_renewed (okm errm : string) (db db' : Db) (d d' : Expense)
  (m : Modified) (resolved : bool) :
  expenses db' = map g (expenses db) ->
  _id d' = _id d -> validateSync d' = validateSync d ->
  statusCode (snd (save okm errm db' (Saving d' m resolved)))
  = statusCode (snd (save okm errm db (Saving d m resolved))).
Proof.
  intros Hex Hid Hv. unfold save. rewrite Hex, Hid, Hv.
  destruct (negb (validateSync d)); [reflexivity|].
  pose proof (updateOne_renewed (_id d) (applyModified m) (expenses db))
    as H.
  destruct (updateOne (_id d) (applyModified m) (map g (expenses db))),
    (updateOne (_id d) (applyModified m) (expenses db));
    try (destruct resolved; reflexivity); exfalso; destruct H as [H1 H2];
    first [ specialize (H1 eq_refl) | specialize (H2 eq_refl) ];
    discriminate.
Qed.

Lemma handle_renewed (db db' : Db) (q : Request) :
  expenses db' = map g (expenses db) ->
  users db' = users db -> events db' = events db ->
  statusCode (snd (handle db' q)) = statusCode (snd (handle db q)).
Proof.
  intros Hex Hus Hev.
  assert (Hpop : forall e, populated db' (g e) = populated db e).
  { intros e. unfold populated. now rewrite Hus, Hev, g_member, g_event. }
  assert (Hval : forall m e,
             validateSync (applyModified m (g e))
             = validateSync (applyModified m e)).
  { intros m e. now rewrite !validateSync_applyModified. }
  destruct q as [user now id|user now id reason|user now id reference];
    cbn [handle];
    unfold approveExpense, rejectExpense, reimburseExpense,
      approve_read, reject_read, reimburse_read;
    rewrite Hex, findById_renewed;
    try (destruct (falsy reason); [reflexivity|]);
    (destruct (findById (expenses db) id) as [| |e]; try reflexivity);
    rewrite g_status;
    match goal with
    | |- context [negb ?b] => destruct b
    end; cbn [negb]; try reflexivity;
    rewrite ?Hpop;
    apply save_renewed; try exact Hex.
  - simpl. apply g_id.
  - apply (Hval (Approved user now)).
  - simpl. apply g_id.
  - apply (Hval (Rejected user now _)).
  - simpl. apply g_id.
  - apply (Hval (Reimbursed user now reference)).
Qed.

Lemma yearSummary_renewed (sum : list float -> float) (year : string)
  (coll : list Expense) :
  yearSummary sum year (map g coll) = yearSummary sum year coll.
Proof.
  unfold yearSummary, matchYear.
  assert (Hf : filter (fun e => (rotaractYear e =? year)%string) (map g coll)
               = map g (filter (fun e => (rotaractYear e =? year)%string)
                          coll)).
  { induction coll as [|e rest IH]; simpl; [reflexivity|].
    rewrite g_year. destruct (rotaractYear e =? year)%string; simpl;
      now rewrite IH. }
  rewrite Hf.
  set (es := filter (fun e => (rotaractYear e =? year)%string) coll).
  assert (Hs : forall cond : Status -> bool,
             sumIf sum (fun e => cond (status e)) (map g es)
             = sumIf sum (fun e => cond (status e)) es).
  { intros cond. unfold sumIf. rewrite map_map. f_equal.
    apply map_ext. intros e. now rewrite g_status, g_amount. }
  assert (Ha : sum (map amount (map g es)) = sum (map amount es)).
  { rewrite map_map. f_equal. apply map_ext. intros e. apply g_amount. }
  destruct es as [|e rest]; [reflexivity|].
  change (map g (e :: rest)) with (g e :: map g rest) in *.
  cbv iota beta.
  rewrite Ha.
  rewrite (Hs contributing), (Hs (fun s => Status_eqb s reimbursed)).
  reflexivity.
Qed.

End Renewed.

(** X21. Closing the year.  The close is answered 200 exactly when the
    current Rotaract year is not yet archived, and 400 with nothing changed
    otherwise.  After a close that succeeds every stored expense of the
    year is archived, and a second close under a clock of the same year is
    refused and changes nothing.  The archive flag is only a mark: the
    figures of every year are what they were, every approval, rejection and
    reimbursement is answered with the same status code as before the
    close, and an expense submitted afterwards in the same year is stored
    unarchived. *)
Theorem closeYear_marks_the_year (db : Db) (now : Date) :
  let year := getFinancialYear now in
  let out := closeYear db now in
  (statusCode (snd out) = 200 <-> ~ In year (archivedYears db))
  /\ (In year (archivedYears db) ->
      statusCode (snd out) = 400 /\ fst out = db)
  /\ (~ In year (archivedYears db) ->
      (forall e, In e (expenses (fst out)) ->
                 rotaractYear e = year -> isArchived e = true)
      /\ (forall later, getFinancialYear later = year ->
            statusCode (snd (closeYear (fst out) later)) = 400
            /\ fst (closeYear (fst out) later) = fst out)
      /\ (forall sum y, yearSummary sum y (expenses (fst out))
                        = yearSummary sum y (expenses db))
      /\ (forall q, statusCode (snd (handle (fst out) q))
                    = statusCode (snd (handle db q)))
      /\ (forall user newId later body file,
            getFinancialYear later = year ->
            statusCode (snd (createExpense (fst out) user newId later body
                               file)) = 201 ->
            exists e,
              expenses (fst (createExpense (fst out) user newId later body
                               file))
              = expenses (fst out) ++ [e]
              /\ rotaractYear e = year /\ isArchived e = false)).
Proof.
  intros year out.
  assert (Hout : out = closeYear db now) by reflexivity.
  unfold closeYear in Hout. fold year in Hout.
  destruct (includes (archivedYears db) year) eqn:Hinc.
  - assert (Hin : In year (archivedYears db)) by now apply includes_In.
    rewrite Hout. cbn [fst snd fail statusCode].
    split; [split; [discriminate|contradiction]|].
    split; [auto|contradiction].
  - assert (Hnot : ~ In year (archivedYears db)).
    { intros H. apply includes_In in H. congruence. }
    rewrite Hout. cbn [fst snd statusCode expenses archivedYears].
    split; [tauto|]. split; [contradiction|]. intros _.
    split.
    { intros e He Hy. unfold archiveExpenses in He.
      apply in_map_iff in He. destruct He as (x & <- & _).
      destruct (rotaractYear x =? year)%string eqn:Hx; [now destruct x|].
      apply String.eqb_neq in Hx. contradiction. }
    split.
    { intros later Hl. unfold closeYear. rewrite Hl.
      cbn [archivedYears includes existsb].
      rewrite String.eqb_refl. cbn [orb fst snd fail statusCode]. auto. }
    split.
    { intros sum y. unfold archiveExpenses.
      apply yearSummary_renewed; intros e; apply (archived_fields year e). }
    split.
    { intros q. apply (handle_renewed
                         (fun e => if (rotaractYear e =? year)%string
                                   then set_isArchived true e else e));
        try (intros e; apply (archived_fields year e));
        reflexivity. }
    intros user newId later body file Hl.
    unfold createExpense. cbn [events expenses].
    destruct (Event_findById (events db) (get body "event"));
      try (cbn [snd fail statusCode]; discriminate).
    destruct (Expense_create _ _ _ _ _ _ _ _ _ _ _ _ _ _ _ _) as [e|] eqn:Hc;
      [|cbn [snd fail statusCode]; discriminate].
    intros _. exists e. cbn [fst with_expenses expenses].
    apply Expense_create_inv in Hc.
    destruct Hc as (_ & _ & _ & Hy & Ha & _).
    split; [reflexivity|]. split; [congruence|exact Ha].
Qed.

(** ** Requests that fail *)

Lemma updateOne_length (oid : ObjectId) (f : Expense -> Expense)
  (coll coll' : list Expense) :
  updateOne oid f coll = Some coll' -> List.length coll' = List.length coll.
Proof.
  revert coll'. induction coll as [|x rest IH]; simpl; intros coll' H;
    [discriminate|].
  destruct (_id x =? oid)%string.
  - injection H as <-. reflexivity.
  - destruct (updateOne oid f rest) as [rest'|]; [|discriminate].
    injection H as <-. simpl. now rewrite (IH rest').
Qed.

Lemma findByIdAndUpdate_length (id : ObjectId)
  (updates : list (string * Value)) (coll coll' : list Expense)
  (r : option Expense) :
  findByIdAndUpdate id updates coll = Some (coll', r) ->
  List.length coll' = List.length coll.
Proof.
  intros H. apply findByIdAndUpdate_rewrites in H.
  symmetry. eapply Forall2_length; eauto.
Qed.

Lemma deleteOne_length (oid : ObjectId) (coll : list Expense) (e : Expense) :
  find (fun x => (_id x =? oid)%string) coll = Some e ->
  S (List.length (deleteOne oid coll)) = List.length coll.
Proof.
  intros H. destruct (deleteOne_split oid coll e H)
    as (before & after & -> & -> & _).
  rewrite !length_app. simpl. lia.
Qed.

Lemma save_answered (okm errm : string) (db : Db) (doc : Expense)
  (m : Modified) :
  let out := save okm errm db (Saving doc m true) in
  (fst out = db /\ snd out = fail 500 errm)
  \/ (snd out = ok 200 okm doc
      /\ List.length (expenses (fst out)) = List.length (expenses db)).
Proof.
  cbv zeta. unfold save. destruct (validateSync doc); [|left; auto].
  cbn [negb].
  destruct (updateOne _ _ _) as [coll|] eqn:Hu; [right|left; auto].
  split; [reflexivity|]. simpl. eapply updateOne_length; eauto.
Qed.

(** A transition that answers before its write answers 400, 404 or 500. *)
Lemma replied_is_failure (db : Db) (q : Request) (r : Response) :
  read db q = Replied r ->
  exists code msg, r = fail code msg /\ In code [400; 404; 500].
Proof.
  destruct q as [u t id|u t id reason|u t id ref]; simpl.
  - unfold approve_read.
    destruct (findById (expenses db) id) as [| |e];
      try (intros H; injection H as <-; do 2 eexists; split;
           [reflexivity | simpl; tauto]).
    destruct (negb (Status_eqb (status e) pending)); [|discriminate].
    intros H; injection H as <-; do 2 eexists; split;
      [reflexivity | simpl; tauto].
  - unfold reject_read.
    destruct (falsy reason);
      [intros H; injection H as <-; do 2 eexists; split;
       [reflexivity | simpl; tauto]|].
    destruct (findById (expenses db) id) as [| |e];
      try (intros H; injection H as <-; do 2 eexists; split;
           [reflexivity | simpl; tauto]).
    destruct (negb (Status_eqb (status e) pending)); [|discriminate].
    intros H; injection H as <-; do 2 eexists; split;
      [reflexivity | simpl; tauto].
  - unfold reimburse_read.
    destruct (findById (expenses db) id) as [| |e];
      try (intros H; injection H as <-; do 2 eexists; split;
           [reflexivity | simpl; tauto]).
    destruct (negb (Status_eqb (status e) approved)); [|discriminate].
    intros H; injection H as <-; do 2 eexists; split;
      [reflexivity | simpl; tauto].
Qed.

Lemma perform_answered (db : Db) (op : Op) :
  referencesExist db ->
  let out := perform db op in
  let r := snd out in
  (fst out = db /\ success r = false /\ data r = None
   /\ In (statusCode r) [400; 404; 500])
  \/ (success r = true /\ statusCode r = 201
      /\ (exists e, expenses (fst out) = expenses db ++ [e]
                    /\ data r = Some e)
      /\ match op with OpCreate _ _ _ _ _ | OpManual _ _ _ _ _ => True
         | _ => False end)
  \/ (success r = true /\ statusCode r = 200
      /\ match op with
         | OpCreate _ _ _ _ _ | OpManual _ _ _ _ _ => False
         | OpDelete _ =>
             S (List.length (expenses (fst out))) = List.length (expenses db)
         | _ => List.length (expenses (fst out)) = List.length (expenses db)
         end).
Proof.
  intros Href.
  assert (Hfail : forall code msg,
             In code [400; 404; 500] ->
             fst (db, fail code msg) = db
             /\ success (snd (db, fail code msg)) = false
             /\ data (snd (db, fail code msg)) = None
             /\ In (statusCode (snd (db, fail code msg))) [400; 404; 500]).
  { intros code msg H. simpl. auto. }
  assert (Hsave : forall okm errm doc m,
             let out := save okm errm db (Saving doc m true) in
             (fst out = db /\ success (snd out) = false
              /\ data (snd out) = None
              /\ In (statusCode (snd out)) [400; 404; 500])
             \/ (success (snd out) = true /\ statusCode (snd out) = 200
                 /\ List.length (expenses (fst out))
                    = List.length (expenses db))).
  { intros okm errm doc m out.
    destruct (save_answered okm errm db doc m) as [[H1 H2]|[H1 H2]];
      fold out in H1, H2; [left|right]; rewrite ?H1, ?H2; simpl; auto 10. }
  destruct op as [user newId now body file|user newId now body file
                 |id body file|q|id|now]; cbn [perform]; cbv zeta.
  - unfold createExpense.
    destruct (Event_findById _ _);
      try (left; apply Hfail; simpl; tauto).
    destruct (Expense_create _ _ _ _ _ _ _ _ _ _ _ _ _ _ _ _) as [e|];
      [|left; apply Hfail; simpl; tauto].
    right; left. simpl. repeat split; eauto.
  - unfold addManualExpense.
    repeat match goal with
           | |- context [if ?b then _ else _] =>
               destruct b; [left; apply Hfail; simpl; tauto|]
           end.
    destruct (User_findById _ _); try destruct (Event_findById _ _);
      try (left; apply Hfail; simpl; tauto).
    destruct (Expense_create _ _ _ _ _ _ _ _ _ _ _ _ _ _ _ _) as [e|];
      [|left; apply Hfail; simpl; tauto].
    right; left. simpl. repeat split; eauto.
  - unfold updateExpense.
    destruct (findById _ _); try (left; apply Hfail; simpl; tauto).
    cbv zeta.
    destruct (findByIdAndUpdate _ _ _) as [[coll r]|] eqn:Hu;
      [|left; apply Hfail; simpl; tauto].
    right; right. simpl. repeat split.
    eapply findByIdAndUpdate_length; eauto.
  - rewrite handle_read.
    destruct (read db q) as [r|doc m resolved] eqn:Hread.
    + left. apply replied_is_failure in Hread.
      destruct Hread as (code & msg & -> & Hcode). now apply Hfail.
    + apply read_saving in Hread.
      destruct Hread as (e & Hf & _ & _ & _ & _ & ->).
      assert (Hres : referencesResolved db q e = true).
      { apply findById_inv in Hf. destruct Hf as (oid & _ & Hf & _).
        apply find_some in Hf. destruct Hf as [Hin _].
        destruct (Href e Hin) as [Hm He].
        destruct q; simpl; auto using populated_true. }
      rewrite Hres.
      destruct (Hsave (okMessage q) (errMessage q) doc m) as [H|H];
        [left|right; right]; [exact H|].
      destruct H as (H1 & H2 & H3). split; [exact H1|].
      split; [exact H2|exact H3].
  - unfold deleteExpense.
    destruct (findById _ _) as [| |e] eqn:Hf;
      try (left; apply Hfail; simpl; tauto).
    right; right. simpl. repeat split.
    apply findById_inv in Hf. destruct Hf as (oid & _ & Hfind & ->).
    eapply deleteOne_length; eauto.
  - unfold closeYear.
    destruct (includes _ _); [left; apply Hfail; simpl; tauto|].
    right; right. simpl. repeat split.
    unfold archiveExpenses. apply length_map.
Qed.

(** X22. No request writes and fails, as long as every stored expense
    refers to an existing member and an existing event.  Whatever the
    operation on the expenses - submission, manual entry, update, approval,
    rejection, reimbursement, deletion, closing the year - an answer that is
    not a success is a 400, 404 or 500 without data and leaves the whole
    store as it was.  A success is a 201 or a 200: a 201 is the answer of a
    submission or a manual entry and puts exactly the returned expense at
    the end of the collection; a 200 on a deletion leaves one expense
    fewer, and any other 200 leaves as many expenses as before. *)
Theorem failed_requests_change_nothing (db : Db) (op : Op) :
  referencesExist db ->
  let out := perform db op in
  let r := snd out in
  (success r = false ->
   fst out = db /\ data r = None /\ In (statusCode r) [400; 404; 500])
  /\ (success r = true -> statusCode r = 200 \/ statusCode r = 201)
  /\ (statusCode r = 201 ->
      (exists user newId now body file,
          op = OpCreate user newId now body file
          \/ op = OpManual user newId now body file)
      /\ exists e, expenses (fst out) = expenses db ++ [e]
                   /\ data r = Some e)
  /\ (statusCode r = 200 ->
      match op with
      | OpDelete _ =>
          S (List.length (expenses (fst out))) = List.length (expenses db)
      | _ => List.length (expenses (fst out)) = List.length (expenses db)
      end).
Proof.
  intros Href out r.
  destruct (perform_answered db op Href)
    as [(H1 & H2 & H3 & H4)|[(H1 & H2 & H3 & H4)|(H1 & H2 & H3)]];
    fold out in H1, H2, H3; fold r in H1, H2, H3;
    try (fold out in H4; fold r in H4).
  - split; [auto|]. split; [congruence|].
    simpl in H4.
    split; intros Hc; exfalso; rewrite Hc in H4;
      repeat (destruct H4 as [H4|H4]; try discriminate); exact H4.
  - split; [congruence|]. split; [auto|].
    split.
    + intros _. split; [|exact H3].
      destruct op; try contradiction; repeat eexists; eauto.
    + intros Hc. congruence.
  - split; [congruence|]. split; [auto|].
    split; [intros Hc; congruence|].
    intros _. destruct op; try contradiction; exact H3.
Qed.

Lemma failed_requests_change_nothing_witness :
  fst (perform (oneExpense rejected)
         (OpTransition (ApproveReq bob later expenseA)))
  = oneExpense rejected.
Proof.
  refine (proj1 (proj1 (failed_requests_change_nothing (oneExpense rejected)
                          (OpTransition (ApproveReq bob later expenseA)) _)
                   eq_refl)).
  intros e [<-|[]]. simpl. auto.
Defined.

(** When the member of an expense is no longer a user, an approval writes
    and then fails: the answer is 500 and the expense is approved. *)
Example approval_of_an_orphan_writes_and_fails :
  let db := mkDb [sampleExpense expenseA alice travel_expense 1500 pending]
              [Event.mk gala "Gala" 10000] [] [] in
  statusCode (snd (approveExpense db bob later expenseA)) = 500
  /\ map status (expenses (fst (approveExpense db bob later expenseA)))
     = [approved].
Proof. split; reflexivity. Qed.

(** ** Updating an expense *)








(** ** Identifiers that name nothing *)

Lemma find_absent {A : Type} (key : A -> ObjectId) (oid : ObjectId)
  (p : A -> bool) (coll : list A) :
  ~ In oid (map key coll) ->
  find (fun x => (key x =? oid)%string && p x) coll = None.
Proof.
  induction coll as [|x rest IH]; simpl; [reflexivity|].
  intros Hnot. destruct (key x =? oid)%string eqn:Hx.
  - apply String.eqb_eq in Hx. exfalso. apply Hnot. now left.
  - simpl. apply IH. intros H. apply Hnot. now right.
Qed.

Lemma findById_absent (coll : list Expense) (id : string) :
  match castObjectId id with
  | None => findById coll id = CastError
  | Some oid => ~ In oid (map _id coll) -> findById coll id = Missing
  end.
Proof.
  unfold findById. destruct (castObjectId id) as [oid|]; [|reflexivity].
  intros Hnot.
  replace (find (fun e => (_id e =? oid)%string) coll) with (@None Expense);
    [reflexivity|].
  symmetry. induction coll as [|x rest IH]; simpl; [reflexivity|].
  destruct (_id x =? oid)%string eqn:Hx.
  - apply String.eqb_eq in Hx. exfalso. apply Hnot. now left.
  - apply IH. intros H. apply Hnot. now right.
Qed.

(** X24. A request that names no stored expense.  When the identifier is not
    of the 24 hexadecimal digits form every handler that takes it answers
    500; when it is of that form but no stored expense has it, 404.  This
    holds for reading (by an admin or by a member), updating, approving,
    reimbursing and deleting; a rejection without a reason is answered 400
    before the identifier is looked at.  None of these requests changes the
    store. *)
Theorem requests_on_unknown_expenses (db : Db) (id : string)
  (user : ObjectId) (now : Date) (body : list (string * Value))
  (file : option UploadedFile) (reason reference : option string)
  (isAdmin : bool) :
  (isValidObjectId id = false
   \/ exists oid, castObjectId id = Some oid
                  /\ ~ In oid (map _id (expenses db))) ->
  let code := if isValidObjectId id then 404 else 500 in
  statusCode (getExpenseById db user isAdmin id) = code
  /\ statusCode (getExpense db user id) = code
  /\ updateExpense db id body file
     = (db, fail code (if isValidObjectId id then "Expense not found"
                       else "Failed to update expense"))
  /\ deleteExpense db id
     = (db, fail code (if isValidObjectId id then "Expense not found"
                       else "Failed to delete expense"))
  /\ approveExpense db user now id
     = (db, fail code (if isValidObjectId id then "Expense not found"
                       else "Failed to approve expense"))
  /\ reimburseExpense db user now id reference
     = (db, fail code (if isValidObjectId id then "Expense not found"
                       else "Failed to reimburse expense"))
  /\ rejectExpense db user now id reason
     = (db, if falsy reason then fail 400 "Rejection reason is required"
            else fail code (if isValidObjectId id then "Expense not found"
                            else "Failed to reject expense")).
Proof.
  intros Hid code. unfold code.
  pose proof (findById_absent (expenses db) id) as Hf.
  unfold getExpenseById, getExpense, updateExpense, deleteExpense,
    approveExpense, reimburseExpense, rejectExpense, approve_read,
    reimburse_read, reject_read.
  unfold castObjectId in *.
  destruct (isValidObjectId id) eqn:Hvalid.
  - destruct Hid as [Hid|(oid & Hoid & Hnot)]; [discriminate|].
    injection Hoid as Hoid. rewrite Hoid in Hf. rewrite (Hf Hnot).
    rewrite Hoid.
    rewrite (find_absent _id oid (fun e => (member e =? user)%string)
               (expenses db) Hnot).
    destruct (falsy reason); simpl; auto 10.
  - rewrite Hf. destruct (falsy reason); simpl; auto 10.
Qed.

Lemma requests_on_unknown_expenses_witness :
  statusCode (getExpenseById (oneExpense pending) alice true expenseB) = 404.
Proof.
  refine (proj1 (requests_on_unknown_expenses (oneExpense pending) expenseB
                   alice noon [] None None None true _)).
  right. exists expenseB. split; [reflexivity|].
  simpl. intros [H|[]]. discriminate.
Defined.
